(** * sidconv: C64 BASIC SID POKE-to-OUT converter

    A shallow embedding of [sidconv.py].

    Python [str] values are modelled as [string]; a character is a code
    point below 256.  On that range Python's whitespace (what
    [str.strip] and the pattern class [\s] use) is the table
    [is_space], the decimal digits ([\d], [int]) are ['0'..'9'], and
    case-insensitive matching only identifies [a-z] with [A-Z].

    The regular expressions of the source are written as terms of a
    small pattern syntax [re] and run by a backtracking matcher [mt]
    that explores alternatives in the order of Python's [re] module
    (greedy repetition longest first, lazy repetition shortest first,
    an optional part first present then absent), so that the groups
    captured are those Python captures.  Python sets are [gset]s, the
    dict [ANSI_CHR_MAP] is a [gmap], Python integers are [Z].

    File access and the command line are left out: [main] takes the
    parsed arguments and the list of input lines (what [splitlines]
    returns) and gives the list of output lines. *)

From Stdlib Require Import Bool Ascii String List ZArith Lia.
From Stdlib Require Import DecimalString DecimalZ DecimalN.
From stdpp Require Import gmap strings.
Import ListNotations.
Open Scope string_scope.

(** String concatenation computes under [simpl] as list concatenation does. *)
#[local] Arguments String.append !_ _ / : simpl nomatch.

(** ** Characters *)

Definition code (c : ascii) : nat := nat_of_ascii c.

Definition in_range (lo hi : nat) (c : ascii) : bool :=
  (lo <=? code c)%nat && (code c <=? hi)%nat.

(** Python's [str.isspace] on code points below 256: TAB..CR, FS..US,
    SPACE, NEL (0x85), NBSP (0xA0). *)
Definition is_space (c : ascii) : bool :=
  in_range 9 13 c || in_range 28 32 c || (code c =? 133)%nat || (code c =? 160)%nat.

Definition is_digit (c : ascii) : bool := in_range 48 57 c.
Definition is_upper (c : ascii) : bool := in_range 65 90 c.
Definition is_lower (c : ascii) : bool := in_range 97 122 c.

(** The classes "[A-Z]" and "[A-Z0-9]" under [re.IGNORECASE]. *)
Definition is_alpha (c : ascii) : bool := is_upper c || is_lower c.
Definition is_alnum (c : ascii) : bool := is_alpha c || is_digit c.

(** [.] without [re.DOTALL]: anything but a line feed. *)
Definition is_dot (c : ascii) : bool := negb (code c =? 10)%nat.

Definition lower_char (c : ascii) : ascii :=
  if is_upper c then ascii_of_nat (code c + 32) else c.
Definition upper_char (c : ascii) : ascii :=
  if is_lower c then ascii_of_nat (code c - 32) else c.

(** A literal pattern character under [re.IGNORECASE]. *)
Definition ci (x c : ascii) : bool := Ascii.eqb (lower_char c) (lower_char x).

(** ** Strings *)

Definition nonempty (s : string) : bool :=
  match s with EmptyString => false | String _ _ => true end.

(** [str.upper] (applied by the source only to captures of a
    variable name, which are letters and digits). *)
Fixpoint upper (s : string) : string :=
  match s with
  | EmptyString => EmptyString
  | String c s' => String (upper_char c) (upper s')
  end.

(** Stripping the characters of a class from either end. *)
Fixpoint lstrip_by (f : ascii -> bool) (s : string) : string :=
  match s with
  | EmptyString => EmptyString
  | String c s' => if f c then lstrip_by f s' else s
  end.

Fixpoint rstrip_by (f : ascii -> bool) (s : string) : string :=
  match s with
  | EmptyString => EmptyString
  | String c s' =>
      match rstrip_by f s' with
      | EmptyString => if f c then EmptyString else String c EmptyString
      | r => String c r
      end
  end.

(** [s.lstrip()], [s.rstrip()], [s.strip()] *)
Definition lstrip (s : string) : string := lstrip_by is_space s.
Definition rstrip (s : string) : string := rstrip_by is_space s.
Definition strip (s : string) : string := rstrip (lstrip s).

(** [s[n:]] *)
Fixpoint drop_str (n : nat) (s : string) : string :=
  match n, s with
  | S n', String _ s' => drop_str n' s'
  | _, _ => s
  end.

Definition startswith (s p : string) : bool := String.prefix p s.

(** [sep.join(parts)] *)
Definition join (sep : string) (parts : list string) : string :=
  String.concat sep parts.

(** f-string rendering of an [int]. *)
Definition str_of_int (z : Z) : string := NilZero.string_of_int (Z.to_int z).

(** *** [int(s, 10)] *)

(** Digits with single underscores between them. *)
Fixpoint digits_ok (prev_digit : bool) (s : string) : bool :=
  match s with
  | EmptyString => prev_digit
  | String c s' =>
      if is_digit c then digits_ok true s'
      else if Ascii.eqb c "_" then prev_digit && digits_ok false s'
      else false
  end.

Fixpoint drop_underscores (s : string) : string :=
  match s with
  | EmptyString => EmptyString
  | String c s' =>
      if Ascii.eqb c "_" then drop_underscores s' else String c (drop_underscores s')
  end.

Definition int_of_digits (s : string) : option Z :=
  if digits_ok false s then
    match NilEmpty.uint_of_string (drop_underscores s) with
    | Some d => Some (Z.of_uint d)
    | None => None
    end
  else None.

(** The blanks [int] accepts around a literal: those of [str.strip]
    except FS..US. *)
Definition is_int_space (c : ascii) : bool :=
  in_range 9 13 c || (code c =? 32)%nat || (code c =? 133)%nat || (code c =? 160)%nat.

(** [None] stands for [ValueError]. *)
Definition py_int (s : string) : option Z :=
  match rstrip_by is_int_space (lstrip_by is_int_space s) with
  | String c r =>
      if Ascii.eqb c "-" then option_map Z.opp (int_of_digits r)
      else if Ascii.eqb c "+" then int_of_digits r
      else int_of_digits (String c r)
  | EmptyString => None
  end.

(** ** [split_colon_statements] *)

(** The [while] loop: [buf] is the buffer, [parts] the list built so far. *)
Fixpoint split_loop (s : string) (buf : string) (parts : list string)
  : list string * string :=
  match s with
  | EmptyString => (parts, buf)
  | String c s' =>
      if Ascii.eqb c ":" then split_loop s' EmptyString (parts ++ [strip buf])%list
      else split_loop s' (buf ++ String c EmptyString) parts
  end.

Definition split_colon_statements (s : string) : list string :=
  let '(parts, buf) := split_loop s EmptyString [] in
  let tail := strip buf in
  if nonempty tail then (parts ++ [tail])%list else parts.

(** The raw segments between colons, as a reference for the splitter:
    a string with n colons has n+1 segments. *)
Fixpoint segments (s : string) : list string :=
  match s with
  | EmptyString => [EmptyString]
  | String c s' =>
      if Ascii.eqb c ":" then EmptyString :: segments s'
      else match segments s' with
           | h :: t => String c h :: t
           | [] => [String c EmptyString]
           end
  end.

(** ** Patterns and the backtracking matcher *)

Inductive quant := Greedy | Lazy.

Inductive re : Type :=
| Nil                                   (* empty pattern *)
| Bos                                   (* ^ *)
| Eos                                   (* $ *)
| Chr (f : ascii -> bool)               (* one character of a class *)
| Rep (q : quant) (f : ascii -> bool)   (* a class repeated, greedy or lazy *)
| Opt (r : re)                          (* an optional part *)
| Cat (r1 r2 : re)
| Grp (n : nat) (r : re).               (* capturing group number n *)

Definition seq (rs : list re) : re := fold_right Cat Nil rs.
Definition star (f : ascii -> bool) : re := Rep Greedy f.
Definition plus (f : ascii -> bool) : re := Cat (Chr f) (Rep Greedy f).
Definition plus_lazy (f : ascii -> bool) : re := Cat (Chr f) (Rep Lazy f).
Definition lit (s : string) : re :=
  seq (map (fun c => Chr (ci c)) (list_ascii_of_string s)).

(** Group number, start and end offsets; the latest entry of a group
    comes first. *)
Definition spans := list (nat * (nat * nat)).

(** [$] without [re.MULTILINE]: at the end, or before a final line feed. *)
Definition at_end (s : string) : bool :=
  match s with
  | EmptyString => true
  | String c EmptyString => (code c =? 10)%nat
  | _ => false
  end.

Section Matcher.
Context {A : Type}.

Fixpoint rep_greedy (f : ascii -> bool) (p : nat) (s : string)
         (k : nat -> string -> option A) : option A :=
  match s with
  | String c s' =>
      if f c then
        match rep_greedy f (S p) s' k with
        | Some x => Some x
        | None => k p s
        end
      else k p s
  | EmptyString => k p s
  end.

Fixpoint rep_lazy (f : ascii -> bool) (p : nat) (s : string)
         (k : nat -> string -> option A) : option A :=
  match k p s with
  | Some x => Some x
  | None =>
      match s with
      | String c s' => if f c then rep_lazy f (S p) s' k else None
      | EmptyString => None
      end
  end.

(** [mt r p s sp k]: match [r] at offset [p], where [s] is the input
    from [p] on and [sp] the groups closed so far; [k] is the rest of
    the match. *)
Fixpoint mt (r : re) (p : nat) (s : string) (sp : spans)
         (k : nat -> string -> spans -> option A) : option A :=
  match r with
  | Nil => k p s sp
  | Bos => if (p =? 0)%nat then k p s sp else None
  | Eos => if at_end s then k p s sp else None
  | Chr f =>
      match s with
      | String c s' => if f c then k (S p) s' sp else None
      | EmptyString => None
      end
  | Rep Greedy f => rep_greedy f p s (fun p' s' => k p' s' sp)
  | Rep Lazy f => rep_lazy f p s (fun p' s' => k p' s' sp)
  | Opt r1 =>
      match mt r1 p s sp k with
      | Some x => Some x
      | None => k p s sp
      end
  | Cat r1 r2 => mt r1 p s sp (fun p' s' sp' => mt r2 p' s' sp' k)
  | Grp n r1 => mt r1 p s sp (fun p' s' sp' => k p' s' ((n, (p, p')) :: sp'))
  end.
End Matcher.

(** A match object: the subject string, the span of the whole match and
    the spans of the groups. *)
Record match_obj := MatchObj {
  m_string : string;
  m_start : nat;
  m_end : nat;
  m_spans : spans
}.

(** A match of [r] starting at offset [p] of [input], whose text from
    [p] on is [s]. *)
Definition match_at (r : re) (input : string) (p : nat) (s : string)
  : option match_obj :=
  mt r p s [] (fun p' _ sp => Some (MatchObj input p p' sp)).

(** [re.match(r, input)] *)
Definition re_match (r : re) (input : string) : option match_obj :=
  match_at r input 0 input.

Fixpoint find_span (n : nat) (sp : spans) : option (nat * nat) :=
  match sp with
  | [] => None
  | (g, ab) :: sp' => if (g =? n)%nat then Some ab else find_span n sp'
  end.

(** [m.group(n)], [None] for a group that took no part in the match. *)
Definition group (m : match_obj) (n : nat) : option string :=
  match n with
  | O => Some (substring (m_start m) (m_end m - m_start m) (m_string m))
  | _ => match find_span n (m_spans m) with
         | Some (a, b) => Some (substring a (b - a) (m_string m))
         | None => None
         end
  end.

(** [m.group(n)] for a group the pattern cannot skip. *)
Definition group_str (m : match_obj) (n : nat) : string :=
  match group m n with Some g => g | None => EmptyString end.

(** [r.sub(repl, s)] for a pattern that matches no empty string: scan
    from the left; where [r] matches, emit the replacement and resume
    after the match ([skip] counts the matched characters still to pass). *)
Fixpoint sub_scan (r : re) (repl : match_obj -> string) (input : string)
         (p : nat) (s : string) (skip : nat) : string :=
  match s with
  | EmptyString => EmptyString
  | String c s' =>
      match skip with
      | S n => sub_scan r repl input (S p) s' n
      | O =>
          match match_at r input p s with
          | Some m => repl m ++ sub_scan r repl input (S p) s' (m_end m - p - 1)
          | None => String c (sub_scan r repl input (S p) s' 0)
          end
      end
  end.

Definition re_sub (r : re) (repl : match_obj -> string) (s : string) : string :=
  sub_scan r repl s 0 s 0.

(** ** The patterns of the source *)

Definition DEFAULT_REG : Z := 212.
Definition DEFAULT_DAT : Z := 213.

(** The variable name "[A-Z][A-Z0-9]?" *)
Definition VAR_NAME : re := seq [Chr is_alpha; Opt (Chr is_alnum)].

(** "^\s*(\d+)\s*(REST)$" where REST is ".*" *)
Definition LINE_NUM_RE : re :=
  seq [Bos; star is_space; Grp 1 (plus is_digit); star is_space;
       Grp 2 (star is_dot); Eos].

(** "^\s*(?:LET\s+)?([A-Z][A-Z0-9]?)\s*=\s*54272\s*$", IGNORECASE *)
Definition ASSIGN_BASE_RE : re :=
  seq [Bos; star is_space; Opt (seq [lit "LET"; plus is_space]);
       Grp 1 VAR_NAME; star is_space; lit "="; star is_space; lit "54272";
       star is_space; Eos].

(** "^\s*POKE\s+(.+?)\s*,\s*(.+?)\s*$", IGNORECASE *)
Definition POKE_STMT_RE : re :=
  seq [Bos; star is_space; lit "POKE"; plus is_space; Grp 1 (plus_lazy is_dot);
       star is_space; lit ","; star is_space; Grp 2 (plus_lazy is_dot);
       star is_space; Eos].

(** "^\s*FOR\s+([A-Z][A-Z0-9]?)\s*=\s*1\s+TO\s*(\d+)\s*$", IGNORECASE *)
Definition FOR_RE : re :=
  seq [Bos; star is_space; lit "FOR"; plus is_space; Grp 1 VAR_NAME;
       star is_space; lit "="; star is_space; lit "1"; plus is_space; lit "TO";
       star is_space; Grp 2 (plus is_digit); star is_space; Eos].

(** "^\s*NEXT\s+([A-Z][A-Z0-9]?)\s*$", IGNORECASE (unused by the source) *)
Definition NEXT_RE : re :=
  seq [Bos; star is_space; lit "NEXT"; plus is_space; Grp 1 VAR_NAME;
       star is_space; Eos].

(** "\s+", used to squeeze the address expression *)
Definition SPACES_RE : re := plus is_space.

(** "^([A-Z][A-Z0-9]?)(\+(.+))?$", IGNORECASE *)
Definition BASE_VAR_RE : re :=
  seq [Bos; Grp 1 VAR_NAME; Opt (Grp 2 (seq [lit "+"; Grp 3 (plus is_dot)])); Eos].

(** "CHR\$\(\s*(\d+)\s*\)", IGNORECASE *)
Definition CHR_CALL_RE : re :=
  seq [lit "CHR$("; star is_space; Grp 1 (plus is_digit); star is_space; lit ")"].

(** "^\s*GET\s+([A-Z][A-Z0-9]?)\$?\s*$", IGNORECASE *)
Definition GET_RE : re :=
  seq [Bos; star is_space; lit "GET"; plus is_space; Grp 1 VAR_NAME;
       Opt (lit "$"); star is_space; Eos].

(** ** [rewrite_poke] *)

(** [re.sub(r"\s+", "", s)] *)
Definition squeeze (s : string) : string :=
  re_sub SPACES_RE (fun _ => EmptyString) s.

Definition poke_offset (addr_expr_no_sp : string) (base_vars : gset string)
  : option string :=
  if startswith addr_expr_no_sp "54272+" then
    Some (drop_str (String.length "54272+") addr_expr_no_sp)
  else if String.eqb addr_expr_no_sp "54272" then Some "0"
  else
    match re_match BASE_VAR_RE addr_expr_no_sp with
    | Some m =>
        if bool_decide (upper (group_str m 1) ∈ base_vars) then
          Some (match group m 3 with Some g => g | None => "0" end)
        else None
    | None => None
    end.

Definition range_rem (warn_out_of_range : bool) (offset_expr : string) : string :=
  if warn_out_of_range then
    match py_int offset_expr with
    | Some off_eval =>
        if (off_eval <? 0)%Z || (off_eval >? 24)%Z then
          " : REM WARN: SID reg " ++ str_of_int off_eval ++ " out of 0-24"
        else EmptyString
    | None => EmptyString
    end
  else EmptyString.

(** [None] stands for the pair [(None, None)]. *)
Definition rewrite_poke (arg_addr arg_val : string) (base_vars : gset string)
           (warn_out_of_range : bool) : option (string * string) :=
  let addr_expr := strip arg_addr in
  let val_expr := strip arg_val in
  let addr_expr_no_sp := squeeze addr_expr in
  match poke_offset addr_expr_no_sp base_vars with
  | None => None
  | Some offset_expr =>
      let rem := range_rem warn_out_of_range offset_expr in
      Some ("OUT REG," ++ offset_expr, "OUT DAT," ++ val_expr ++ rem)
  end.

(** ** [map_chr_calls_to_profile] *)

Definition ANSI_SEQ : string := String "027" EmptyString.
Definition DQUOTE : string := String "034" EmptyString.

Definition ANSI_CHR_MAP : gmap Z string :=
  list_to_map
    [ (147%Z, ANSI_SEQ ++ "[2J" ++ ANSI_SEQ ++ "[H");
      (19%Z, ANSI_SEQ ++ "[H");
      (17%Z, ANSI_SEQ ++ "[B");
      (145%Z, ANSI_SEQ ++ "[A");
      (157%Z, ANSI_SEQ ++ "[D");
      (29%Z, ANSI_SEQ ++ "[C");
      (5%Z, ANSI_SEQ ++ "[37m");
      (28%Z, ANSI_SEQ ++ "[31m");
      (30%Z, ANSI_SEQ ++ "[32m");
      (31%Z, ANSI_SEQ ++ "[34m");
      (144%Z, ANSI_SEQ ++ "[30m");
      (18%Z, ANSI_SEQ ++ "[0m") ].

(** The inner function [repl]; [int] cannot fail on a capture of [\d+]. *)
Definition chr_repl (m : match_obj) : string :=
  match py_int (group_str m 1) with
  | Some n =>
      match ANSI_CHR_MAP !! n with
      | Some esc => DQUOTE ++ esc ++ DQUOTE
      | None => group_str m 0
      end
  | None => group_str m 0
  end.

Definition map_chr_calls_to_profile (stmt screen_profile : string) : string :=
  if negb (String.eqb screen_profile "ansi") then stmt
  else re_sub CHR_CALL_RE chr_repl stmt.

(** ** [process_line_body] *)

(** Truth value of [scale_for and scale_for > 1]. *)
Definition scaling_on (scale_for : option Z) : bool :=
  match scale_for with
  | Some f => negb (f =? 0)%Z && (f >? 1)%Z
  | None => false
  end.

(** One turn of the first loop: what is appended to [scaled_stmts].
    ([int] cannot fail on the second group, a capture of [\d+].) *)
Definition scale_stmt (scale_for : option Z) (scale_for_vars : gset string)
           (stmt : string) : string :=
  let s := strip stmt in
  if scaling_on scale_for then
    match re_match FOR_RE s with
    | Some fm =>
        if bool_decide (upper (group_str fm 1) ∈ scale_for_vars) then
          let var := group_str fm 1 in
          match py_int (group_str fm 2), scale_for with
          | Some bound, Some f =>
              "FOR " ++ var ++ "=1 TO " ++ str_of_int (bound * f)
          | _, _ => s
          end
        else s
    | None => s
    end
  else s.

(** The POKE test of the second loop: the pattern, then [rewrite_poke]
    on its two groups. *)
Definition poke_rewrite (base_vars : gset string) (warn_out_of_range : bool)
           (s : string) : option (string * string) :=
  match re_match POKE_STMT_RE s with
  | Some pm =>
      rewrite_poke (group_str pm 1) (group_str pm 2) base_vars warn_out_of_range
  | None => None
  end.

(** One turn of the second loop: what is appended to [out_parts]. *)
Definition rewrite_stmt (base_vars : gset string) (warn_out_of_range : bool)
           (screen_profile : string) (map_get_to_inkey : bool) (s : string)
  : list string :=
  let poke_or_screen :=
    let screen := [map_chr_calls_to_profile s screen_profile] in
    match poke_rewrite base_vars warn_out_of_range s with
    | Some (out_reg, out_dat) =>
        if nonempty out_reg && nonempty out_dat then [out_reg; out_dat]
        else screen
    | None => screen
    end in
  if map_get_to_inkey then
    match re_match GET_RE s with
    | Some mg => [upper (group_str mg 1) ++ "$" ++ "=INKEY$"]
    | None => poke_or_screen
    end
  else poke_or_screen.

Definition process_line_body (body : string) (base_vars : gset string)
           (warn_out_of_range : bool) (scale_for : option Z)
           (scale_for_vars : gset string) (screen_profile : string)
           (map_get_to_inkey : bool) : string :=
  let stmts := split_colon_statements body in
  let scaled_stmts := map (scale_stmt scale_for scale_for_vars) stmts in
  let out_parts :=
    flat_map (rewrite_stmt base_vars warn_out_of_range screen_profile
                           map_get_to_inkey) scaled_stmts in
  join ":" out_parts.

(** ** [main] *)

(** The parsed command line; [a_scale_for_vars] is the set built from
    [--scale-for-vars] on the first line of [main]. *)
Record args := Args {
  a_reg : Z;
  a_dat : Z;
  a_warn_out_of_range : bool;
  a_scale_for : Z;
  a_scale_for_vars : gset string;
  a_screen_profile : string;
  a_map_get_to_inkey : bool
}.

Definition default_args : args :=
  Args DEFAULT_REG DEFAULT_DAT false 0
       ({["T"]} ∪ {["W"]} ∪ {["DELAY"]} ∪ {["D"]}) "ansi" false.

(** The state of the first pass. *)
Record pass1 := Pass1 {
  base_vars_of : gset string;
  first_line_num : option Z;
  parsed_lines : list (option Z * string)
}.

Definition scan_assigns (stmts : list string) (base_vars : gset string)
  : gset string :=
  fold_left
    (fun acc stmt =>
       match re_match ASSIGN_BASE_RE stmt with
       | Some am => {[upper (group_str am 1)]} ∪ acc
       | None => acc
       end) stmts base_vars.

(** [int(m.group(1))] of a numbered line; [int] cannot fail on a
    capture of [\d+] (lemma [py_int_digits]). *)
Definition line_number (m : match_obj) : Z :=
  match py_int (group_str m 1) with Some ln => ln | None => 0%Z end.

Definition pass1_step (st : pass1) (raw : string) : pass1 :=
  match re_match LINE_NUM_RE raw with
  | Some m =>
      let ln := line_number m in
      let body := strip (group_str m 2) in
      Pass1 (scan_assigns (split_colon_statements body) (base_vars_of st))
            (match first_line_num st with Some n => Some n | None => Some ln end)
            (parsed_lines st ++ [(Some ln, body)])%list
  | None =>
      Pass1 (base_vars_of st) (first_line_num st)
            (parsed_lines st ++ [(None, rstrip raw)])%list
  end.

Definition first_pass (lines : list string) : pass1 :=
  fold_left pass1_step lines (Pass1 ∅ None []).

Definition header_text (a : args) : string :=
  "B=0:REG=" ++ str_of_int (a_reg a) ++ ":DAT=" ++ str_of_int (a_dat a).

Definition header_line (a : args) (first : option Z) : string :=
  match first with
  | Some n => str_of_int (Z.max 0 (n - 5)) ++ " " ++ header_text a
  | None => "5 " ++ header_text a
  end.

(** The post-step on a rewritten body: base assignments become [<V>=0]. *)
Definition fix_assign (base_vars : gset string) (s : string) : string * bool :=
  match re_match ASSIGN_BASE_RE s with
  | Some am =>
      if bool_decide (upper (group_str am 1) ∈ base_vars)
      then (upper (group_str am 1) ++ "=0", true)
      else (s, false)
  | None => (s, false)
  end.

Definition zero_base_assigns (base_vars : gset string) (new_body : string) : string :=
  let stmts := map (fix_assign base_vars) (split_colon_statements new_body) in
  if existsb snd stmts then join ":" (map fst stmts) else new_body.

Definition convert_line (a : args) (base_vars : gset string)
           (l : option Z * string) : string :=
  match l with
  | (None, body) => body
  | (Some ln, body) =>
      let new_body :=
        zero_base_assigns base_vars
          (process_line_body body base_vars (a_warn_out_of_range a)
             (if (a_scale_for a >? 0)%Z then Some (a_scale_for a) else None)
             (a_scale_for_vars a) (a_screen_profile a) (a_map_get_to_inkey a)) in
      if nonempty (strip new_body) then str_of_int ln ++ " " ++ new_body
      else str_of_int ln
  end.

(** [output_lines] for the input [lines] (the result of [splitlines]). *)
Definition main (a : args) (lines : list string) : list string :=
  let st := first_pass lines in
  header_line a (first_line_num st)
    :: map (convert_line a (base_vars_of st)) (parsed_lines st).

(** The text written to the output file. *)
Definition output_text (a : args) (lines : list string) : string :=
  join (String "010" EmptyString) (main a lines) ++ String "010" EmptyString.

(** The splitter's result as the claim words it: the trimmed segments,
    none of them empty. *)
Definition trimmed_nonempty_segments (s : string) : list string :=
  List.filter nonempty (map strip (segments s)).

(** A body is tidy when no segment has blanks at its ends and, unless
    the body is empty, its last segment is not empty. *)
Definition tidy (body : string) : Prop :=
  Forall (fun seg => strip seg = seg) (segments body) /\
  (body = EmptyString \/ List.last (segments body) EmptyString <> EmptyString).

(** ** Auxiliary notions for the proofs *)

(** [prepend buf segs]: the segments of a text whose first segment
    continues the buffer [buf]. *)
Definition prepend (buf : string) (segs : list string) : list string :=
  match segs with
  | h :: t => (buf ++ h) :: t
  | [] => [buf]
  end.

Fixpoint all_of (f : ascii -> bool) (w : string) : bool :=
  match w with
  | EmptyString => true
  | String c w' => f c && all_of f w'
  end.

(** What a pattern can match, without the order in which the matcher
    tries the alternatives: [matches r p s sp p' s' sp'] when [r] can
    take the text from offset [p] (rest [s]) to offset [p'] (rest [s']),
    extending the closed groups [sp] to [sp']. *)
Inductive matches : re -> nat -> string -> spans -> nat -> string -> spans -> Prop :=
| M_Nil p s sp : matches Nil p s sp p s sp
| M_Bos s sp : matches Bos 0 s sp 0 s sp
| M_Eos p s sp : at_end s = true -> matches Eos p s sp p s sp
| M_Chr f c p s sp : f c = true -> matches (Chr f) p (String c s) sp (S p) s sp
| M_Rep q f w p s sp :
    all_of f w = true ->
    matches (Rep q f) p (w ++ s) sp (p + String.length w) s sp
| M_OptY r p s sp p' s' sp' :
    matches r p s sp p' s' sp' -> matches (Opt r) p s sp p' s' sp'
| M_OptN r p s sp : matches (Opt r) p s sp p s sp
| M_Cat r1 r2 p s sp p1 s1 sp1 p2 s2 sp2 :
    matches r1 p s sp p1 s1 sp1 -> matches r2 p1 s1 sp1 p2 s2 sp2 ->
    matches (Cat r1 r2) p s sp p2 s2 sp2
| M_Grp n r p s sp p' s' sp' :
    matches r p s sp p' s' sp' ->
    matches (Grp n r) p s sp p' s' ((n, (p, p')) :: sp').

(** [starts_ci kw s]: [s] begins with the keyword [kw], letters compared
    without case. *)
Fixpoint starts_ci (kw s : string) : bool :=
  match kw, s with
  | EmptyString, _ => true
  | String k kw', String c s' => ci k c && starts_ci kw' s'
  | String _ _, EmptyString => false
  end.

(** The statement begins, after blanks, with the keyword. *)
Definition keyword (kw s : string) : bool := starts_ci kw (lstrip s).

(** A variable name: a letter, then at most one letter or digit. *)
Definition is_var (v : string) : bool :=
  match v with
  | String c1 EmptyString => is_alpha c1
  | String c1 (String c2 EmptyString) => is_alpha c1 && is_alnum c2
  | _ => false
  end.

(** Both loops of [process_line_body] on one statement. *)
Definition process_stmt (base_vars : gset string) (warn_out_of_range : bool)
           (scale_for : option Z) (scale_for_vars : gset string)
           (screen_profile : string) (map_get_to_inkey : bool)
           (stmt : string) : list string :=
  rewrite_stmt base_vars warn_out_of_range screen_profile map_get_to_inkey
               (scale_stmt scale_for scale_for_vars stmt).

(** What the first pass records for one input line. *)
Definition parse_line (raw : string) : option Z * string :=
  match re_match LINE_NUM_RE raw with
  | Some m => (Some (line_number m), strip (group_str m 2))
  | None => (None, rstrip raw)
  end.

(** The number of the first line that carries one. *)
Fixpoint first_numbered (lines : list string) : option Z :=
  match lines with
  | [] => None
  | raw :: rest =>
      match re_match LINE_NUM_RE raw with
      | Some m => Some (line_number m)
      | None => first_numbered rest
      end
  end.


(** The text without its blanks. *)
Fixpoint remove_spaces (s : string) : string :=
  match s with
  | EmptyString => EmptyString
  | String c s' =>
      if is_space c then remove_spaces s' else String c (remove_spaces s')
  end.

(** The length of the longest prefix made of characters of a class. *)
Fixpoint span_len (f : ascii -> bool) (s : string) : nat :=
  match s with
  | String c s' => if f c then S (span_len f s') else 0
  | EmptyString => 0
  end.

(** The first [n] characters, as far as there are any, are of the class. *)
Fixpoint prefix_of (f : ascii -> bool) (n : nat) (s : string) : bool :=
  match n, s with
  | S n', String c s' => f c && prefix_of f n' s'
  | _, _ => true
  end.

Definition not_space (c : ascii) : bool := negb (is_space c).
Definition not_dollar (c : ascii) : bool := negb (Ascii.eqb c "$").
Definition not_colon (c : ascii) : bool := negb (Ascii.eqb c ":").

(** The bodies of the groups numbered [n] in a pattern. *)
Fixpoint groups_of (n : nat) (r : re) : list re :=
  match r with
  | Grp m r1 => ((if (m =? n)%nat then [r1] else []) ++ groups_of n r1)%list
  | Cat r1 r2 => (groups_of n r1 ++ groups_of n r2)%list
  | Opt r1 => groups_of n r1
  | _ => []
  end.

(** The groups every match of a pattern closes. *)
Fixpoint sure_groups (r : re) : list nat :=
  match r with
  | Grp m r1 => m :: sure_groups r1
  | Cat r1 r2 => (sure_groups r1 ++ sure_groups r2)%list
  | _ => []
  end.

(** The character classes a pattern tests. *)
Fixpoint classes_of (r : re) : list (ascii -> bool) :=
  match r with
  | Chr f => [f]
  | Rep _ f => [f]
  | Opt r1 => classes_of r1
  | Cat r1 r2 => (classes_of r1 ++ classes_of r2)%list
  | Grp _ r1 => classes_of r1
  | _ => []
  end.

Definition all_chars : list ascii := map ascii_of_nat (List.seq 0 256).

(** Every character of class [f] is of class [g]. *)
Definition class_le (f g : ascii -> bool) : bool :=
  forallb (fun c => implb (f c) (g c)) all_chars.

(** Neither a dollar sign nor a colon. *)
Definition plain_char (c : ascii) : bool := not_dollar c && not_colon c.

(** Blanks, then an equals sign. *)
Definition breaks (t : string) : Prop :=
  exists w e rest, t = w ++ String e rest /\ all_of is_space w = true /\ ci "=" e = true.

(** The pattern ends with [$]. *)
Fixpoint ends_with_eos (r : re) : bool :=
  match r with
  | Eos => true
  | Cat r1 r2 =>
      match r2 with
      | Nil => ends_with_eos r1
      | _ => ends_with_eos r2
      end
  | _ => false
  end.

(** ** Tactics *)

(** Case analysis on the 256 characters. *)
Ltac char_cases c :=
  destruct c as [[|] [|] [|] [|] [|] [|] [|] [|]]; vm_compute in *;
  try reflexivity; try discriminate; try congruence.

(** Taking apart a match of a pattern whose shape is known. *)
Ltac invert H := inversion H; subst; clear H.

Ltac inv_matches :=
  repeat match goal with
    | H : matches (Cat _ _) _ _ _ _ _ _ |- _ => invert H
    | H : matches Nil _ _ _ _ _ _ |- _ => invert H
    | H : matches Bos _ _ _ _ _ _ |- _ => invert H
    | H : matches Eos _ _ _ _ _ _ |- _ => invert H
    | H : matches (Chr _) _ _ _ _ _ _ |- _ => invert H
    | H : matches (Rep _ _) _ _ _ _ _ _ |- _ => invert H
    | H : matches (Grp _ _) _ _ _ _ _ _ |- _ => invert H
    | H : matches (Opt _) _ _ _ _ _ _ |- _ => invert H
    end.

(** The text does not begin with a character of the class. *)
Definition head_not (f : ascii -> bool) (s : string) : bool :=
  match s with
  | String c _ => negb (f c)
  | EmptyString => true
  end.

(** A character of a rendered integer. *)
Definition is_num_char (c : ascii) : bool := is_digit c || Ascii.eqb c "-".

(** The text holds the word somewhere, in any letter case. *)
Fixpoint mentions (kw s : string) : bool :=
  starts_ci kw s ||
  match s with
  | String _ s' => mentions kw s'
  | EmptyString => false
  end.

Definition not_paren (c : ascii) : bool := negb (Ascii.eqb c "(").

(** A statement none of the rewriting rules looks at: it begins with
    none of the three keywords and calls no [CHR$]. *)
Definition neutral (s : string) : bool :=
  negb (keyword "FOR" s) && negb (keyword "GET" s) && negb (keyword "POKE" s)
  && negb (mentions "CHR$(" s).

Definition not_comma (c : ascii) : bool := negb (Ascii.eqb c ",").

Definition not_dquote (c : ascii) : bool := negb (Ascii.eqb c "034").

(** A text that can stand between double quotes inside a statement. *)
Definition literal_safe (s : string) : bool :=
  all_of not_dquote s && all_of not_dollar s && all_of not_colon s.

(** * Properties *)

(** ** Strings *)

Lemma app_str_nil_r (s : string) : s ++ EmptyString = s.
Proof. induction s as [|c s IH]; simpl; [done | by rewrite IH]. Qed.

Lemma app_str_assoc (s t u : string) : (s ++ t) ++ u = s ++ (t ++ u).
Proof. induction s as [|c s IH]; simpl; [done | by rewrite IH]. Qed.

Lemma app_str_length (s t : string) :
  String.length (s ++ t) = (String.length s + String.length t)%nat.
Proof. induction s as [|c s IH]; simpl; [done | by rewrite IH]. Qed.

Lemma nonempty_true (s : string) : nonempty s = true <-> s <> EmptyString.
Proof. destruct s; simpl; split; intros; congruence. Qed.

Section Strip.
Variable f : ascii -> bool.

Lemma lstrip_by_head (s : string) :
  lstrip_by f s = EmptyString \/
  exists c t, lstrip_by f s = String c t /\ f c = false.
Proof.
  induction s as [|c s IH]; simpl; [by left|].
  destruct (f c) eqn:E; [done | right; eauto].
Qed.

Lemma lstrip_by_fixed (c : ascii) (s : string) :
  f c = false -> lstrip_by f (String c s) = String c s.
Proof. intros E; simpl; by rewrite E. Qed.

Lemma rstrip_by_cons (c : ascii) (s : string) :
  f c = false -> exists t, rstrip_by f (String c s) = String c t.
Proof. intros E; simpl. destruct (rstrip_by f s); rewrite ?E; eauto. Qed.

Lemma rstrip_by_idem (s : string) :
  rstrip_by f (rstrip_by f s) = rstrip_by f s.
Proof.
  induction s as [|c s IH]; simpl; [done|].
  destruct (rstrip_by f s) as [|d r] eqn:E.
  - destruct (f c) eqn:Ec; simpl; [done | by rewrite Ec].
  - change (rstrip_by f (String c (String d r))) with
      (match rstrip_by f (String d r) with
       | EmptyString => if f c then EmptyString else String c EmptyString
       | String _ _ as r' => String c r'
       end).
    by rewrite IH.
Qed.

Lemma strip_by_idem (s : string) :
  rstrip_by f (lstrip_by f (rstrip_by f (lstrip_by f s)))
  = rstrip_by f (lstrip_by f s).
Proof.
  destruct (lstrip_by_head s) as [E | (c & t & E & Ec)]; rewrite E; [done|].
  destruct (rstrip_by_cons c t Ec) as [u Eu].
  rewrite <- (rstrip_by_idem (String c t)) at 2.
  rewrite Eu, (lstrip_by_fixed _ _ Ec). done.
Qed.

End Strip.

Lemma strip_idem (s : string) : strip (strip s) = strip s.
Proof. apply strip_by_idem. Qed.

(** ** The statement splitter *)

Lemma segments_nonnil (s : string) : segments s <> [].
Proof.
  induction s as [|c s IH]; simpl; [done|].
  destruct (Ascii.eqb c ":"); [done|]. by destruct (segments s).
Qed.

Lemma split_loop_segments (s buf : string) (parts : list string) :
  split_loop s buf parts =
  ((parts ++ map strip (removelast (prepend buf (segments s))))%list,
   List.last (prepend buf (segments s)) EmptyString).
Proof.
  revert buf parts. induction s as [|c s IH]; intros buf parts; simpl.
  - by rewrite app_str_nil_r, app_nil_r.
  - destruct (Ascii.eqb c ":") eqn:E; simpl.
    + rewrite IH, app_str_nil_r.
      pose proof (segments_nonnil s) as Hs.
      destruct (segments s) as [|h t] eqn:Es; [done|]. simpl.
      by rewrite <- List.app_assoc.
    + rewrite IH.
      pose proof (segments_nonnil s) as Hs.
      destruct (segments s) as [|h t] eqn:Es; [done|]. simpl prepend.
      by rewrite app_str_assoc.
Qed.

Lemma prepend_empty (segs : list string) :
  segs <> [] -> prepend EmptyString segs = segs.
Proof. by destruct segs. Qed.

Lemma split_colon_statements_spec (s : string) :
  split_colon_statements s =
  (map strip (removelast (segments s)) ++
   (if nonempty (strip (List.last (segments s) EmptyString))
    then [strip (List.last (segments s) EmptyString)] else []))%list.
Proof.
  unfold split_colon_statements. rewrite split_loop_segments.
  rewrite prepend_empty by apply segments_nonnil. simpl.
  destruct (nonempty _); [done | by rewrite app_nil_r].
Qed.

(** Every statement the splitter returns is trimmed. *)
Lemma split_colon_statements_stripped (s t : string) :
  In t (split_colon_statements s) -> strip t = t.
Proof.
  rewrite split_colon_statements_spec, in_app_iff, in_map_iff.
  intros [(x & <- & _) | H]; [apply strip_idem|].
  destruct (nonempty _); [|done].
  destruct H as [<- | []]. apply strip_idem.
Qed.

Lemma join_cons (sep x : string) (l : list string) :
  l <> [] -> join sep (x :: l) = x ++ sep ++ join sep l.
Proof. by destruct l. Qed.

Lemma join_segments (s : string) : join ":" (segments s) = s.
Proof.
  induction s as [|c s IH]; simpl; [done|].
  pose proof (segments_nonnil s) as Hs.
  destruct (Ascii.eqb_spec c ":") as [-> | Hc].
  - rewrite join_cons by done. simpl. by rewrite IH.
  - destruct (segments s) as [|h t] eqn:Es; [done|].
    destruct t as [|h' t'].
    + simpl in *. by rewrite IH.
    + rewrite join_cons by done. rewrite join_cons in IH by done.
      by rewrite <- IH.
Qed.

Lemma removelast_last {A} (l : list A) (d : A) :
  l <> [] -> (removelast l ++ [List.last l d])%list = l.
Proof. intros H. symmetry. by apply app_removelast_last. Qed.

Lemma Forall_removelast_last {A} (P : A -> Prop) (l : list A) (d : A) :
  l <> [] -> Forall P l -> Forall P (removelast l) /\ P (List.last l d).
Proof.
  intros Hl HF. rewrite <- (removelast_last l d Hl) in HF.
  apply Forall_app in HF as [H1 H2]. split; [done | by inversion H2].
Qed.

Lemma map_fixed {A} (g : A -> A) (l : list A) :
  Forall (fun x => g x = x) l -> map g l = l.
Proof. induction 1 as [|x l Hx _ IH]; simpl; [done | by rewrite Hx, IH]. Qed.

Lemma tidy_split (body : string) :
  tidy body -> join ":" (split_colon_statements body) = body.
Proof.
  intros [Hall Hlast]. rewrite split_colon_statements_spec.
  destruct Hlast as [-> | Hlast]; [done|].
  pose proof (segments_nonnil body) as Hn.
  destruct (Forall_removelast_last _ _ EmptyString Hn Hall) as [Hinit Hl].
  rewrite Hl, (proj2 (nonempty_true _) Hlast), (map_fixed _ _ Hinit).
  rewrite removelast_last by done. apply join_segments.
Qed.

(** ** The matcher and the patterns it can match *)

Section MatcherFacts.
Context {A : Type}.
Implicit Types (k : nat -> string -> spans -> option A).

Lemma rep_greedy_sound f p s (k : nat -> string -> option A) x :
  rep_greedy f p s k = Some x ->
  exists w s', s = w ++ s' /\ all_of f w = true /\
               k (p + String.length w)%nat s' = Some x.
Proof.
  revert p. induction s as [|c s IH]; intros p; simpl.
  - intros H. exists EmptyString, EmptyString. by rewrite Nat.add_0_r.
  - destruct (f c) eqn:Ec.
    + destruct (rep_greedy f (S p) s k) eqn:E.
      * intros [= ->]. apply IH in E as (w & s' & -> & Hw & Hk).
        exists (String c w), s'. simpl. rewrite Ec, Hw.
        by rewrite Nat.add_succ_r.
      * intros H. exists EmptyString, (String c s). by rewrite Nat.add_0_r.
    + intros H. exists EmptyString, (String c s). by rewrite Nat.add_0_r.
Qed.

Lemma rep_lazy_sound f p s (k : nat -> string -> option A) x :
  rep_lazy f p s k = Some x ->
  exists w s', s = w ++ s' /\ all_of f w = true /\
               k (p + String.length w)%nat s' = Some x.
Proof.
  revert p. induction s as [|c s IH]; intros p; simpl.
  - destruct (k p EmptyString) eqn:E; [|done].
    intros [= ->]. exists EmptyString, EmptyString. by rewrite Nat.add_0_r.
  - destruct (k p (String c s)) eqn:E.
    + intros [= ->]. exists EmptyString, (String c s). by rewrite Nat.add_0_r.
    + destruct (f c) eqn:Ec; [|done].
      intros H. apply IH in H as (w & s' & -> & Hw & Hk).
      exists (String c w), s'. simpl. rewrite Ec, Hw.
      by rewrite Nat.add_succ_r.
Qed.

Lemma rep_greedy_complete f w : forall p s (k : nat -> string -> option A),
  all_of f w = true -> rep_greedy f p (w ++ s) k = None ->
  k (p + String.length w)%nat s = None.
Proof.
  induction w as [|c w IH]; intros p s k Hw; simpl.
  - rewrite Nat.add_0_r. destruct s as [|d s]; simpl; [done|].
    destruct (f d); [|done]. by destruct (rep_greedy f (S p) s k).
  - simpl in Hw. apply andb_true_iff in Hw as [Hc Hw]. rewrite Hc.
    destruct (rep_greedy f (S p) (w ++ s) k) eqn:E; [done|].
    intros _. rewrite Nat.add_succ_r. by apply (IH (S p)).
Qed.

Lemma rep_lazy_complete f w : forall p s (k : nat -> string -> option A),
  all_of f w = true -> rep_lazy f p (w ++ s) k = None ->
  k (p + String.length w)%nat s = None.
Proof.
  induction w as [|c w IH]; intros p s k Hw; simpl.
  - rewrite Nat.add_0_r. destruct s as [|d s]; simpl;
      by destruct (k p _).
  - simpl in Hw. apply andb_true_iff in Hw as [Hc Hw]. rewrite Hc.
    destruct (k p (String c (w ++ s))); [done|].
    intros H. rewrite Nat.add_succ_r. by apply (IH (S p)).
Qed.

(** Whatever the matcher returns comes from a match of the pattern. *)
Lemma mt_sound r : forall p s sp k x,
  mt r p s sp k = Some x ->
  exists p' s' sp', matches r p s sp p' s' sp' /\ k p' s' sp' = Some x.
Proof.
  induction r as [| | |f|q f|r IH|r1 IH1 r2 IH2|n r IH]; intros p s sp k x; simpl.
  - intros H. exists p, s, sp. split; [constructor | done].
  - destruct (Nat.eqb_spec p 0) as [-> | _]; [|done].
    intros H. exists 0%nat, s, sp. split; [constructor | done].
  - destruct (at_end s) eqn:E; [|done].
    intros H. exists p, s, sp. split; [by constructor | done].
  - destruct s as [|c s]; [done|]. destruct (f c) eqn:E; [|done].
    intros H. exists (S p), s, sp. split; [by constructor | done].
  - destruct q; intros H;
      [apply rep_greedy_sound in H | apply rep_lazy_sound in H];
      destruct H as (w & s' & -> & Hw & Hk);
      exists (p + String.length w)%nat, s', sp; split; by try constructor.
  - destruct (mt r p s sp k) eqn:E.
    + intros [= ->]. apply IH in E as (p' & s' & sp' & Hm & Hk).
      exists p', s', sp'. split; [by apply M_OptY | done].
    + intros H. exists p, s, sp. split; [apply M_OptN | done].
  - intros H. apply IH1 in H as (p1 & s1 & sp1 & Hm1 & H).
    apply IH2 in H as (p2 & s2 & sp2 & Hm2 & H).
    exists p2, s2, sp2. split; [by eapply M_Cat | done].
  - intros H. apply IH in H as (p' & s' & sp' & Hm & H).
    exists p', s', ((n, (p, p')) :: sp'). split; [by constructor | done].
Qed.

(** The matcher tries every match of the pattern before it gives up. *)
Lemma mt_complete r p s sp p' s' sp' :
  matches r p s sp p' s' sp' ->
  forall k, mt r p s sp k = None -> k p' s' sp' = None.
Proof.
  induction 1 as [ | | p s sp He | f c p s sp Hc | q f w p s sp Hw
                 | r p s sp p' s' sp' _ IH | r p s sp
                 | r1 r2 p s sp p1 s1 sp1 p2 s2 sp2 _ IH1 _ IH2
                 | n r p s sp p' s' sp' _ IH ]; intros k; simpl; try done.
  - by rewrite He.
  - by rewrite Hc.
  - destruct q; intros H.
    + by apply (rep_greedy_complete f w p s (fun p' s' => k p' s' sp)).
    + by apply (rep_lazy_complete f w p s (fun p' s' => k p' s' sp)).
  - destruct (mt r p s sp k) eqn:E; [done|]. intros _. by apply IH.
  - by destruct (mt r p s sp k).
  - intros H. apply IH1 in H. by apply IH2 in H.
  - intros H. by apply IH in H.
Qed.
End MatcherFacts.

(** ** Character classes *)

Lemma ci_lower (x c : ascii) : ci x c = true -> lower_char c = lower_char x.
Proof. unfold ci. by intros H%Ascii.eqb_eq. Qed.

Lemma alpha_lower (x : ascii) : is_alpha x = true -> is_lower (lower_char x) = true.
Proof. intros H. char_cases x. Qed.

Lemma lower_alpha (c : ascii) : is_lower (lower_char c) = true -> is_alpha c = true.
Proof. intros H. char_cases c. Qed.

Lemma alpha_not_space (c : ascii) : is_alpha c = true -> is_space c = false.
Proof. intros H. char_cases c. Qed.

Lemma digit_not_space (c : ascii) : is_digit c = true -> is_space c = false.
Proof. intros H. char_cases c. Qed.

(** A letter of a keyword is matched by letters only. *)
Lemma ci_alpha (x c : ascii) : is_alpha x = true -> ci x c = true -> is_alpha c = true.
Proof.
  intros Hx Hc. apply lower_alpha. rewrite (ci_lower _ _ Hc). by apply alpha_lower.
Qed.

Lemma ci_letter_not_space (x c : ascii) :
  is_alpha x = true -> ci x c = true -> is_space c = false.
Proof. intros Hx Hc. apply alpha_not_space. by apply (ci_alpha x). Qed.

(** One character cannot stand for two different letters. *)
Lemma ci_exclusive (x y c : ascii) :
  lower_char x <> lower_char y -> ci x c = true -> ci y c = false.
Proof.
  intros Hxy Hx%ci_lower. destruct (ci y c) eqn:Hy; [|done].
  apply ci_lower in Hy. congruence.
Qed.

(** ** Blanks and keywords *)

Lemma all_of_app f (a b : string) : all_of f (a ++ b) = all_of f a && all_of f b.
Proof. induction a as [|c a IH]; simpl; [done|]. by rewrite IH, andb_assoc. Qed.

Lemma lstrip_by_app f (w s : string) :
  all_of f w = true -> lstrip_by f (w ++ s) = lstrip_by f s.
Proof.
  induction w as [|c w IH]; simpl; [done|].
  intros [Hc Hw]%andb_true_iff. rewrite Hc. by apply IH.
Qed.

Lemma lstrip_blanks_then (w : string) (c : ascii) (s : string) :
  all_of is_space w = true -> is_space c = false ->
  lstrip (w ++ String c s) = String c s.
Proof.
  intros Hw Hc. unfold lstrip. rewrite lstrip_by_app by done.
  by apply lstrip_by_fixed.
Qed.

Lemma lit_starts (kw : string) p s sp p' s' sp' :
  matches (lit kw) p s sp p' s' sp' -> starts_ci kw s = true.
Proof.
  revert p s. unfold lit.
  induction kw as [|k kw IH]; intros p s; simpl; [done|].
  intros H. inversion H as [ | | | | | | |r1 r2 ? ? ? p1 s1 sp1 ? ? ? H1 H2| ]; subst.
  inversion H1; subst. apply IH in H2. by apply andb_true_iff.
Qed.

(** A statement that matches blanks-then-keyword starts with the keyword. *)
Lemma keyword_of_match (k : ascii) (kw : string) (r : re) (s : string) m :
  is_alpha k = true ->
  re_match (Cat Bos (Cat (star is_space) (Cat (lit (String k kw)) r))) s = Some m ->
  keyword (String k kw) s = true.
Proof.
  intros Hk H. apply mt_sound in H as (p' & s' & sp' & H & _).
  inversion H as [ | | | | | | |? ? ? ? ? p1 s1 sp1 ? ? ? H1 H2| ]; subst.
  inversion H1; subst. clear H H1.
  inversion H2 as [ | | | | | | |? ? ? ? ? p2 s2 sp2 ? ? ? H3 H4| ]; subst.
  inversion H3 as [ | | | |? ? w ? ? ? Hw| | | | ]; subst. clear H2 H3.
  inversion H4 as [ | | | | | | |? ? ? ? ? p3 s3 sp3 ? ? ? H5 H6| ]; subst.
  apply lit_starts in H5. unfold keyword.
  destruct s2 as [|c s2]; [done|].
  simpl in H5. apply andb_true_iff in H5 as [Hc Hkw].
  rewrite lstrip_blanks_then; [| done | by apply (ci_letter_not_space k)].
  simpl. by rewrite Hc, Hkw.
Qed.

Lemma keyword_exclusive (k1 k2 : ascii) (kw1 kw2 s : string) :
  lower_char k1 <> lower_char k2 ->
  keyword (String k1 kw1) s = true -> keyword (String k2 kw2) s = false.
Proof.
  unfold keyword. intros Hk. destruct (lstrip s) as [|c t]; simpl; [done|].
  intros [Hc _]%andb_true_iff. by rewrite (ci_exclusive k1 k2 c).
Qed.

Lemma FOR_keyword s m : re_match FOR_RE s = Some m -> keyword "FOR" s = true.
Proof. by apply keyword_of_match. Qed.

Lemma GET_keyword s m : re_match GET_RE s = Some m -> keyword "GET" s = true.
Proof. by apply keyword_of_match. Qed.

Lemma POKE_keyword s m : re_match POKE_STMT_RE s = Some m -> keyword "POKE" s = true.
Proof. by apply keyword_of_match. Qed.

Lemma no_keyword_no_FOR s : keyword "FOR" s = false -> re_match FOR_RE s = None.
Proof.
  intros H. destruct (re_match FOR_RE s) eqn:E; [|done].
  apply FOR_keyword in E. congruence.
Qed.

Lemma no_keyword_no_GET s : keyword "GET" s = false -> re_match GET_RE s = None.
Proof.
  intros H. destruct (re_match GET_RE s) eqn:E; [|done].
  apply GET_keyword in E. congruence.
Qed.

Lemma no_keyword_no_POKE s : keyword "POKE" s = false -> re_match POKE_STMT_RE s = None.
Proof.
  intros H. destruct (re_match POKE_STMT_RE s) eqn:E; [|done].
  apply POKE_keyword in E. congruence.
Qed.

(** ** The statement pipeline *)

Section Pipeline.
Variables (base_vars : gset string) (warn : bool) (scale_for : option Z)
          (scale_for_vars : gset string) (screen_profile : string)
          (map_get_to_inkey : bool).

Local Abbreviation pstmt :=
  (process_stmt base_vars warn scale_for scale_for_vars screen_profile
                map_get_to_inkey).
Local Abbreviation pbody body :=
  (process_line_body body base_vars warn scale_for scale_for_vars
                     screen_profile map_get_to_inkey).

Lemma process_line_body_stmts (body : string) :
  pbody body
  = join ":" (flat_map pstmt (split_colon_statements body)).
Proof.
  unfold process_line_body. f_equal.
  induction (split_colon_statements body) as [|x l IH]; simpl; [done|].
  by rewrite IH.
Qed.

Lemma process_line_body_at (body : string) pre stmt post :
  split_colon_statements body = (pre ++ stmt :: post)%list ->
  pbody body
  = join ":" (flat_map pstmt pre ++ pstmt stmt
              ++ flat_map pstmt post)%list.
Proof.
  intros H. rewrite process_line_body_stmts, H.
  by rewrite flat_map_app.
Qed.

(** Without a FOR keyword the first loop only trims. *)
Lemma scale_stmt_other (stmt : string) :
  keyword "FOR" (strip stmt) = false ->
  scale_stmt scale_for scale_for_vars stmt = strip stmt.
Proof.
  intros H. unfold scale_stmt. destruct (scaling_on scale_for); [|done].
  by rewrite (no_keyword_no_FOR _ H).
Qed.

(** A statement that is neither FOR nor GET goes to the POKE test and,
    failing that, to the screen mapping. *)
Lemma process_stmt_other (stmt : string) :
  keyword "FOR" (strip stmt) = false ->
  keyword "GET" (strip stmt) = false ->
  pstmt stmt =
  match poke_rewrite base_vars warn (strip stmt) with
  | Some (out_reg, out_dat) =>
      if nonempty out_reg && nonempty out_dat then [out_reg; out_dat]
      else [map_chr_calls_to_profile (strip stmt) screen_profile]
  | None => [map_chr_calls_to_profile (strip stmt) screen_profile]
  end.
Proof.
  intros HF HG. unfold process_stmt. rewrite scale_stmt_other by done.
  unfold rewrite_stmt. rewrite (no_keyword_no_GET _ HG).
  by destruct map_get_to_inkey.
Qed.

Lemma process_stmt_poke (stmt : string) pm :
  re_match POKE_STMT_RE (strip stmt) = Some pm ->
  pstmt stmt =
  match rewrite_poke (group_str pm 1) (group_str pm 2) base_vars warn with
  | Some (out_reg, out_dat) =>
      if nonempty out_reg && nonempty out_dat then [out_reg; out_dat]
      else [map_chr_calls_to_profile (strip stmt) screen_profile]
  | None => [map_chr_calls_to_profile (strip stmt) screen_profile]
  end.
Proof.
  intros H. pose proof (POKE_keyword _ _ H) as Hk.
  rewrite process_stmt_other.
  - unfold poke_rewrite. by rewrite H.
  - by apply (keyword_exclusive "P" "F" "OKE" "OR").
  - by apply (keyword_exclusive "P" "G" "OKE" "ET").
Qed.
End Pipeline.

(** ** [rewrite_poke] *)

Lemma rewrite_poke_offset addr val base_vars warn off :
  poke_offset (squeeze (strip addr)) base_vars = Some off ->
  rewrite_poke addr val base_vars warn
  = Some ("OUT REG," ++ off, "OUT DAT," ++ strip val ++ range_rem warn off).
Proof. intros H. unfold rewrite_poke. by rewrite H. Qed.

Lemma rewrite_poke_inv addr val base_vars warn out_reg out_dat :
  rewrite_poke addr val base_vars warn = Some (out_reg, out_dat) ->
  exists off,
    poke_offset (squeeze (strip addr)) base_vars = Some off /\
    out_reg = "OUT REG," ++ off /\
    out_dat = "OUT DAT," ++ strip val ++ range_rem warn off.
Proof.
  unfold rewrite_poke.
  destruct (poke_offset _ _) as [off|]; [|done].
  intros [= <- <-]. by exists off.
Qed.

Lemma poke_offset_literal (off : string) base_vars :
  poke_offset ("54272+" ++ off) base_vars = Some off.
Proof. unfold poke_offset. simpl. by destruct off. Qed.

Lemma alpha_not_five (c : ascii) : is_alpha c = true -> Ascii.eqb c "5" = false.
Proof. intros H. char_cases c. Qed.

Lemma alnum_not_plus (c : ascii) : is_alnum c = true -> ci "+" c = false.
Proof. intros H. char_cases c. Qed.

Lemma range_rem_empty warn : range_rem warn EmptyString = EmptyString.
Proof. by destruct warn. Qed.

(** A name followed by a bare plus sign is no base-plus-offset form. *)
Lemma BASE_VAR_RE_bare_plus (alias : string) :
  is_var alias = true -> re_match BASE_VAR_RE (alias ++ "+") = None.
Proof.
  intros Ha. destruct alias as [|c1 [|c2 [|]]]; simpl in Ha; try done.
  - unfold re_match, match_at. simpl. by rewrite Ha.
  - apply andb_true_iff in Ha as [H1 H2].
    unfold re_match, match_at. simpl. rewrite H1, H2. simpl.
    by rewrite (alnum_not_plus _ H2).
Qed.

Lemma prefix_head_ne (a b : ascii) (s1 s2 : string) :
  a <> b -> String.prefix (String a s1) (String b s2) = false.
Proof. intros H. cbn [String.prefix]. by destruct (ascii_dec a b). Qed.

Lemma var_not_literal_base (alias rest : string) :
  is_var alias = true ->
  startswith (alias ++ rest) "54272+" = false /\
  String.eqb (alias ++ rest) "54272" = false.
Proof.
  intros Ha. destruct alias as [|c1 t]; [done|].
  assert (H1 : is_alpha c1 = true).
  { destruct t as [|c2 [|]]; simpl in Ha; try done.
    by apply andb_true_iff in Ha as [? _]. }
  split.
  - unfold startswith. change (String c1 t ++ rest) with (String c1 (t ++ rest)).
    apply prefix_head_ne. intros <-. by vm_compute in H1.
  - simpl. by rewrite (alpha_not_five _ H1).
Qed.

Lemma poke_offset_bare_plus (alias : string) base_vars :
  is_var alias = true -> poke_offset (alias ++ "+") base_vars = None.
Proof.
  intros Ha. unfold poke_offset.
  destruct (var_not_literal_base alias "+" Ha) as [-> ->].
  by rewrite BASE_VAR_RE_bare_plus.
Qed.

(** ** The two passes of [main] *)

Lemma fold_pass1 (lines : list string) (st : pass1) :
  first_line_num (fold_left pass1_step lines st)
  = match first_line_num st with
    | Some n => Some n
    | None => first_numbered lines
    end /\
  parsed_lines (fold_left pass1_step lines st)
  = (parsed_lines st ++ map parse_line lines)%list.
Proof.
  revert st. induction lines as [|raw lines IH]; intros st; simpl.
  - split; [by destruct (first_line_num st) | by rewrite app_nil_r].
  - destruct (IH (pass1_step st raw)) as [-> ->].
    unfold pass1_step, parse_line.
    destruct (re_match LINE_NUM_RE raw) as [m|]; simpl.
    + split; [by destruct (first_line_num st) | by rewrite <- List.app_assoc].
    + split; [done | by rewrite <- List.app_assoc].
Qed.

Lemma first_pass_first (lines : list string) :
  first_line_num (first_pass lines) = first_numbered lines.
Proof. apply (fold_pass1 lines (Pass1 ∅ None [])). Qed.

Lemma first_pass_parsed (lines : list string) :
  parsed_lines (first_pass lines) = map parse_line lines.
Proof. apply (fold_pass1 lines (Pass1 ∅ None [])). Qed.

Lemma main_lines (a : args) (lines : list string) :
  main a lines
  = header_line a (first_numbered lines)
      :: map (fun raw => convert_line a (base_vars_of (first_pass lines))
                                      (parse_line raw)) lines.
Proof.
  unfold main. by rewrite first_pass_first, first_pass_parsed, map_map.
Qed.

(** A line without a number comes out at its place, trimmed on the right. *)
Lemma unnumbered_line_output (a : args) (lines : list string) i raw :
  nth_error lines i = Some raw ->
  re_match LINE_NUM_RE raw = None ->
  nth_error (main a lines) (S i) = Some (rstrip raw).
Proof.
  intros Hi Hn. rewrite main_lines. simpl.
  rewrite nth_error_map, Hi. simpl. unfold parse_line. by rewrite Hn.
Qed.

Lemma segments_no_colon (s : string) :
  Forall (fun seg => all_of (fun c => negb (Ascii.eqb c ":")) seg = true) (segments s).
Proof.
  induction s as [|c s IH]; simpl; [by repeat constructor|].
  destruct (Ascii.eqb c ":") eqn:E; [by constructor|].
  pose proof (segments_nonnil s) as Hn.
  destruct (segments s) as [|h t]; [done|].
  inversion IH as [|? ? Hh Ht]; subst. constructor; [|done].
  simpl. by rewrite E, Hh.
Qed.

(** ** Substitution *)

Lemma rep_greedy_total {A} f (g : nat -> A) : forall s p,
  rep_greedy f p s (fun p' _ => Some (g p')) = Some (g (p + span_len f s)%nat).
Proof.
  induction s as [|c s IH]; intros p; simpl.
  - by rewrite Nat.add_0_r.
  - destruct (f c); [|by rewrite Nat.add_0_r].
    by rewrite IH, Nat.add_succ_r.
Qed.

Lemma prefix_of_span f (s : string) : prefix_of f (span_len f s) s = true.
Proof.
  induction s as [|c s IH]; simpl; [done|].
  destruct (f c) eqn:E; simpl; [by rewrite E | done].
Qed.

Lemma squeeze_scan (input : string) : forall s p skip,
  prefix_of is_space skip s = true ->
  sub_scan SPACES_RE (fun _ => EmptyString) input p s skip = remove_spaces s.
Proof.
  induction s as [|c s IH]; intros p skip Hskip; simpl; [done|].
  destruct skip as [|n].
  - unfold match_at. simpl. destruct (is_space c) eqn:Ec.
    + rewrite (rep_greedy_total is_space (fun p' => MatchObj input p p' [])).
      simpl. apply IH.
      replace (S (p + span_len is_space s) - p - 1)%nat
        with (span_len is_space s) by lia.
      apply prefix_of_span.
    + f_equal. by apply IH.
  - simpl in Hskip. apply andb_true_iff in Hskip as [-> Hn]. by apply IH.
Qed.

Lemma squeeze_remove_spaces (s : string) : squeeze s = remove_spaces s.
Proof. by apply squeeze_scan. Qed.

Lemma remove_spaces_clean (s : string) : all_of not_space (remove_spaces s) = true.
Proof.
  induction s as [|c s IH]; simpl; [done|].
  destruct (is_space c) eqn:E; [done|]. simpl. unfold not_space at 1. by rewrite E.
Qed.

Lemma squeeze_clean (s : string) : all_of not_space (squeeze s) = true.
Proof. rewrite squeeze_remove_spaces. apply remove_spaces_clean. Qed.

Lemma all_of_substring f (s : string) : forall a n,
  all_of f s = true -> all_of f (substring a n s) = true.
Proof.
  induction s as [|c s IH]; intros a n H; [by destruct a, n|].
  simpl in H. apply andb_true_iff in H as [Hc Hs].
  destruct a as [|a]; simpl; [|by apply IH].
  destruct n as [|n]; simpl; [done|]. rewrite Hc. by apply IH.
Qed.

Lemma all_of_drop_str f (n : nat) : forall s,
  all_of f s = true -> all_of f (drop_str n s) = true.
Proof.
  induction n as [|n IH]; intros s H; [by destruct s|].
  destruct s as [|c s]; [done|]. simpl in *.
  apply andb_true_iff in H as [_ Hs]. by apply IH.
Qed.

(** The subject of a match object is the string that was matched. *)
Lemma match_at_string r input p s m :
  match_at r input p s = Some m -> m_string m = input.
Proof.
  intros H. apply mt_sound in H as (p' & s' & sp' & _ & [= <-]). done.
Qed.

Lemma all_of_group f r (s : string) m n g :
  re_match r s = Some m -> group m n = Some g ->
  all_of f s = true -> all_of f g = true.
Proof.
  intros Hm Hg Hs. apply match_at_string in Hm. unfold group in Hg.
  rewrite Hm in Hg. destruct n as [|n].
  - injection Hg as <-. by apply all_of_substring.
  - destruct (find_span (S n) (m_spans m)) as [[a b]|]; [|done].
    injection Hg as <-. by apply all_of_substring.
Qed.

Lemma ci_dollar (d : ascii) : ci "$" d = true -> not_dollar d = false.
Proof. intros H. char_cases d. Qed.

(** The call pattern needs a dollar sign. *)
Lemma dollar_in_chr_call (s : string) :
  starts_ci "CHR$(" s = true -> all_of not_dollar s = false.
Proof.
  destruct s as [|a [|b [|c [|d s]]]]; simpl; try done;
    rewrite ?andb_false_r; try done.
  intros H. repeat (apply andb_true_iff in H as [? H]).
  match goal with Hd : ci "$" _ = true |- _ => rewrite (ci_dollar _ Hd) end.
  by rewrite !andb_false_r.
Qed.

Lemma no_chr_call_without_dollar (input : string) p s :
  all_of not_dollar s = true -> match_at CHR_CALL_RE input p s = None.
Proof.
  intros Hs. destruct (match_at CHR_CALL_RE input p s) as [m|] eqn:E; [|done].
  apply mt_sound in E as (p' & s' & sp' & H & _).
  inversion H as [ | | | | | | |? ? ? ? ? p1 s1 sp1 ? ? ? H1 H2| ]; subst.
  apply lit_starts, dollar_in_chr_call in H1. congruence.
Qed.

Lemma chr_scan_without_dollar (input : string) : forall s p,
  all_of not_dollar s = true ->
  sub_scan CHR_CALL_RE chr_repl input p s 0 = s.
Proof.
  induction s as [|c s IH]; intros p H; simpl; [done|].
  rewrite no_chr_call_without_dollar by done.
  simpl in H. apply andb_true_iff in H as [_ H]. by rewrite IH.
Qed.

(** Without a dollar sign the screen mapping changes nothing. *)
Lemma map_chr_without_dollar (s profile : string) :
  all_of not_dollar s = true -> map_chr_calls_to_profile s profile = s.
Proof.
  intros H. unfold map_chr_calls_to_profile.
  destruct (negb _); [done|]. by apply chr_scan_without_dollar.
Qed.

Lemma map_chr_no_profile (s profile : string) :
  profile <> "ansi" -> map_chr_calls_to_profile s profile = s.
Proof.
  intros H. unfold map_chr_calls_to_profile.
  by rewrite (proj2 (String.eqb_neq _ _) H).
Qed.

(** ** Trimming on the right *)

Lemma rstrip_by_app_r f (a t : string) :
  nonempty (rstrip_by f t) = true -> rstrip_by f (a ++ t) = a ++ rstrip_by f t.
Proof.
  intros H. induction a as [|c a IH]; simpl; [done|].
  rewrite IH. destruct (rstrip_by f t); [done|]. by destruct a.
Qed.

Lemma rstrip_by_clean f (t : string) :
  all_of (fun c => negb (f c)) t = true -> rstrip_by f t = t.
Proof.
  induction t as [|c t IH]; simpl; [done|].
  intros [Hc Ht]%andb_true_iff. rewrite (IH Ht).
  destruct t; [|done]. by apply negb_true_iff in Hc as ->.
Qed.

(** A text is kept by [strip] when it starts with a character that is
    no blank and its tail is kept by [rstrip]. *)
Lemma strip_fixed_app (c : ascii) (a t : string) :
  is_space c = false -> rstrip (String c a) = String c a -> rstrip t = t ->
  strip (String c a ++ t) = String c a ++ t.
Proof.
  intros Hc Ha Ht. unfold strip, lstrip. simpl lstrip_by. rewrite Hc.
  destruct t as [|d t]; [by rewrite !app_str_nil_r|].
  change (String c (a ++ String d t)) with (String c a ++ String d t).
  unfold rstrip in *. rewrite rstrip_by_app_r; by rewrite Ht.
Qed.

(** ** The statements [rewrite_poke] emits *)

Lemma poke_offset_clean (x : string) base_vars off :
  all_of not_space x = true -> poke_offset x base_vars = Some off ->
  all_of not_space off = true.
Proof.
  intros Hx. unfold poke_offset.
  destruct (startswith x "54272+").
  { intros [= <-]. exact (all_of_drop_str not_space 6 x Hx). }
  destruct (String.eqb x "54272"); [by intros [= <-]|].
  destruct (re_match BASE_VAR_RE x) as [m|] eqn:Hm; [|done].
  destruct (bool_decide _); [|done].
  destruct (group m 3) as [g|] eqn:Hg; intros [= <-]; [|done].
  by apply (all_of_group _ _ _ _ _ _ Hm Hg).
Qed.

Lemma range_rem_rstrip (v : string) warn off :
  rstrip v = v -> rstrip (v ++ range_rem warn off) = v ++ range_rem warn off.
Proof.
  intros Hv. unfold range_rem.
  destruct warn; [|by rewrite app_str_nil_r].
  destruct (py_int off) as [n|]; [|by rewrite app_str_nil_r].
  destruct ((n <? 0)%Z || (n >? 24)%Z); [|by rewrite app_str_nil_r].
  rewrite <- !app_str_assoc. unfold rstrip. by rewrite rstrip_by_app_r.
Qed.

Lemma rewrite_poke_stripped addr val base_vars warn out_reg out_dat :
  rewrite_poke addr val base_vars warn = Some (out_reg, out_dat) ->
  (exists t, out_reg = "OUT REG," ++ t) /\ (exists t, out_dat = "OUT DAT," ++ t) /\
  strip out_reg = out_reg /\ strip out_dat = out_dat.
Proof.
  intros H. apply rewrite_poke_inv in H as (off & Hoff & -> & ->).
  apply poke_offset_clean in Hoff; [|apply squeeze_clean].
  split; [by eexists|]. split; [by eexists|]. split.
  - apply (strip_fixed_app "O" "UT REG,"); [done | done |].
    by apply rstrip_by_clean.
  - apply (strip_fixed_app "O" "UT DAT,"); [done | done |].
    apply range_rem_rstrip. apply rstrip_by_idem.
Qed.

(** An OUT statement is no FOR, GET or POKE statement. *)
Lemma process_stmt_out base_vars warn scale_for scale_for_vars screen_profile
      map_get_to_inkey (t : string) :
  let s := String "O" (String "U" (String "T" t)) in
  strip s = s ->
  process_stmt base_vars warn scale_for scale_for_vars screen_profile
               map_get_to_inkey s
  = [map_chr_calls_to_profile s screen_profile].
Proof.
  intros s Hs. rewrite process_stmt_other; rewrite Hs; [|done|done].
  unfold poke_rewrite. by rewrite (no_keyword_no_POKE s).
Qed.

(** ** The text of a group *)

Lemma matches_suffix r p s sp p' s' sp' :
  matches r p s sp p' s' sp' ->
  exists w, s = w ++ s' /\ p' = (p + String.length w)%nat.
Proof.
  induction 1 as [ p s sp | s sp | p s sp He | f c p s sp Hc | q f w p s sp Hw
                 | r p s sp p' s' sp' _ IH | r p s sp
                 | r1 r2 p s sp p1 s1 sp1 p2 s2 sp2 _ IH1 _ IH2
                 | n r p s sp p' s' sp' _ IH ];
    try (exists EmptyString; split; [done | simpl; lia]).
  - exists (String c EmptyString). split; [done | simpl; lia].
  - by exists w.
  - done.
  - destruct IH1 as (w1 & -> & ->). destruct IH2 as (w2 & -> & ->).
    exists (w1 ++ w2). rewrite app_str_assoc, app_str_length. split; [done | lia].
  - done.
Qed.

(** Groups are only added. *)
Lemma matches_keeps_groups r p s sp p' s' sp' n :
  matches r p s sp p' s' sp' ->
  is_Some (find_span n sp) -> is_Some (find_span n sp').
Proof.
  induction 1 as [ | | | | | | | | m r p s sp p' s' sp' _ IH ]; auto.
  intros Hn. simpl. destruct (_ =? _)%nat; [by eexists | auto].
Qed.

Lemma sure_groups_closed r p s sp p' s' sp' n :
  matches r p s sp p' s' sp' ->
  In n (sure_groups r) -> is_Some (find_span n sp').
Proof.
  induction 1 as [ | | | | | | | r1 r2 p s sp p1 s1 sp1 p2 s2 sp2 H1 IH1 H2 IH2
                 | m r p s sp p' s' sp' H IH ]; simpl; try done.
  - intros [Hn | Hn]%in_app_iff; [|by apply IH2].
    eapply matches_keeps_groups; [done | by apply IH1].
  - intros [-> | Hn].
    + rewrite Nat.eqb_refl. by eexists.
    + destruct (_ =? _)%nat; [by eexists | by apply IH].
Qed.

(** A group closed during a match lies where its body matched. *)
Lemma group_origin r p s sp p' s' sp' n :
  matches r p s sp p' s' sp' ->
  find_span n sp' = find_span n sp \/
  exists a b rn u sa spa sb spb,
    find_span n sp' = Some (a, b) /\ In rn (groups_of n r) /\
    s = u ++ sa /\ a = (p + String.length u)%nat /\
    matches rn a sa spa b sb spb.
Proof.
  induction 1 as [ | | | | | r p s sp p' s' sp' H IH |
                 | r1 r2 p s sp p1 s1 sp1 p2 s2 sp2 H1 IH1 H2 IH2
                 | m r p s sp p' s' sp' H IH ]; simpl; try by left.
  - done.
  - destruct IH2 as [E2 | (a & b & rn & u & sa & spa & sb & spb & E & Hin & Hs & Ha & Hm)].
    + rewrite E2.
      destruct IH1 as [E1 | (a & b & rn & u & sa & spa & sb & spb & E & Hin & Hs & Ha & Hm)];
        [by left | right].
      exists a, b, rn, u, sa, spa, sb, spb.
      repeat split; try done. apply in_app_iff. by left.
    + right. destruct (matches_suffix _ _ _ _ _ _ _ H1) as (w1 & Hw1 & Hp1).
      exists a, b, rn, (w1 ++ u), sa, spa, sb, spb.
      rewrite app_str_assoc, app_str_length.
      repeat split; try done; [by apply in_app_iff; right | congruence | lia].
  - destruct (Nat.eqb_spec m n) as [-> | Hne].
    + right. exists p, p', r, EmptyString, s, sp, s', sp'.
      repeat split; try done; try (by left); simpl; lia.
    + destruct IH as [E | (a & b & rn & u & sa & spa & sb & spb & E & Hin & Hs & Ha & Hm)];
        [by left | right].
      by exists a, b, rn, u, sa, spa, sb, spb.
Qed.

Lemma substring_full (s : string) : substring 0 (String.length s) s = s.
Proof. induction s as [|c s IH]; simpl; [done | by rewrite IH]. Qed.

Lemma substring_prefix (w rest : string) :
  substring 0 (String.length w) (w ++ rest) = w.
Proof.
  induction w as [|c w IH]; simpl; [by destruct rest | by rewrite IH].
Qed.

Lemma substring_mid (u w rest : string) :
  substring (String.length u) (String.length w) (u ++ w ++ rest) = w.
Proof. induction u as [|c u IH]; simpl; [apply substring_prefix | done]. Qed.

(** The text of a group that every match closes: it is where the body
    of the group matched. *)
Lemma group_text r (input : string) m n :
  re_match r input = Some m -> In (S n) (sure_groups r) ->
  exists rn u w rest spa spb,
    In rn (groups_of (S n) r) /\ input = u ++ w ++ rest /\
    group m (S n) = Some w /\
    matches rn (String.length u) (w ++ rest) spa
            (String.length u + String.length w) rest spb.
Proof.
  intros Hm Hn. apply mt_sound in Hm as (p' & s' & sp' & H & [= <-]).
  destruct (sure_groups_closed _ _ _ _ _ _ _ _ H Hn) as [ab Hab].
  destruct (group_origin _ _ _ _ _ _ _ (S n) H)
    as [E | (a & b & rn & u & sa & spa & sb & spb & E & Hin & -> & -> & Hg)].
  { rewrite Hab in E. done. }
  simpl in Hg. destruct (matches_suffix _ _ _ _ _ _ _ Hg) as (w & -> & ->).
  exists rn, u, w, sb, spa, spb. simpl. repeat split; try done.
  rewrite E. simpl.
  replace (String.length u + String.length w - String.length u)%nat
    with (String.length w) by lia.
  by rewrite substring_mid.
Qed.

Lemma app_str_inv_length (a b r r' : string) :
  a ++ r = b ++ r' -> String.length a = String.length b -> a = b /\ r = r'.
Proof.
  revert b. induction a as [|c a IH]; intros [|d b]; simpl; try done.
  intros [= -> H] [= Hl]. destruct (IH _ H Hl) as [-> ->]. done.
Qed.

Lemma var_name_text a (w rest : string) spa spb :
  matches VAR_NAME a (w ++ rest) spa (a + String.length w) rest spb ->
  is_var w = true.
Proof.
  intros H. unfold VAR_NAME, seq in H. simpl in H. inv_matches.
  - destruct w as [|x [|y [|z w]]]; simpl in *; try lia.
    simplify_eq. by apply andb_true_iff.
  - destruct w as [|x [|y w]]; simpl in *; try lia.
    by simplify_eq.
Qed.

Lemma digits_text a (w rest : string) spa spb :
  matches (plus is_digit) a (w ++ rest) spa (a + String.length w) rest spb ->
  all_of is_digit w = true /\ w <> EmptyString.
Proof.
  intros H. unfold plus in H. inv_matches.
  destruct w as [|x w]; simpl in *; [lia|].
  split; [|done]. simplify_eq.
  match goal with E : _ ++ _ = _ ++ _ |- _ =>
    apply app_str_inv_length in E as [-> _]; [|lia] end.
  by apply andb_true_iff.
Qed.

(** ** Decimal numerals *)

Lemma digit_not_underscore (c : ascii) : is_digit c = true -> Ascii.eqb c "_" = false.
Proof. intros H. char_cases c. Qed.

Lemma digit_not_sign (c : ascii) :
  is_digit c = true -> Ascii.eqb c "-" = false /\ Ascii.eqb c "+" = false.
Proof. intros H. char_cases c; by split. Qed.

Lemma digit_not_int_space (c : ascii) : is_digit c = true -> is_int_space c = false.
Proof. intros H. char_cases c. Qed.

Lemma digit_uint_of_char (c : ascii) (d : Decimal.uint) :
  is_digit c = true -> exists d', uint_of_char c (Some d) = Some d'.
Proof.
  intros H.
  destruct c as [[|] [|] [|] [|] [|] [|] [|] [|]]; vm_compute in H;
    try discriminate; eexists; reflexivity.
Qed.

Lemma all_of_impl (f g : ascii -> bool) (w : string) :
  (forall c, f c = true -> g c = true) -> all_of f w = true -> all_of g w = true.
Proof.
  intros Hfg. induction w as [|c w IH]; simpl; [done|].
  intros [Hc Hw]%andb_true_iff. by rewrite (Hfg _ Hc), IH.
Qed.

Lemma digits_uint (w : string) :
  all_of is_digit w = true -> exists d, NilEmpty.uint_of_string w = Some d.
Proof.
  induction w as [|c w IH]; simpl; [by eexists|].
  intros [Hc Hw]%andb_true_iff. destruct (IH Hw) as [d ->].
  by apply digit_uint_of_char.
Qed.

Lemma digits_ok_digits (w : string) (b : bool) :
  all_of is_digit w = true -> digits_ok b w = b || nonempty w.
Proof.
  revert b. induction w as [|c w IH]; intros b; simpl; [by rewrite orb_false_r|].
  intros [Hc Hw]%andb_true_iff. rewrite Hc, (IH true Hw). by rewrite orb_true_r.
Qed.

Lemma drop_underscores_digits (w : string) :
  all_of is_digit w = true -> drop_underscores w = w.
Proof.
  induction w as [|c w IH]; simpl; [done|].
  intros [Hc Hw]%andb_true_iff.
  by rewrite (digit_not_underscore _ Hc), (IH Hw).
Qed.

Lemma py_int_unsigned (w : string) :
  all_of is_digit w = true -> w <> EmptyString ->
  py_int w = int_of_digits w.
Proof.
  intros Hw Hne. unfold py_int.
  destruct w as [|c w]; [done|]. pose proof Hw as Hw'.
  simpl in Hw. apply andb_true_iff in Hw as [Hc _].
  rewrite lstrip_by_fixed by by apply digit_not_int_space.
  rewrite rstrip_by_clean.
  - by destruct (digit_not_sign _ Hc) as [-> ->].
  - apply (all_of_impl is_digit); [|done].
    intros x Hx. by rewrite (digit_not_int_space _ Hx).
Qed.

(** [int] reads a run of digits as a number that is not negative. *)
Lemma py_int_digits (w : string) :
  all_of is_digit w = true -> w <> EmptyString ->
  exists b, py_int w = Some b /\ (0 <= b)%Z.
Proof.
  intros Hw Hne. rewrite py_int_unsigned by done. unfold int_of_digits.
  rewrite digits_ok_digits, drop_underscores_digits by done.
  rewrite (proj2 (nonempty_true _) Hne). simpl.
  destruct (digits_uint _ Hw) as [d ->].
  eexists. split; [done|]. unfold Z.of_uint. apply N2Z.is_nonneg.
Qed.

Lemma string_of_uint_digits (d : Decimal.uint) :
  all_of is_digit (NilEmpty.string_of_uint d) = true.
Proof. induction d; simpl; done. Qed.

Lemma str_of_int_nonneg (n : Z) :
  (0 <= n)%Z ->
  exists d, d <> Decimal.Nil /\ str_of_int n = NilEmpty.string_of_uint d /\
            Z.of_uint d = n.
Proof.
  intros Hn. destruct n as [|p|p]; [| |lia].
  - by exists (Decimal.D0 Decimal.Nil).
  - exists (Pos.to_uint p).
    pose proof (DecimalPos.Unsigned.to_uint_nonnil p) as Hd.
    split; [done|]. split.
    + unfold str_of_int. simpl. by destruct (Pos.to_uint p).
    + unfold Z.of_uint. by rewrite DecimalPos.Unsigned.of_to.
Qed.

(** The rendering of a number that is not negative is a run of digits
    that [int] reads back. *)
Lemma str_of_int_digits (n : Z) :
  (0 <= n)%Z ->
  all_of is_digit (str_of_int n) = true /\ str_of_int n <> EmptyString /\
  py_int (str_of_int n) = Some n.
Proof.
  intros Hn. destruct (str_of_int_nonneg n Hn) as (d & Hd & -> & <-).
  assert (Hne : NilEmpty.string_of_uint d <> EmptyString) by by destruct d.
  pose proof (string_of_uint_digits d) as Hdig.
  split; [done|]. split; [done|].
  rewrite py_int_unsigned by done. unfold int_of_digits.
  rewrite digits_ok_digits, drop_underscores_digits by done.
  rewrite (proj2 (nonempty_true _) Hne). simpl. by rewrite NilEmpty.usu.
Qed.

(** ** The FOR pattern *)

Lemma rep_greedy_all {A} f (k : nat -> string -> option A) x : forall w p,
  all_of f w = true -> k (p + String.length w)%nat EmptyString = Some x ->
  rep_greedy f p w k = Some x.
Proof.
  induction w as [|c w IH]; intros p Hw Hk; simpl in *.
  - by rewrite Nat.add_0_r in Hk.
  - apply andb_true_iff in Hw as [-> Hw].
    rewrite (IH (S p)); [done | done |]. by rewrite Nat.add_succ_r in Hk.
Qed.

(** The statement the first loop writes is matched by the FOR pattern,
    with the groups it was written from. *)
Lemma FOR_RE_canonical (v ds : string) :
  is_var v = true -> all_of is_digit ds = true -> ds <> EmptyString ->
  exists m,
    re_match FOR_RE ("FOR " ++ v ++ "=1 TO " ++ ds) = Some m /\
    group_str m 1 = v /\ group_str m 2 = ds.
Proof.
  intros Hv Hds Hne. destruct ds as [|d ds]; [done|].
  simpl in Hds. apply andb_true_iff in Hds as [Hd Hds].
  pose proof (digit_not_space _ Hd) as Hdsp.
  destruct v as [|c1 [|c2 [|]]]; simpl in Hv; try done.
  - pose proof (alpha_not_space _ Hv) as Hsp.
    eexists. unfold re_match, match_at. simpl. rewrite Hsp, Hv. simpl.
    rewrite Hdsp, Hd. split.
    + erewrite rep_greedy_all; [reflexivity | done | reflexivity].
    + unfold group_str. simpl.
      replace (12 + String.length ds - 11)%nat with (S (String.length ds)) by lia.
      simpl. by rewrite substring_full.
  - apply andb_true_iff in Hv as [H1 H2].
    pose proof (alpha_not_space _ H1) as Hsp.
    eexists. unfold re_match, match_at. simpl. rewrite Hsp, H1, H2. simpl.
    rewrite Hdsp, Hd. split.
    + erewrite rep_greedy_all; [reflexivity | done | reflexivity].
    + unfold group_str. simpl.
      replace (13 + String.length ds - 12)%nat with (S (String.length ds)) by lia.
      simpl. by rewrite substring_full.
Qed.

(** The groups of a FOR match: a variable name and a run of digits. *)
Lemma FOR_RE_groups (s : string) fm :
  re_match FOR_RE s = Some fm ->
  is_var (group_str fm 1) = true /\
  all_of is_digit (group_str fm 2) = true /\ group_str fm 2 <> EmptyString.
Proof.
  intros Hm.
  destruct (group_text FOR_RE s fm 0 Hm)
    as (r1 & u1 & w1 & rest1 & spa1 & spb1 & Hr1 & _ & Hg1 & H1).
  { simpl. tauto. }
  destruct (group_text FOR_RE s fm 1 Hm)
    as (r2 & u2 & w2 & rest2 & spa2 & spb2 & Hr2 & _ & Hg2 & H2).
  { simpl. tauto. }
  unfold group_str. rewrite Hg1, Hg2.
  simpl in Hr1, Hr2. destruct Hr1 as [<- | []]. destruct Hr2 as [<- | []].
  split; [by eapply var_name_text | by eapply digits_text].
Qed.

Lemma scaling_on_spec (f : Z) : scaling_on (Some f) = (1 <? f)%Z.
Proof. unfold scaling_on. destruct (Z.eqb_spec f 0), (Z.ltb_spec 1 f); simpl; lia. Qed.

(** ** The alias set *)

Lemma scan_assigns_keeps (stmts : list string) (bv : gset string) (x : string) :
  x ∈ bv -> x ∈ scan_assigns stmts bv.
Proof.
  unfold scan_assigns. revert bv.
  induction stmts as [|s stmts IH]; intros bv Hx; simpl; [done|].
  apply IH. destruct (re_match ASSIGN_BASE_RE s); set_solver.
Qed.

Lemma scan_assigns_finds (stmts : list string) (bv : gset string) stmt am :
  In stmt stmts -> re_match ASSIGN_BASE_RE stmt = Some am ->
  upper (group_str am 1) ∈ scan_assigns stmts bv.
Proof.
  revert bv. induction stmts as [|s stmts IH]; intros bv; [done|].
  intros [-> | Hin] Ham.
  - unfold scan_assigns. simpl. rewrite Ham.
    apply (scan_assigns_keeps stmts). set_solver.
  - unfold scan_assigns. simpl. by apply IH.
Qed.

Lemma fold_pass1_keeps (lines : list string) (st : pass1) (x : string) :
  x ∈ base_vars_of st -> x ∈ base_vars_of (fold_left pass1_step lines st).
Proof.
  revert st. induction lines as [|raw lines IH]; intros st Hx; simpl; [done|].
  apply IH. unfold pass1_step.
  destruct (re_match LINE_NUM_RE raw); simpl; [|done].
  by apply scan_assigns_keeps.
Qed.

(** An assignment of the base address on any numbered line puts its
    variable into the alias set the second pass works with. *)
Lemma first_pass_finds (lines : list string) raw m stmt am :
  In raw lines -> re_match LINE_NUM_RE raw = Some m ->
  In stmt (split_colon_statements (strip (group_str m 2))) ->
  re_match ASSIGN_BASE_RE stmt = Some am ->
  upper (group_str am 1) ∈ base_vars_of (first_pass lines).
Proof.
  unfold first_pass. generalize (Pass1 ∅ None []).
  induction lines as [|l lines IH]; intros st; [done|].
  intros [-> | Hin] Hm Hs Ham; simpl.
  - apply fold_pass1_keeps. unfold pass1_step. rewrite Hm. simpl.
    by eapply scan_assigns_finds.
  - by apply IH.
Qed.

(** ** The alias pattern *)

Lemma not_space_dot (c : ascii) : not_space c = true -> is_dot c = true.
Proof. intros H. char_cases c. Qed.

Lemma BASE_VAR_RE_offset (alias off : string) :
  is_var alias = true -> all_of is_dot off = true -> off <> EmptyString ->
  exists m,
    re_match BASE_VAR_RE (alias ++ "+" ++ off) = Some m /\
    group_str m 1 = alias /\ group m 3 = Some off.
Proof.
  intros Ha Hoff Hne. destruct off as [|d off]; [done|].
  simpl in Hoff. apply andb_true_iff in Hoff as [Hd Hoff].
  destruct alias as [|c1 [|c2 [|]]]; simpl in Ha; try done.
  - eexists. unfold re_match, match_at. simpl. rewrite Ha. simpl. rewrite Hd.
    split; [erewrite rep_greedy_all; [reflexivity | done | reflexivity]|].
    unfold group_str. simpl.
    replace (3 + String.length off - 2)%nat with (S (String.length off)) by lia.
    simpl. by rewrite substring_full.
  - apply andb_true_iff in Ha as [H1 H2].
    eexists. unfold re_match, match_at. simpl. rewrite H1, H2. simpl. rewrite Hd.
    split; [erewrite rep_greedy_all; [reflexivity | done | reflexivity]|].
    unfold group_str. simpl.
    replace (4 + String.length off - 3)%nat with (S (String.length off)) by lia.
    simpl. by rewrite substring_full.
Qed.

Lemma BASE_VAR_RE_plain (alias : string) :
  is_var alias = true ->
  exists m,
    re_match BASE_VAR_RE alias = Some m /\
    group_str m 1 = alias /\ group m 3 = None.
Proof.
  intros Ha. destruct alias as [|c1 [|c2 [|]]]; simpl in Ha; try done.
  - eexists. unfold re_match, match_at. simpl. rewrite Ha. simpl. done.
  - apply andb_true_iff in Ha as [H1 H2].
    eexists. unfold re_match, match_at. simpl. rewrite H1, H2. simpl. done.
Qed.

(** A known alias, alone or followed by a plus sign and an offset, is
    taken for the base. *)
Lemma poke_offset_alias (alias off : string) (base_vars : gset string) :
  is_var alias = true -> upper alias ∈ base_vars ->
  poke_offset alias base_vars = Some "0" /\
  (all_of not_space off = true -> off <> EmptyString ->
   poke_offset (alias ++ "+" ++ off) base_vars = Some off).
Proof.
  intros Ha Hin. split.
  - unfold poke_offset.
    destruct (var_not_literal_base alias EmptyString Ha) as [H1 H2].
    rewrite app_str_nil_r in H1, H2. rewrite H1, H2.
    destruct (BASE_VAR_RE_plain alias Ha) as (m & -> & Hg1 & ->).
    by rewrite Hg1, bool_decide_eq_true_2.
  - intros Hoff Hne. unfold poke_offset.
    destruct (var_not_literal_base alias ("+" ++ off) Ha) as [-> ->].
    destruct (BASE_VAR_RE_offset alias off Ha) as (m & -> & Hg1 & ->); [|done|].
    + apply (all_of_impl not_space); [apply not_space_dot | done].
    + by rewrite Hg1, bool_decide_eq_true_2.
Qed.

(** ** The characters a match can contain *)

Lemma in_all_chars (c : ascii) : In c all_chars.
Proof.
  unfold all_chars. rewrite <- (ascii_nat_embedding c).
  apply in_map, in_seq. pose proof (nat_ascii_bounded c). lia.
Qed.

Lemma class_le_spec (f g : ascii -> bool) :
  class_le f g = true -> forall c, f c = true -> g c = true.
Proof.
  intros H c Hc. unfold class_le in H.
  rewrite forallb_forall in H. specialize (H c (in_all_chars c)).
  by rewrite Hc in H.
Qed.

(** What a pattern takes is made of characters of its classes. *)
Lemma matches_classes (g : ascii -> bool) r p s sp p' s' sp' :
  matches r p s sp p' s' sp' ->
  forallb (fun f => class_le f g) (classes_of r) = true ->
  exists w, s = w ++ s' /\ all_of g w = true.
Proof.
  induction 1 as [ p s sp | s sp | p s sp He | f c p s sp Hc | q f w p s sp Hw
                 | r p s sp p' s' sp' _ IH | r p s sp
                 | r1 r2 p s sp p1 s1 sp1 p2 s2 sp2 _ IH1 _ IH2
                 | n r p s sp p' s' sp' _ IH ]; simpl; intros Hcl;
    try (by exists EmptyString).
  - rewrite andb_true_r in Hcl. exists (String c EmptyString). split; [done|].
    simpl. by rewrite (class_le_spec _ _ Hcl c Hc).
  - rewrite andb_true_r in Hcl. exists w. split; [done|].
    apply (all_of_impl f); [by apply class_le_spec | done].
  - by apply IH.
  - rewrite forallb_app in Hcl. apply andb_true_iff in Hcl as [H1 H2].
    destruct (IH1 H1) as (w1 & -> & Hw1). destruct (IH2 H2) as (w2 & -> & Hw2).
    exists (w1 ++ w2). rewrite app_str_assoc, all_of_app, Hw1, Hw2. done.
  - by apply IH.
Qed.

Lemma at_end_plain (s : string) : at_end s = true -> all_of plain_char s = true.
Proof.
  destruct s as [|c [|d s]]; simpl; try done.
  intros H. rewrite andb_true_r. char_cases c.
Qed.

(** After a pattern that ends with [$] only a final line feed is left. *)
Lemma matches_eos r p s sp p' s' sp' :
  matches r p s sp p' s' sp' -> ends_with_eos r = true -> at_end s' = true.
Proof.
  induction 1 as [ | | | | | |
                 | r1 r2 p s sp p1 s1 sp1 p2 s2 sp2 H1 IH1 H2 IH2 | ];
    simpl; try done.
  destruct r2; try done. inversion H2; subst. done.
Qed.

(** A base assignment holds neither a dollar sign nor a colon. *)
Lemma assign_plain (s : string) am :
  re_match ASSIGN_BASE_RE s = Some am -> all_of plain_char s = true.
Proof.
  intros H. apply mt_sound in H as (p' & s' & sp' & H & _).
  destruct (matches_classes plain_char _ _ _ _ _ _ _ H) as (w & -> & Hw);
    [by vm_compute|].
  rewrite all_of_app, Hw. simpl. apply at_end_plain.
  by apply (matches_eos _ _ _ _ _ _ _ H).
Qed.

Lemma plain_no_dollar (s : string) : all_of plain_char s = true -> all_of not_dollar s = true.
Proof.
  apply all_of_impl. intros c. unfold plain_char. by intros [? _]%andb_true_iff.
Qed.

Lemma plain_no_colon (s : string) : all_of plain_char s = true -> all_of not_colon s = true.
Proof.
  apply all_of_impl. intros c. unfold plain_char. by intros [_ ?]%andb_true_iff.
Qed.

(** ** A base assignment is no FOR, GET or POKE statement *)

Lemma ci_equals_not_alpha (e : ascii) : ci "=" e = true -> is_alpha e = false.
Proof. intros H. char_cases e. Qed.

Lemma starts_ci_breaks (k : ascii) (kw t : string) :
  is_alpha k = true -> breaks t -> starts_ci (String k kw) t = false.
Proof.
  intros Hk (w & e & rest & -> & Hw & He).
  destruct w as [|b w]; simpl.
  - destruct (ci k e) eqn:E; [|done].
    apply (ci_alpha k) in E; [|done].
    by rewrite (ci_equals_not_alpha _ He) in E.
  - simpl in Hw. apply andb_true_iff in Hw as [Hb _].
    destruct (ci k b) eqn:E; [|done].
    apply (ci_letter_not_space k) in E; [congruence | done].
Qed.

(** A name of one or two characters followed by blanks and an equals
    sign is no keyword of three letters or more. *)
Lemma keyword_breaks (k1 k2 k3 : ascii) (kw w0 : string) (c1 : ascii) (t : string) :
  is_alpha k2 = true -> is_alpha k3 = true ->
  all_of is_space w0 = true -> is_alpha c1 = true -> breaks t ->
  keyword (String k1 (String k2 (String k3 kw))) (w0 ++ String c1 t) = false /\
  forall c2,
    keyword (String k1 (String k2 (String k3 kw))) (w0 ++ String c1 (String c2 t))
    = false.
Proof.
  intros H2 H3 Hw Hc Ht. unfold keyword.
  pose proof (alpha_not_space _ Hc) as Hsp. split.
  - rewrite lstrip_blanks_then by done.
    change (ci k1 c1 && starts_ci (String k2 (String k3 kw)) t = false).
    by rewrite starts_ci_breaks, andb_false_r.
  - intros c2. rewrite lstrip_blanks_then by done.
    change (ci k1 c1 && (ci k2 c2 && starts_ci (String k3 kw) t) = false).
    by rewrite starts_ci_breaks, !andb_false_r.
Qed.

Lemma breaks_intro (w t : string) :
  all_of is_space w = true -> starts_ci "=" t = true -> breaks (w ++ t).
Proof.
  intros Hw Ht. destruct t as [|e rest]; [done|].
  simpl in Ht. rewrite andb_true_r in Ht. by exists w, e, rest.
Qed.

Lemma keyword_after_blanks (k : ascii) (kw w t : string) :
  is_alpha k = true -> all_of is_space w = true ->
  starts_ci (String k kw) t = true -> keyword (String k kw) (w ++ t) = true.
Proof.
  intros Hk Hw Ht. unfold keyword. destruct t as [|c t]; [done|].
  rewrite lstrip_blanks_then; [done | done |].
  simpl in Ht. apply andb_true_iff in Ht as [Hc _].
  by apply (ci_letter_not_space k).
Qed.

Lemma assign_no_keyword (k1 k2 k3 : ascii) (kw s : string) am :
  is_alpha k2 = true -> is_alpha k3 = true ->
  lower_char "L" <> lower_char k1 ->
  re_match ASSIGN_BASE_RE s = Some am ->
  keyword (String k1 (String k2 (String k3 kw))) s = false.
Proof.
  intros H2 H3 HL H. apply mt_sound in H as (p' & s' & sp' & H & _).
  unfold ASSIGN_BASE_RE, VAR_NAME, seq, star in H. simpl in H. inv_matches.
  all: try match goal with
    | HLET : matches (lit "LET") _ _ _ _ _ _ |- _ =>
        apply lit_starts in HLET;
        apply (keyword_exclusive "L" k1 "ET"); [done|];
        by apply keyword_after_blanks
    end.
  all: match goal with
    | HEQ : matches (lit "=") _ _ _ _ _ _ |- _ => apply lit_starts in HEQ
    end.
  - by apply keyword_breaks; try apply breaks_intro.
  - by apply keyword_breaks; try apply breaks_intro.
Qed.

(** A statement that assigns the base address goes through both loops
    unchanged. *)
Lemma process_stmt_assign base_vars warn scale_for scale_for_vars screen_profile
      map_get_to_inkey (stmt : string) am :
  strip stmt = stmt -> re_match ASSIGN_BASE_RE stmt = Some am ->
  process_stmt base_vars warn scale_for scale_for_vars screen_profile
               map_get_to_inkey stmt = [stmt].
Proof.
  intros Hs Ham.
  rewrite process_stmt_other; rewrite Hs;
    [| by apply (assign_no_keyword "F" "O" "R" "" _ am)
     | by apply (assign_no_keyword "G" "E" "T" "" _ am) ].
  unfold poke_rewrite.
  rewrite no_keyword_no_POKE by by apply (assign_no_keyword "P" "O" "K" "E" _ am).
  by rewrite map_chr_without_dollar by by eapply plain_no_dollar, assign_plain.
Qed.

(** ** Splitting a rewritten body again *)

Lemma segments_app_colon (a b : string) :
  segments (a ++ String ":" b) = (segments a ++ segments b)%list.
Proof.
  induction a as [|c a IH]; simpl; [done|].
  destruct (Ascii.eqb c ":"); rewrite IH; [done|].
  pose proof (segments_nonnil a). by destruct (segments a).
Qed.

Lemma segments_join (l : list string) :
  l <> [] -> segments (join ":" l) = flat_map segments l.
Proof.
  induction l as [|x l IH]; [done|]. intros _.
  destruct l as [|y l]; [simpl; by rewrite app_nil_r|].
  rewrite join_cons by done.
  change (x ++ ":" ++ join ":" (y :: l)) with (x ++ String ":" (join ":" (y :: l))).
  rewrite segments_app_colon, IH by done. done.
Qed.

Lemma segments_no_colon_one (s : string) :
  all_of not_colon s = true -> segments s = [s].
Proof.
  induction s as [|c s IH]; simpl; [done|].
  intros [Hc Hs]%andb_true_iff. unfold not_colon in Hc.
  apply negb_true_iff in Hc. by rewrite Hc, IH.
Qed.

Lemma in_removelast_or_last {A} (x d : A) (l : list A) :
  In x l -> In x (removelast l) \/ x = List.last l d.
Proof.
  intros H. destruct l as [|y l]; [done|].
  rewrite <- (removelast_last (y :: l) d) in H by done.
  apply in_app_iff in H as [H | [<- | []]]; auto.
Qed.

(** A trimmed, non-empty statement without a colon is found again when
    the rewritten body is split. *)
Lemma split_join_finds (l : list string) (stmt : string) :
  In stmt l -> all_of not_colon stmt = true -> strip stmt = stmt ->
  stmt <> EmptyString ->
  In stmt (split_colon_statements (join ":" l)).
Proof.
  intros Hin Hc Hs Hne.
  assert (Hl : l <> []) by by destruct l.
  assert (Hseg : In stmt (segments (join ":" l))).
  { rewrite segments_join by done. apply in_flat_map. exists stmt.
    split; [done|]. rewrite segments_no_colon_one by done. by left. }
  rewrite split_colon_statements_spec. apply in_app_iff.
  destruct (in_removelast_or_last _ EmptyString _ Hseg) as [H | <-].
  - left. rewrite <- Hs. by apply in_map.
  - right. rewrite Hs, (proj2 (nonempty_true _) Hne). by left.
Qed.

Lemma join_app_cons (sep : string) (l1 : list string) (x : string) (l2 : list string) :
  exists pre post, join sep (l1 ++ x :: l2)%list = pre ++ x ++ post.
Proof.
  induction l1 as [|y l1 (pre & post & IH)].
  - exists EmptyString. destruct l2 as [|z l2].
    + exists EmptyString. simpl. by rewrite app_str_nil_r.
    + exists (sep ++ join sep (z :: l2)).
      change ([] ++ x :: z :: l2)%list with (x :: z :: l2).
      by rewrite join_cons.
  - exists (y ++ sep ++ pre), post.
    change ((y :: l1) ++ x :: l2)%list with (y :: (l1 ++ x :: l2))%list.
    rewrite join_cons by by destruct l1. rewrite IH.
    by rewrite !app_str_assoc.
Qed.

Lemma lstrip_by_empty f (s : string) :
  lstrip_by f s = EmptyString -> all_of f s = true.
Proof.
  induction s as [|c s IH]; simpl; [done|].
  destruct (f c); [done | done].
Qed.

(** A text with a character that is no blank is not trimmed away. *)
Lemma strip_not_blank (s : string) :
  all_of is_space s = false -> nonempty (strip s) = true.
Proof.
  intros H. unfold strip, lstrip, rstrip.
  destruct (lstrip_by_head is_space s) as [E | (c & t & E & Hc)].
  - apply lstrip_by_empty in E. congruence.
  - rewrite E. by destruct (rstrip_by_cons is_space c t Hc) as [u ->].
Qed.

Lemma join_not_blank (l1 : list string) (x : string) (l2 : list string) :
  all_of is_space x = false ->
  nonempty (strip (join ":" (l1 ++ x :: l2)%list)) = true.
Proof.
  intros Hx. apply strip_not_blank.
  destruct (join_app_cons ":" l1 x l2) as (pre & post & ->).
  by rewrite !all_of_app, Hx, andb_false_r.
Qed.

(** The post-step turns a base assignment found in the rewritten body
    into [<V>=0]. *)
Lemma zero_base_assigns_hit (base_vars : gset string) (new_body stmt : string) am :
  In stmt (split_colon_statements new_body) ->
  re_match ASSIGN_BASE_RE stmt = Some am ->
  upper (group_str am 1) ∈ base_vars ->
  exists A B,
    zero_base_assigns base_vars new_body
    = join ":" (A ++ (upper (group_str am 1) ++ "=0")%string :: B)%list.
Proof.
  intros Hin Ham HV. apply in_split in Hin as (l1 & l2 & Hl).
  assert (Hfix : fix_assign base_vars stmt = (upper (group_str am 1) ++ "=0", true)).
  { unfold fix_assign. by rewrite Ham, bool_decide_eq_true_2. }
  exists (map fst (map (fix_assign base_vars) l1)),
         (map fst (map (fix_assign base_vars) l2)).
  unfold zero_base_assigns. rewrite Hl, map_app. simpl map.
  rewrite existsb_app. simpl existsb. rewrite Hfix. simpl snd.
  rewrite orb_true_r. by rewrite map_app.
Qed.

(** ** Names and their upper case *)

Lemma upper_char_alpha (c : ascii) : is_alpha (upper_char c) = is_alpha c.
Proof. char_cases c. Qed.

Lemma upper_char_alnum (c : ascii) : is_alnum (upper_char c) = is_alnum c.
Proof. char_cases c. Qed.

Lemma upper_var (v : string) : is_var (upper v) = is_var v.
Proof.
  destruct v as [|c1 [|c2 [|c3 v]]]; simpl; try done.
  - apply upper_char_alpha.
  - by rewrite upper_char_alpha, upper_char_alnum.
Qed.

(** The variable of a base assignment is a name. *)
Lemma ASSIGN_BASE_RE_var (s : string) am :
  re_match ASSIGN_BASE_RE s = Some am -> is_var (group_str am 1) = true.
Proof.
  intros Hm.
  destruct (group_text ASSIGN_BASE_RE s am 0 Hm)
    as (r1 & u1 & w1 & rest1 & spa1 & spb1 & Hr1 & _ & Hg1 & H1).
  { simpl. tauto. }
  unfold group_str. rewrite Hg1.
  simpl in Hr1. destruct Hr1 as [<- | []]. by eapply var_name_text.
Qed.

(** ** Numbered lines *)

Lemma lstrip_by_split f (s : string) :
  exists w, s = w ++ lstrip_by f s /\ all_of f w = true.
Proof.
  induction s as [|c s (w & IH & Hw)]; simpl; [by exists EmptyString|].
  destruct (f c) eqn:E; [|by exists EmptyString].
  exists (String c w). simpl. by rewrite E, Hw, <- IH.
Qed.

Lemma numbered_line_digit (raw : string) m :
  re_match LINE_NUM_RE raw = Some m ->
  exists c t, lstrip raw = String c t /\ is_digit c = true.
Proof.
  intros H. apply mt_sound in H as (p' & s' & sp' & H & _).
  unfold LINE_NUM_RE, seq, star, plus in H. simpl in H. inv_matches.
  eexists _, _. split; [|done].
  apply lstrip_blanks_then; [done | by apply digit_not_space].
Qed.

Lemma LINE_NUM_RE_matches (w : string) (c : ascii) (t : string) :
  all_of is_space w = true -> is_digit c = true -> all_of is_dot t = true ->
  exists p' sp', matches LINE_NUM_RE 0 (w ++ String c t) [] p' EmptyString sp'.
Proof.
  intros Hw Hc Ht. eexists _, _.
  unfold LINE_NUM_RE, seq, star, plus. simpl.
  eapply M_Cat; [apply M_Bos|].
  eapply M_Cat; [by apply (M_Rep Greedy is_space w)|].
  eapply M_Cat.
  { apply M_Grp. eapply M_Cat; [by apply M_Chr|].
    by apply (M_Rep Greedy is_digit EmptyString). }
  eapply M_Cat; [by apply (M_Rep Greedy is_space EmptyString)|].
  eapply M_Cat.
  { apply M_Grp. rewrite <- (app_str_nil_r t) at 1.
    by apply (M_Rep Greedy is_dot t). }
  eapply M_Cat; [by apply M_Eos | apply M_Nil].
Qed.

(** A line without a line feed is numbered when, and only when, its
    first character after the blanks is a digit. *)
Lemma numbered_iff_digit (raw : string) :
  all_of is_dot raw = true ->
  is_Some (re_match LINE_NUM_RE raw) <->
  exists c t, lstrip raw = String c t /\ is_digit c = true.
Proof.
  intros Hdot. split.
  - intros [m Hm]. by eapply numbered_line_digit.
  - intros (c & t & Hl & Hc).
    destruct (lstrip_by_split is_space raw) as (w & Hraw & Hw).
    fold (lstrip raw) in Hraw. rewrite Hl in Hraw.
    rewrite Hraw, all_of_app in Hdot. simpl in Hdot.
    apply andb_true_iff in Hdot as [_ [_ Ht]%andb_true_iff].
    destruct (LINE_NUM_RE_matches w c t Hw Hc Ht) as (p' & sp' & Hm).
    destruct (re_match LINE_NUM_RE raw) as [m|] eqn:E; [by eexists|].
    rewrite Hraw in E. by apply (mt_complete _ _ _ _ _ _ _ Hm) in E.
Qed.

(** ** Greedy repetition on a known text *)

(** A greedy repetition that can take [w] and no more, and after which
    the rest of the pattern succeeds, stops there. *)
Lemma rep_greedy_max {A} f (k : nat -> string -> option A) x : forall w p s,
  all_of f w = true -> head_not f s = true ->
  k (p + String.length w)%nat s = Some x ->
  rep_greedy f p (w ++ s) k = Some x.
Proof.
  induction w as [|c w IH]; intros p s Hw Hs Hk; simpl in *.
  - rewrite Nat.add_0_r in Hk. destruct s as [|d s]; simpl; [done|].
    simpl in Hs. apply negb_true_iff in Hs. by rewrite Hs.
  - apply andb_true_iff in Hw as [-> Hw].
    rewrite (IH (S p) s); [done | done | done |].
    by rewrite Nat.add_succ_r in Hk.
Qed.

Lemma lstrip_by_head_not f (s : string) : head_not f (lstrip_by f s) = true.
Proof.
  destruct (lstrip_by_head f s) as [-> | (c & t & -> & Hc)]; simpl; [done|].
  by rewrite Hc.
Qed.

Lemma lstrip_by_idem f (s : string) : lstrip_by f (lstrip_by f s) = lstrip_by f s.
Proof.
  destruct (lstrip_by_head f s) as [-> | (c & t & -> & Hc)]; [done|].
  by apply lstrip_by_fixed.
Qed.

Lemma strip_lstrip (s : string) : strip (lstrip s) = strip s.
Proof. unfold strip, lstrip. by rewrite lstrip_by_idem. Qed.

Lemma substring_at (u r : string) (n k : nat) :
  n = String.length u -> k = String.length r -> substring n k (u ++ r) = r.
Proof.
  intros -> ->. rewrite <- (app_str_nil_r r) at 2. apply substring_mid.
Qed.

(** The line pattern on blanks, digits and a rest: the first group is
    the whole run of digits, the second the rest without its leading
    blanks. *)
Lemma LINE_NUM_RE_parse (w ds rest : string) :
  all_of is_space w = true -> all_of is_digit ds = true -> ds <> EmptyString ->
  head_not is_digit rest = true -> all_of is_dot rest = true ->
  exists m,
    re_match LINE_NUM_RE (w ++ ds ++ rest) = Some m /\
    group_str m 1 = ds /\ group_str m 2 = lstrip rest.
Proof.
  intros Hw Hds Hne Hrest Hdot. destruct ds as [|d ds]; [done|].
  simpl in Hds. apply andb_true_iff in Hds as [Hd Hds].
  destruct (lstrip_by_split is_space rest) as (w1 & Hsplit & Hw1).
  fold (lstrip rest) in Hsplit.
  assert (Hdot' : all_of is_dot (lstrip rest) = true).
  { rewrite Hsplit, all_of_app in Hdot. by apply andb_true_iff in Hdot as [_ ?]. }
  pose proof (lstrip_by_head_not is_space rest) as Hhead. fold (lstrip rest) in Hhead.
  eexists. unfold re_match, match_at. simpl. split.
  - apply rep_greedy_max; [done | simpl; by rewrite (digit_not_space _ Hd) |].
    simpl. rewrite Hd.
    apply rep_greedy_max; [done | done |].
    rewrite Hsplit at 1.
    apply rep_greedy_max; [done | done |].
    apply rep_greedy_all; [done|]. reflexivity.
  - unfold group_str. simpl. split.
    + replace (S (String.length w + String.length ds) - String.length w)%nat
        with (String.length (String d ds)) by (simpl; lia).
      change (String d (ds ++ rest)) with (String d ds ++ rest).
      by rewrite substring_mid.
    + rewrite Hsplit at 2. set (r := lstrip rest).
      replace (w ++ String d (ds ++ w1 ++ r))
        with ((w ++ String d ds ++ w1) ++ r)
        by (rewrite !app_str_assoc; simpl; by rewrite ?app_str_assoc).
      apply substring_at; [|lia].
      rewrite !app_str_length. simpl. rewrite ?app_str_length. lia.
Qed.

(** ** Line numbers and rendered integers *)

Lemma line_number_digits (raw : string) m :
  re_match LINE_NUM_RE raw = Some m ->
  all_of is_digit (group_str m 1) = true /\ group_str m 1 <> EmptyString.
Proof.
  intros Hm.
  destruct (group_text LINE_NUM_RE raw m 0 Hm)
    as (r1 & u1 & w1 & rest1 & spa1 & spb1 & Hr1 & _ & Hg1 & H1).
  { simpl. tauto. }
  unfold group_str. rewrite Hg1.
  simpl in Hr1. destruct Hr1 as [<- | []]. by eapply digits_text.
Qed.

(** The number of a numbered line is not negative. *)
Lemma line_number_nonneg (raw : string) m :
  re_match LINE_NUM_RE raw = Some m -> (0 <= line_number m)%Z.
Proof.
  intros Hm. destruct (line_number_digits raw m Hm) as [Hd Hne].
  destruct (py_int_digits _ Hd Hne) as (b & Hb & Hb0).
  unfold line_number. by rewrite Hb.
Qed.

Lemma first_numbered_nonneg (lines : list string) n :
  first_numbered lines = Some n -> (0 <= n)%Z.
Proof.
  induction lines as [|raw lines IH]; simpl; [done|].
  destruct (re_match LINE_NUM_RE raw) as [m|] eqn:E; [|done].
  intros [= <-]. by eapply line_number_nonneg.
Qed.

Lemma str_of_int_chars (z : Z) :
  all_of is_num_char (str_of_int z) = true /\ str_of_int z <> EmptyString.
Proof.
  destruct z as [|p|p].
  - done.
  - destruct (str_of_int_digits (Z.pos p)) as (Hd & Hne & _); [lia|].
    split; [|done]. apply (all_of_impl is_digit); [|done].
    intros c Hc. unfold is_num_char. by rewrite Hc.
  - destruct (str_of_int_digits (Z.pos p)) as (Hd & Hne & _); [lia|].
    unfold str_of_int in *. simpl in *. split; [|done].
    apply (all_of_impl is_digit); [|done].
    intros c Hc. unfold is_num_char. by rewrite Hc.
Qed.

Lemma num_char_plain (c : ascii) :
  is_num_char c = true -> is_dot c = true /\ not_space c = true /\ not_colon c = true.
Proof. intros H. char_cases c; by repeat split. Qed.

Lemma rstrip_fixed_app (a t : string) :
  all_of not_space t = true -> t <> EmptyString -> rstrip (a ++ t) = a ++ t.
Proof.
  intros Ht Hne. unfold rstrip.
  rewrite rstrip_by_app_r; rewrite (rstrip_by_clean is_space t Ht); [done|].
  by apply nonempty_true.
Qed.

(** The header text is trimmed and holds no line feed. *)
Lemma header_text_plain (a : args) :
  strip (header_text a) = header_text a /\ all_of is_dot (header_text a) = true.
Proof.
  unfold header_text.
  destruct (str_of_int_chars (a_reg a)) as [Hr _].
  destruct (str_of_int_chars (a_dat a)) as [Hd Hdne].
  split.
  - unfold strip.
    assert (lstrip ("B=0:REG=" ++ str_of_int (a_reg a) ++ ":DAT=" ++ str_of_int (a_dat a))
            = "B=0:REG=" ++ str_of_int (a_reg a) ++ ":DAT=" ++ str_of_int (a_dat a)) as ->
      by done.
    replace ("B=0:REG=" ++ str_of_int (a_reg a) ++ ":DAT=" ++ str_of_int (a_dat a))
      with (("B=0:REG=" ++ str_of_int (a_reg a) ++ ":DAT=") ++ str_of_int (a_dat a))
      by (rewrite !app_str_assoc; done).
    apply rstrip_fixed_app; [|done].
    apply (all_of_impl is_num_char); [|done]. intros c Hc. by apply num_char_plain.
  - assert (all_of is_dot (str_of_int (a_reg a)) = true) as Hr'
      by (apply (all_of_impl is_num_char); [|done]; intros c Hc; by apply num_char_plain).
    assert (all_of is_dot (str_of_int (a_dat a)) = true) as Hd'
      by (apply (all_of_impl is_num_char); [|done]; intros c Hc; by apply num_char_plain).
    rewrite !all_of_app, Hr', Hd'. done.
Qed.

(** ** The alias set and the lines it comes from *)

Lemma scan_assigns_origin (stmts : list string) (bv : gset string) (x : string) :
  x ∈ scan_assigns stmts bv ->
  x ∈ bv \/
  exists stmt am, In stmt stmts /\ re_match ASSIGN_BASE_RE stmt = Some am /\
                  x = upper (group_str am 1).
Proof.
  unfold scan_assigns. revert bv.
  induction stmts as [|s stmts IH]; intros bv; simpl; [by left|].
  intros [H | (stmt & am & Hin & Ham & ->)]%IH.
  - destruct (re_match ASSIGN_BASE_RE s) as [am|] eqn:E; [|by left].
    apply elem_of_union in H as [->%elem_of_singleton | H]; [|by left].
    right. exists s, am. by repeat split; [left|..].
  - right. exists stmt, am. by repeat split; [right|..].
Qed.

Lemma fold_pass1_origin (lines : list string) (st : pass1) (x : string) :
  x ∈ base_vars_of (fold_left pass1_step lines st) ->
  x ∈ base_vars_of st \/
  exists raw m stmt am,
    In raw lines /\ re_match LINE_NUM_RE raw = Some m /\
    In stmt (split_colon_statements (strip (group_str m 2))) /\
    re_match ASSIGN_BASE_RE stmt = Some am /\ x = upper (group_str am 1).
Proof.
  revert st. induction lines as [|raw lines IH]; intros st; simpl; [by left|].
  intros [H | (raw' & m & stmt & am & Hin & Hm & Hs & Ham & ->)]%IH.
  - unfold pass1_step in H.
    destruct (re_match LINE_NUM_RE raw) as [m|] eqn:E; simpl in H; [|by left].
    apply scan_assigns_origin in H as [H | (stmt & am & Hin & Ham & ->)]; [by left|].
    right. exists raw, m, stmt, am. by repeat split; [left|..].
  - right. exists raw', m, stmt, am. by repeat split; [right|..].
Qed.

Lemma upper_char_idem (c : ascii) : upper_char (upper_char c) = upper_char c.
Proof. by char_cases c. Qed.

Lemma upper_idem (s : string) : upper (upper s) = upper s.
Proof.
  induction s as [|c s IH]; [done|].
  change (upper (String c s)) with (String (upper_char c) (upper s)).
  change (upper (String (upper_char c) (upper s)))
    with (String (upper_char (upper_char c)) (upper (upper s))).
  by rewrite upper_char_idem, IH.
Qed.

(** The output line of a numbered input line. *)
Lemma numbered_line_output (a : args) (lines : list string) i raw n body :
  nth_error lines i = Some raw -> parse_line raw = (Some n, body) ->
  exists tail,
    nth_error (main a lines) (S i) = Some (str_of_int n ++ tail) /\
    (tail = EmptyString \/ exists b, tail = " " ++ b /\ strip b <> EmptyString).
Proof.
  intros Hi Hp. rewrite main_lines. simpl.
  rewrite (map_nth_error _ _ _ Hi), Hp. unfold convert_line.
  match goal with |- context [nonempty (strip ?b)] =>
    destruct (nonempty (strip b)) eqn:E; [exists (" " ++ b) | exists EmptyString] end.
  - split; [done|]. right. eexists. split; [done|]. by destruct (strip _).
  - rewrite app_str_nil_r. split; [done | by left].
Qed.

(** ** The address forms of [rewrite_poke] *)

Lemma at_end_clean (s : string) :
  at_end s = true -> all_of not_space s = true -> s = EmptyString.
Proof.
  destruct s as [|c [|d s]]; simpl; try done.
  intros H. rewrite andb_true_r. char_cases c.
Qed.

Lemma not_space_plus (c : ascii) : ci "+" c = true -> c = "+"%char.
Proof. intros H. char_cases c. Qed.

(** A text without blanks that the variable-base pattern matches is a
    variable name, alone or with a plus sign and an offset. *)
Lemma BASE_VAR_RE_shape (x : string) m :
  all_of not_space x = true -> re_match BASE_VAR_RE x = Some m ->
  exists alias,
    is_var alias = true /\
    (x = alias \/
     exists off, x = alias ++ "+" ++ off /\ off <> EmptyString).
Proof.
  intros Hx Hm. apply mt_sound in Hm as (p' & s' & sp' & H & _).
  unfold BASE_VAR_RE, VAR_NAME, lit, seq, plus in H. simpl in H. inv_matches.
  all: repeat match goal with
         | H : ci "+" _ = true |- _ => apply not_space_plus in H as ->
         end.
  all: simpl in Hx;
       repeat match goal with
         | H : _ && _ = true |- _ => apply andb_true_iff in H as [? ?]
         end.
  all: try match goal with
         | H : at_end ?s = true |- _ =>
             assert (s = EmptyString) as -> by (apply at_end_clean; [done|];
               repeat match goal with
                 | H : all_of not_space (_ ++ _) = true |- _ =>
                     rewrite all_of_app in H; apply andb_true_iff in H as [? ?]
                 end; done)
         end.
  - exists (String c (String c0 EmptyString)). split; [simpl; by apply andb_true_iff|].
    right. by exists (String c2 (w ++ EmptyString)).
  - exists (String c (String c0 EmptyString)). split; [simpl; by apply andb_true_iff|].
    by left.
  - exists (String c EmptyString). split; [done|].
    right. by exists (String c1 (w ++ EmptyString)).
  - eexists (String c EmptyString). split; [done|]. by left.
Qed.

Lemma remove_spaces_lstrip (s : string) : remove_spaces (lstrip s) = remove_spaces s.
Proof.
  unfold lstrip. induction s as [|c s IH]; simpl; [done|].
  destruct (is_space c) eqn:E; [done|]. simpl. by rewrite E.
Qed.

Lemma remove_spaces_rstrip (s : string) : remove_spaces (rstrip s) = remove_spaces s.
Proof.
  unfold rstrip. induction s as [|c s IH]; simpl; [done|].
  destruct (rstrip_by is_space s) as [|d r] eqn:Er.
  - simpl in IH. rewrite <- IH. destruct (is_space c) eqn:E; simpl; by rewrite ?E.
  - change (remove_spaces (String c (String d r)))
      with (if is_space c then remove_spaces (String d r)
            else String c (remove_spaces (String d r))).
    by rewrite IH.
Qed.

(** Squeezing the trimmed address is removing every blank of it. *)
Lemma squeeze_strip (s : string) : squeeze (strip s) = remove_spaces s.
Proof.
  rewrite squeeze_remove_spaces. unfold strip.
  by rewrite remove_spaces_rstrip, remove_spaces_lstrip.
Qed.

Lemma startswith_split (x p : string) :
  startswith x p = true -> x = p ++ drop_str (String.length p) x.
Proof.
  unfold startswith. revert x. induction p as [|c p IH]; intros x; simpl.
  - by destruct x.
  - destruct x as [|d x]; [done|]. cbn [String.prefix].
    destruct (ascii_dec c d) as [->|]; [|done].
    intros H. f_equal. by apply IH.
Qed.

Lemma startswith_app (p t : string) : startswith (p ++ t) p = true.
Proof.
  unfold startswith. induction p as [|c p IH]; [by destruct t|].
  change (String c p ++ t) with (String c (p ++ t)). cbn [String.prefix].
  by destruct (ascii_dec c c).
Qed.

Lemma drop_str_app (p t : string) : drop_str (String.length p) (p ++ t) = t.
Proof. induction p as [|c p IH]; simpl; [by destruct t | done]. Qed.

(** The recognised forms of an address without blanks. *)
Lemma poke_offset_forms (x off : string) (base_vars : gset string) :
  all_of not_space x = true ->
  poke_offset x base_vars = Some off <->
  x = "54272+" ++ off \/
  (x = "54272" /\ off = "0") \/
  exists alias,
    is_var alias = true /\ upper alias ∈ base_vars /\
    ((x = alias /\ off = "0") \/ (x = alias ++ "+" ++ off /\ off <> EmptyString)).
Proof.
  intros Hx. split.
  - unfold poke_offset. destruct (startswith x "54272+") eqn:E1.
    { intros [= <-]. left. by apply startswith_split in E1. }
    destruct (String.eqb_spec x "54272") as [-> | E2].
    { intros [= <-]. right. by left. }
    destruct (re_match BASE_VAR_RE x) as [m|] eqn:Hm; [|done].
    destruct (BASE_VAR_RE_shape x m Hx Hm) as (alias & Ha & [-> | (o & -> & Ho)]).
    + destruct (BASE_VAR_RE_plain alias Ha) as (m' & Hm' & H1 & H3).
      rewrite Hm in Hm'. injection Hm' as <-. rewrite H1, H3.
      destruct (bool_decide _) eqn:Eb; [|done].
      apply bool_decide_eq_true in Eb. intros [= <-].
      right. right. exists alias. repeat split; try done. by left.
    + assert (all_of is_dot o = true) as Hdot.
      { rewrite !all_of_app in Hx. apply andb_true_iff in Hx as [_ Hx].
        simpl in Hx. apply (all_of_impl not_space); [|done].
        apply not_space_dot. }
      destruct (BASE_VAR_RE_offset alias o Ha Hdot Ho) as (m' & Hm' & H1 & H3).
      rewrite Hm in Hm'. injection Hm' as <-. rewrite H1, H3.
      destruct (bool_decide _) eqn:Eb; [|done].
      apply bool_decide_eq_true in Eb. intros [= <-].
      right. right. exists alias. repeat split; try done. by right.
  - intros [-> | [[-> ->] | (alias & Ha & Hin & [[-> ->] | [-> Ho]])]].
    + apply poke_offset_literal.
    + done.
    + by apply poke_offset_alias.
    + apply poke_offset_alias; try done.
      rewrite !all_of_app in Hx. apply andb_true_iff in Hx as [_ Hx].
      simpl in Hx. done.
Qed.

(** ** Statements the screen mapping leaves alone *)

Lemma no_chr_call_unmentioned (input : string) p s :
  starts_ci "CHR$(" s = false -> match_at CHR_CALL_RE input p s = None.
Proof.
  intros Hs. destruct (match_at CHR_CALL_RE input p s) as [m|] eqn:E; [|done].
  apply mt_sound in E as (p' & s' & sp' & H & _).
  inversion H as [ | | | | | | |? ? ? ? ? p1 s1 sp1 ? ? ? H1 H2| ]; subst.
  apply lit_starts in H1. congruence.
Qed.

Lemma chr_scan_unmentioned (input : string) : forall s p,
  mentions "CHR$(" s = false ->
  sub_scan CHR_CALL_RE chr_repl input p s 0 = s.
Proof.
  induction s as [|c s IH]; intros p H; [done|].
  cbn [mentions] in H. apply orb_false_iff in H as [H1 H2].
  cbn [sub_scan]. rewrite no_chr_call_unmentioned by done. by rewrite IH.
Qed.

Lemma map_chr_unmentioned (s profile : string) :
  mentions "CHR$(" s = false -> map_chr_calls_to_profile s profile = s.
Proof.
  intros H. unfold map_chr_calls_to_profile.
  destruct (negb _); [done|]. by apply chr_scan_unmentioned.
Qed.

Lemma ci_paren (d : ascii) : ci "(" d = true -> not_paren d = false.
Proof. intros H. char_cases d. Qed.

Lemma paren_in_chr_call (s : string) :
  starts_ci "CHR$(" s = true -> all_of not_paren s = false.
Proof.
  destruct s as [|a [|b [|c [|d [|e s]]]]]; simpl; try done;
    rewrite ?andb_false_r; try done.
  intros H. repeat (apply andb_true_iff in H as [? H]).
  match goal with Hd : ci "(" _ = true |- _ => rewrite (ci_paren _ Hd) end.
  by rewrite !andb_false_r.
Qed.

Lemma unmentioned_without_paren (s : string) :
  all_of not_paren s = true -> mentions "CHR$(" s = false.
Proof.
  induction s as [|c s IH]; intros H; [done|].
  cbn [mentions]. apply orb_false_iff. split.
  - destruct (starts_ci "CHR$(" (String c s)) eqn:E; [|done].
    apply paren_in_chr_call in E. congruence.
  - simpl in H. apply andb_true_iff in H as [_ H]. by apply IH.
Qed.

(** A statement the GET pattern matches holds no parenthesis. *)
Lemma get_no_paren (s : string) mg :
  re_match GET_RE s = Some mg -> all_of not_paren s = true.
Proof.
  intros H. apply mt_sound in H as (p' & s' & sp' & H & _).
  destruct (matches_classes not_paren _ _ _ _ _ _ _ H) as (w & -> & Hw);
    [by vm_compute|].
  rewrite all_of_app, Hw. simpl.
  assert (at_end s' = true) as He by by apply (matches_eos _ _ _ _ _ _ _ H).
  clear H Hw. destruct s' as [|c [|d s']]; simpl in *; try done.
  rewrite andb_true_r. char_cases c.
Qed.

Lemma GET_RE_var (s : string) mg :
  re_match GET_RE s = Some mg -> is_var (group_str mg 1) = true.
Proof.
  intros Hm.
  destruct (group_text GET_RE s mg 0 Hm)
    as (r1 & u1 & w1 & rest1 & spa1 & spb1 & Hr1 & _ & Hg1 & H1).
  { simpl. tauto. }
  unfold group_str. rewrite Hg1.
  simpl in Hr1. destruct Hr1 as [<- | []]. by eapply var_name_text.
Qed.

(** A neutral statement goes through [process_line_body] unchanged. *)
Lemma process_stmt_neutral base_vars warn scale_for scale_for_vars screen_profile
      map_get_to_inkey (stmt : string) :
  strip stmt = stmt -> neutral stmt = true ->
  process_stmt base_vars warn scale_for scale_for_vars screen_profile
               map_get_to_inkey stmt = [stmt].
Proof.
  intros Hs H. unfold neutral in H.
  repeat (apply andb_true_iff in H as [H ?]).
  repeat match goal with
    | H : negb _ = true |- _ => apply negb_true_iff in H
    end.
  rewrite process_stmt_other; rewrite Hs; try done.
  unfold poke_rewrite. rewrite no_keyword_no_POKE by done.
  by rewrite map_chr_unmentioned.
Qed.

(** ** One [CHR$] call in a statement *)

Lemma sub_scan_skip r repl (input : string) : forall w s p,
  sub_scan r repl input p (w ++ s) (String.length w)
  = sub_scan r repl input (p + String.length w) s 0.
Proof.
  induction w as [|c w IH]; intros s p; simpl.
  - rewrite Nat.add_0_r. by destruct s.
  - rewrite IH. f_equal. lia.
Qed.

Lemma ci_dollar_eq (d : ascii) : ci "$" d = true -> d = "$"%char.
Proof. intros H. char_cases d. Qed.

(** No call begins inside a text without dollar sign that is followed
    by the three letters of a call. *)
Lemma no_call_across (pre t : string) :
  pre <> EmptyString -> all_of not_dollar pre = true ->
  starts_ci "CHR" t = true -> starts_ci "CHR$(" (pre ++ t) = false.
Proof.
  intros Hne Hpre Ht.
  destruct (starts_ci "CHR$(" (pre ++ t)) eqn:E; [exfalso | done].
  destruct t as [|t1 [|t2 [|t3 t]]];
    try (simpl in Ht; rewrite ?andb_false_r in Ht; done).
  simpl in Ht. repeat (apply andb_true_iff in Ht as [? Ht]).
  destruct pre as [|a [|b [|c [|d pre]]]]; [done|..]; simpl in E, Hpre;
    repeat (apply andb_true_iff in E as [? E]);
    repeat (apply andb_true_iff in Hpre as [? Hpre]);
    match goal with
    | Hd : ci "$" ?x = true |- _ => apply ci_dollar_eq in Hd; subst x
    end; done.
Qed.

Lemma chr_scan_before (input : string) (t : string) : forall pre p,
  all_of not_dollar pre = true -> starts_ci "CHR" t = true ->
  sub_scan CHR_CALL_RE chr_repl input p (pre ++ t) 0
  = pre ++ sub_scan CHR_CALL_RE chr_repl input (p + String.length pre) t 0.
Proof.
  induction pre as [|c pre IH]; intros p Hpre Ht.
  - simpl. by rewrite Nat.add_0_r.
  - change (String c pre ++ t) with (String c (pre ++ t)). cbn [sub_scan].
    rewrite no_chr_call_unmentioned
      by (change (String c (pre ++ t)) with (String c pre ++ t);
          by apply no_call_across).
    simpl in Hpre. apply andb_true_iff in Hpre as [_ Hpre].
    rewrite IH by done. simpl. by rewrite Nat.add_succ_r.
Qed.

(** The match of a call at its place. *)
Lemma CHR_CALL_RE_at (input : string) (p : nat) (kw w1 ds w2 post : string) :
  String.length kw = 5%nat -> starts_ci "CHR$(" kw = true ->
  all_of is_space w1 = true -> all_of is_digit ds = true -> ds <> EmptyString ->
  all_of is_space w2 = true ->
  exists m,
    match_at CHR_CALL_RE input p (kw ++ w1 ++ ds ++ w2 ++ ")" ++ post) = Some m /\
    m_string m = input /\ m_start m = p /\
    m_end m = (p + String.length (kw ++ w1 ++ ds ++ w2 ++ ")"))%nat /\
    m_spans m = [(1%nat, ((p + String.length (kw ++ w1))%nat,
                          (p + String.length (kw ++ w1 ++ ds))%nat))].
Proof.
  intros Hl Hkw Hw1 Hds Hne Hw2.
  destruct kw as [|k1 [|k2 [|k3 [|k4 [|k5 [|]]]]]]; try done.
  simpl in Hkw. repeat (apply andb_true_iff in Hkw as [? Hkw]).
  destruct ds as [|d ds]; [done|].
  simpl in Hds. apply andb_true_iff in Hds as [Hd Hds].
  eexists. unfold match_at. simpl. split.
  - repeat match goal with H : ci _ _ = true |- _ => rewrite H; clear H end.
    apply rep_greedy_max; [done | simpl; by rewrite (digit_not_space _ Hd) |].
    simpl. rewrite Hd.
    apply rep_greedy_max; [done | |].
    { destruct w2 as [|c w2]; [done|]. simpl in *.
      apply andb_true_iff in Hw2 as [Hc _].
      destruct (is_digit c) eqn:Ec; [|done].
      by rewrite (digit_not_space _ Ec) in Hc. }
    apply rep_greedy_max; [done | done |].
    simpl. reflexivity.
  - simpl. rewrite !app_str_length. simpl. rewrite !app_str_length. simpl.
    repeat split; try lia. do 3 f_equal; lia.
Qed.

(** [map_chr_calls_to_profile] on a statement with one call. *)
Lemma map_chr_one_call (pre kw w1 ds w2 post : string) :
  all_of not_dollar pre = true -> all_of not_dollar post = true ->
  String.length kw = 5%nat -> starts_ci "CHR$(" kw = true ->
  all_of is_space w1 = true -> all_of is_digit ds = true -> ds <> EmptyString ->
  all_of is_space w2 = true ->
  map_chr_calls_to_profile (pre ++ kw ++ w1 ++ ds ++ w2 ++ ")" ++ post) "ansi"
  = pre ++
    match py_int ds with
    | Some n =>
        match ANSI_CHR_MAP !! n with
        | Some esc => DQUOTE ++ esc ++ DQUOTE
        | None => kw ++ w1 ++ ds ++ w2 ++ ")"
        end
    | None => kw ++ w1 ++ ds ++ w2 ++ ")"
    end ++ post.
Proof.
  intros Hpre Hpost Hl Hkw Hw1 Hds Hne Hw2.
  unfold map_chr_calls_to_profile. cbn [String.eqb Ascii.eqb Bool.eqb negb andb].
  unfold re_sub.
  set (call := kw ++ w1 ++ ds ++ w2 ++ ")").
  set (input := pre ++ kw ++ w1 ++ ds ++ w2 ++ ")" ++ post).
  assert (input = pre ++ call ++ post) as Hin
    by (subst input call; by rewrite !app_str_assoc).
  assert (starts_ci "CHR" (kw ++ w1 ++ ds ++ w2 ++ ")" ++ post) = true) as H3.
  { destruct kw as [|k1 [|k2 [|k3 [|k4 [|k5 [|]]]]]]; try done.
    simpl in *. repeat (apply andb_true_iff in Hkw as [? Hkw]).
    by repeat (apply andb_true_iff; split). }
  subst input. rewrite chr_scan_before by done. f_equal. cbn [Nat.add].
  destruct (CHR_CALL_RE_at (pre ++ kw ++ w1 ++ ds ++ w2 ++ ")" ++ post)
              (String.length pre) kw w1 ds w2 post Hl Hkw Hw1 Hds Hne Hw2)
    as (m & Hm & Hs & Hst & He & Hsp).
  destruct kw as [|k1 kw]; [done|].
  change (String k1 kw ++ w1 ++ ds ++ w2 ++ ")" ++ post)
    with (String k1 (kw ++ w1 ++ ds ++ w2 ++ ")" ++ post)) in *.
  cbn [sub_scan]. rewrite Hm.
  assert (group_str m 1 = ds) as Hg1.
  { unfold group_str, group. rewrite Hsp, Hs. cbn [find_span Nat.eqb].
    change (String k1 (kw ++ w1 ++ ds ++ w2 ++ ")" ++ post))
      with (String k1 kw ++ w1 ++ ds ++ w2 ++ ")" ++ post).
    replace (pre ++ String k1 kw ++ w1 ++ ds ++ w2 ++ ")" ++ post)
      with ((pre ++ String k1 kw ++ w1) ++ ds ++ (w2 ++ ")" ++ post))
      by (by rewrite !app_str_assoc).
    replace (String.length pre + String.length (String k1 kw ++ w1))%nat
      with (String.length (pre ++ String k1 kw ++ w1))
      by (rewrite !app_str_length; lia).
    replace (String.length pre + String.length (String k1 kw ++ w1 ++ ds)
             - String.length (pre ++ String k1 kw ++ w1))%nat
      with (String.length ds)
      by (rewrite !app_str_length; lia).
    apply substring_mid. }
  assert (group_str m 0 = call) as Hg0.
  { unfold group_str, group. rewrite Hs, Hst, He.
    change (String k1 (kw ++ w1 ++ ds ++ w2 ++ ")" ++ post))
      with (String k1 kw ++ w1 ++ ds ++ w2 ++ ")" ++ post).
    replace (pre ++ String k1 kw ++ w1 ++ ds ++ w2 ++ ")" ++ post)
      with (pre ++ call ++ post) by (subst call; by rewrite !app_str_assoc).
    replace (String.length pre + String.length (String k1 kw ++ w1 ++ ds ++ w2 ++ ")")
             - String.length pre)%nat
      with (String.length call) by (subst call; lia).
    apply substring_mid. }
  assert (chr_repl m
          = match py_int ds with
            | Some n =>
                match ANSI_CHR_MAP !! n with
                | Some esc => DQUOTE ++ esc ++ DQUOTE
                | None => call
                end
            | None => call
            end) as ->.
  { unfold chr_repl. by rewrite Hg1, Hg0. }
  f_equal. rewrite He.
  replace (kw ++ w1 ++ ds ++ w2 ++ ")" ++ post)
    with ((kw ++ w1 ++ ds ++ w2 ++ ")") ++ post) by (by rewrite !app_str_assoc).
  replace (String.length pre + String.length (String k1 kw ++ w1 ++ ds ++ w2 ++ ")")
           - String.length pre - 1)%nat
    with (String.length (kw ++ w1 ++ ds ++ w2 ++ ")")) by (simpl; lia).
  rewrite sub_scan_skip. by apply chr_scan_without_dollar.
Qed.

(** ** The post-step on base assignments *)

Lemma all_of_lstrip_by f g (s : string) :
  all_of g s = true -> all_of g (lstrip_by f s) = true.
Proof.
  induction s as [|c s IH]; simpl; [done|].
  intros [Hc Hs]%andb_true_iff. destruct (f c); [by apply IH|].
  simpl. by rewrite Hc, Hs.
Qed.

Lemma all_of_rstrip_by f g (s : string) :
  all_of g s = true -> all_of g (rstrip_by f s) = true.
Proof.
  induction s as [|c s IH]; simpl; [done|].
  intros [Hc Hs]%andb_true_iff. specialize (IH Hs).
  destruct (rstrip_by f s) as [|d r].
  - destruct (f c); simpl; by rewrite ?Hc.
  - change (all_of g (String c (String d r)))
      with (g c && all_of g (String d r)). by rewrite Hc, IH.
Qed.

Lemma all_of_strip g (s : string) : all_of g s = true -> all_of g (strip s) = true.
Proof. intros H. by apply all_of_rstrip_by, all_of_lstrip_by. Qed.

Lemma in_removelast {A} (x : A) (l : list A) : In x (removelast l) -> In x l.
Proof.
  induction l as [|y l IH]; simpl; [done|].
  destruct l as [|z l]; [done|]. intros [-> | H]; [by left | right; by apply IH].
Qed.

Lemma last_in {A} (l : list A) (d : A) : l <> [] -> In (List.last l d) l.
Proof.
  induction l as [|y l IH]; [done|]. intros _.
  destruct l as [|z l]; [by left|]. right. by apply IH.
Qed.

(** The statements of the splitter hold no colon. *)
Lemma split_colon_free (s x : string) :
  In x (split_colon_statements s) -> all_of not_colon x = true.
Proof.
  rewrite split_colon_statements_spec. intros H.
  pose proof (segments_no_colon s) as Hc. rewrite List.Forall_forall in Hc.
  apply in_app_or in H as [H | H].
  - apply in_map_iff in H as (y & <- & Hy).
    apply all_of_strip. apply (Hc y). by apply in_removelast.
  - destruct (nonempty _); [|done]. destruct H as [<- | []].
    apply all_of_strip. apply (Hc _). apply last_in, segments_nonnil.
Qed.

Lemma segments_join_plain (l : list string) :
  l <> [] -> (forall x, In x l -> all_of not_colon x = true) ->
  segments (join ":" l) = l.
Proof.
  intros Hne Hl. rewrite segments_join by done. clear Hne.
  induction l as [|x l IH]; simpl; [done|].
  rewrite segments_no_colon_one by (apply Hl; by left).
  simpl. f_equal. apply IH. intros y Hy. apply Hl. by right.
Qed.

(** Splitting the joined statements gives back statements of the list. *)
Lemma split_join_sub (l : list string) (s : string) :
  (forall x, In x l -> all_of not_colon x = true /\ strip x = x) ->
  In s (split_colon_statements (join ":" l)) -> In s l.
Proof.
  intros Hl. destruct l as [|x0 l0]; [done|].
  set (l := x0 :: l0) in *. assert (l <> []) as Hne by done.
  rewrite split_colon_statements_spec.
  rewrite segments_join_plain; [| done | intros x Hx; by apply Hl].
  intros H. apply in_app_or in H as [H | H].
  - apply in_map_iff in H as (y & <- & Hy). apply in_removelast in Hy.
    by rewrite (proj2 (Hl y Hy)).
  - destruct (nonempty _); [|done]. destruct H as [<- | []].
    pose proof (last_in l EmptyString Hne) as Hin.
    by rewrite (proj2 (Hl _ Hin)).
Qed.

(** [<V>=0] is not an assignment of the base. *)
Lemma zeroed_not_assign (v : string) :
  is_var v = true -> re_match ASSIGN_BASE_RE (v ++ "=0") = None.
Proof.
  intros Hv. destruct v as [|c1 [|c2 [|]]]; simpl in Hv; try done.
  - unfold re_match, match_at. simpl.
    rewrite (alpha_not_space _ Hv), Hv.
    destruct (ci "L" c1); simpl; by rewrite ?Hv.
  - apply andb_true_iff in Hv as [H1 H2].
    unfold re_match, match_at. simpl.
    rewrite (alpha_not_space _ H1), H1, H2.
    assert (ci "=" c2 = false) as E2 by (clear H1; char_cases c2).
    assert (is_space c2 = false) as E3 by (clear H1; char_cases c2).
    destruct (ci "L" c1), (ci "E" c2); simpl; by rewrite ?H1, ?H2, ?E2, ?E3.
Qed.

Lemma alnum_not_colon (c : ascii) : is_alnum c = true -> not_colon c = true.
Proof. intros H. char_cases c. Qed.

Lemma alpha_not_colon (c : ascii) : is_alpha c = true -> not_colon c = true.
Proof. intros H. char_cases c. Qed.

Lemma var_plain (v : string) : is_var v = true -> all_of not_colon v = true.
Proof.
  destruct v as [|c1 [|c2 [|]]]; simpl; try done.
  - intros H. by rewrite (alpha_not_colon _ H).
  - intros [H1 H2]%andb_true_iff.
    by rewrite (alpha_not_colon _ H1), (alnum_not_colon _ H2).
Qed.

Lemma zeroed_tidy (v : string) :
  is_var v = true ->
  all_of not_colon (v ++ "=0") = true /\ strip (v ++ "=0") = v ++ "=0".
Proof.
  intros Hv. split.
  - by rewrite all_of_app, (var_plain v Hv).
  - destruct v as [|c1 [|c2 [|]]]; simpl in Hv; try done.
    + unfold strip, lstrip. simpl. by rewrite (alpha_not_space _ Hv).
    + apply andb_true_iff in Hv as [H1 H2].
      unfold strip, lstrip. simpl. by rewrite (alpha_not_space _ H1).
Qed.

(** After the post-step no statement assigns 54272 to a known alias. *)
Lemma zero_base_assigns_done (base_vars : gset string) (body s : string) am :
  In s (split_colon_statements (zero_base_assigns base_vars body)) ->
  re_match ASSIGN_BASE_RE s = Some am ->
  upper (group_str am 1) ∉ base_vars.
Proof.
  unfold zero_base_assigns. cbv zeta.
  destruct (existsb snd (map (fix_assign base_vars) (split_colon_statements body)))
    eqn:E.
  - intros Hin Ham.
    apply split_join_sub in Hin.
    + apply in_map_iff in Hin as (y & <- & Hy).
      apply in_map_iff in Hy as (x & <- & Hx).
      unfold fix_assign in Ham |- *.
      destruct (re_match ASSIGN_BASE_RE x) as [am'|] eqn:Ex.
      * destruct (bool_decide (upper (group_str am' 1) ∈ base_vars)) eqn:Eb.
        { simpl in Ham. rewrite zeroed_not_assign in Ham; [done|].
          rewrite upper_var. by eapply ASSIGN_BASE_RE_var. }
        simpl in Ham. rewrite Ex in Ham. injection Ham as <-.
        by apply bool_decide_eq_false in Eb.
      * simpl in Ham. by rewrite Ex in Ham.
    + intros y Hy. apply in_map_iff in Hy as (z & <- & Hz).
      apply in_map_iff in Hz as (x & <- & Hx).
      unfold fix_assign.
      destruct (re_match ASSIGN_BASE_RE x) as [am'|] eqn:Ex;
        [destruct (bool_decide _)|]; simpl;
        try (split; [by eapply split_colon_free
                    | by eapply split_colon_statements_stripped]).
      apply zeroed_tidy. rewrite upper_var. by eapply ASSIGN_BASE_RE_var.
  - intros Hin Ham Hbv.
    assert (existsb snd (map (fix_assign base_vars) (split_colon_statements body))
            = true) as E'; [|congruence].
    apply existsb_exists. exists (fix_assign base_vars s).
    split; [by apply in_map|].
    unfold fix_assign. rewrite Ham. by rewrite bool_decide_eq_true_2.
Qed.

(** ** A FOR statement through the second loop *)

Lemma for_plain (s : string) fm :
  re_match FOR_RE s = Some fm -> all_of plain_char s = true.
Proof.
  intros H. apply mt_sound in H as (p' & s' & sp' & H & _).
  destruct (matches_classes plain_char _ _ _ _ _ _ _ H) as (w & -> & Hw);
    [by vm_compute|].
  rewrite all_of_app, Hw. simpl. apply at_end_plain.
  by apply (matches_eos _ _ _ _ _ _ _ H).
Qed.

(** The second loop leaves a simple FOR statement alone. *)
Lemma rewrite_stmt_for base_vars warn screen_profile map_get_to_inkey (t : string) fm :
  re_match FOR_RE t = Some fm ->
  rewrite_stmt base_vars warn screen_profile map_get_to_inkey t = [t].
Proof.
  intros Hm. pose proof (FOR_keyword _ _ Hm) as HF.
  assert (keyword "GET" t = false) as HG
    by by apply (keyword_exclusive "F" "G" "OR" "ET").
  assert (keyword "POKE" t = false) as HP
    by by apply (keyword_exclusive "F" "P" "OR" "OKE").
  unfold rewrite_stmt, poke_rewrite.
  rewrite (no_keyword_no_GET _ HG), (no_keyword_no_POKE _ HP).
  rewrite map_chr_without_dollar by by eapply plain_no_dollar, for_plain.
  by destruct map_get_to_inkey.
Qed.

Lemma digits_not_space (ds : string) :
  all_of is_digit ds = true -> all_of not_space ds = true.
Proof.
  apply all_of_impl. intros c Hc. unfold not_space.
  by rewrite (digit_not_space _ Hc).
Qed.

(** The statement the scaling writes is trimmed. *)
Lemma for_canonical_stripped (v ds : string) :
  all_of is_digit ds = true -> ds <> EmptyString ->
  strip ("FOR " ++ v ++ "=1 TO " ++ ds) = "FOR " ++ v ++ "=1 TO " ++ ds.
Proof.
  intros Hds Hne. unfold strip.
  assert (lstrip ("FOR " ++ v ++ "=1 TO " ++ ds) = "FOR " ++ v ++ "=1 TO " ++ ds)
    as -> by done.
  replace ("FOR " ++ v ++ "=1 TO " ++ ds) with (("FOR " ++ v ++ "=1 TO ") ++ ds)
    by (rewrite !app_str_assoc; done).
  apply rstrip_fixed_app; [by apply digits_not_space | done].
Qed.

(** What the first loop appends for a simple FOR statement. *)
Lemma scale_stmt_for (scale_for : option Z) scale_for_vars (stmt : string) fm :
  re_match FOR_RE (strip stmt) = Some fm ->
  exists bound,
    py_int (group_str fm 2) = Some bound /\ (0 <= bound)%Z /\
    scale_stmt scale_for scale_for_vars stmt
    = match scale_for with
      | Some f =>
          if (1 <? f)%Z && bool_decide (upper (group_str fm 1) ∈ scale_for_vars)
          then "FOR " ++ group_str fm 1 ++ "=1 TO " ++ str_of_int (bound * f)
          else strip stmt
      | None => strip stmt
      end.
Proof.
  intros Hm. destruct (FOR_RE_groups _ _ Hm) as (Hv & Hd & Hne).
  destruct (py_int_digits _ Hd Hne) as (bound & Hb & Hb0).
  exists bound. repeat split; try done.
  unfold scale_stmt. destruct scale_for as [f|]; [|done].
  rewrite scaling_on_spec, Hm, Hb.
  destruct (1 <? f)%Z; [|done]. by destruct (bool_decide _).
Qed.

Lemma scaled_for_matches (scale_for : option Z) scale_for_vars (stmt : string) fm :
  re_match FOR_RE (strip stmt) = Some fm ->
  exists fm', re_match FOR_RE (scale_stmt scale_for scale_for_vars stmt) = Some fm'.
Proof.
  intros Hm. destruct (FOR_RE_groups _ _ Hm) as (Hv & Hd & Hne).
  destruct (scale_stmt_for scale_for scale_for_vars stmt fm Hm)
    as (bound & Hb & Hb0 & ->).
  destruct scale_for as [f|]; [|by exists fm].
  destruct (Z.ltb_spec 1 f) as [Hf|]; [|by exists fm].
  destruct (bool_decide _); [|by exists fm]. simpl.
  destruct (str_of_int_digits (bound * f)) as (Hd' & Hne' & _); [nia|].
  destruct (FOR_RE_canonical (group_str fm 1) (str_of_int (bound * f)) Hv Hd' Hne')
    as (fm' & Hfm' & _).
  by exists fm'.
Qed.

(** ** A POKE statement written out *)

Lemma rep_lazy_first {A} f (k : nat -> string -> option A) x : forall w p s,
  all_of f w = true ->
  (forall w1 w2, w = w1 ++ w2 -> w2 <> EmptyString ->
     k (p + String.length w1)%nat (w2 ++ s) = None) ->
  k (p + String.length w)%nat s = Some x ->
  rep_lazy f p (w ++ s) k = Some x.
Proof.
  induction w as [|c w IH]; intros p s Hw Hnone Hk.
  - simpl in *. rewrite Nat.add_0_r in Hk. destruct s; simpl; by rewrite Hk.
  - change (String c w ++ s) with (String c (w ++ s)). cbn [rep_lazy].
    pose proof (Hnone EmptyString (String c w) eq_refl) as H0.
    simpl in H0. rewrite Nat.add_0_r in H0. rewrite H0 by done.
    simpl in Hw. apply andb_true_iff in Hw as [-> Hw].
    apply IH; [done | | ].
    + intros w1 w2 -> Hne.
      specialize (Hnone (String c w1) w2 eq_refl Hne).
      simpl in Hnone. by rewrite Nat.add_succ_r in Hnone.
    + simpl in Hk. by rewrite Nat.add_succ_r in Hk.
Qed.

Lemma lstrip_by_length f (s : string) :
  (String.length (lstrip_by f s) <= String.length s)%nat.
Proof. induction s as [|c s IH]; simpl; [done|]. destruct (f c); simpl; lia. Qed.

Lemma rstrip_by_length f (s : string) :
  (String.length (rstrip_by f s) <= String.length s)%nat.
Proof.
  induction s as [|c s IH]; simpl; [done|].
  destruct (rstrip_by f s); [destruct (f c)|]; simpl in *; lia.
Qed.

(** A trimmed text has a blank at neither end. *)
Lemma strip_fixed_both (s : string) :
  strip s = s -> lstrip s = s /\ rstrip s = s.
Proof.
  intros H.
  assert (lstrip s = s) as Hl.
  { pose proof (rstrip_by_length is_space (lstrip s)) as H1.
    pose proof (lstrip_by_length is_space s) as H2.
    unfold strip, rstrip in H. rewrite H in H1. fold (lstrip s) in H2.
    assert (String.length (lstrip s) = String.length s) as E by lia.
    unfold lstrip in *. destruct s as [|c s]; [done|]. simpl in *.
    destruct (is_space c); [|done].
    pose proof (lstrip_by_length is_space s). lia. }
  split; [done|]. unfold strip in H. by rewrite Hl in H.
Qed.

Lemma rstrip_suffix (a r : string) :
  rstrip (a ++ r) = a ++ r -> r <> EmptyString -> rstrip r = r.
Proof.
  unfold rstrip. induction a as [|c a IH]; intros H Hne; [done|].
  apply IH; [|done].
  change (String c a ++ r) with (String c (a ++ r)) in H. cbn [rstrip_by] in H.
  destruct (rstrip_by is_space (a ++ r)) as [|d x] eqn:E.
  - destruct (is_space c); [done|]. injection H as H.
    destruct a; [|done]. simpl in H. by subst r.
  - by injection H.
Qed.

Lemma rstrip_blank (r : string) : all_of is_space r = true -> rstrip r = EmptyString.
Proof.
  unfold rstrip. induction r as [|c r IH]; simpl; [done|].
  intros [Hc Hr]%andb_true_iff. by rewrite (IH Hr), Hc.
Qed.

Lemma ci_comma (c : ascii) : ci "," c = true -> not_comma c = false.
Proof. intros H. char_cases c. Qed.

(** In a trimmed text without comma, blanks are never followed by a
    comma. *)
Lemma no_comma_ahead (b : string) : forall r tail c rest,
  r <> EmptyString -> rstrip r = r -> all_of not_comma r = true ->
  r ++ tail = b ++ String c rest -> all_of is_space b = true ->
  not_comma c = false -> False.
Proof.
  induction b as [|b1 b IH]; intros r tail c rest Hne Hr Hc E Hb Hcomma.
  - destruct r as [|r1 r]; [done|]. simpl in E. injection E as -> _.
    simpl in Hc. by rewrite Hcomma in Hc.
  - destruct r as [|r1 r]; [done|]. simpl in E. injection E as -> E.
    simpl in Hb, Hc. apply andb_true_iff in Hb as [Hb1 Hb].
    apply andb_true_iff in Hc as [_ Hc].
    unfold rstrip in Hr. cbn [rstrip_by] in Hr.
    destruct (rstrip_by is_space r) as [|d x] eqn:Er.
    { by rewrite Hb1 in Hr. }
    injection Hr as Hr. apply (IH r tail c rest); try done.
    + intros ->. done.
    + unfold rstrip. by rewrite Er.
Qed.

(** What follows the address in the POKE pattern cannot match inside a
    trimmed address without comma. *)
Lemma comma_part_fails {A} (R : re) (r tail : string) p sp
      (k : nat -> string -> spans -> option A) :
  r <> EmptyString -> rstrip r = r -> all_of not_comma r = true ->
  mt (Cat (star is_space) (Cat (lit ",") R)) p (r ++ tail) sp k = None.
Proof.
  intros Hne Hr Hc.
  destruct (mt _ p (r ++ tail) sp k) as [x|] eqn:E; [exfalso | done].
  apply mt_sound in E as (p' & s' & sp' & H & _).
  inversion H as [ | | | | | | |? ? ? ? ? p1 s1 sp1 ? ? ? H1 H2| ]; subst.
  inversion H2 as [ | | | | | | |? ? ? ? ? p2 s2 sp2 ? ? ? H3 H4| ]; subst.
  apply lit_starts in H3. unfold star in H1.
  inversion H1 as [ | | | |? ? w ? ? ? Hw | | | | ]; subst.
  destruct s1 as [|c rest]; [done|]. simpl in H3.
  rewrite andb_true_r in H3.
  match goal with E : _ = r ++ tail |- _ => symmetry in E;
    exact (no_comma_ahead w r tail c rest Hne Hr Hc E Hw (ci_comma _ H3)) end.
Qed.

(** What follows the value in the POKE pattern cannot match inside a
    trimmed value. *)
Lemma eos_part_fails {A} (r tail : string) p sp
      (k : nat -> string -> spans -> option A) :
  r <> EmptyString -> rstrip r = r ->
  mt (Cat (star is_space) (Cat Eos Nil)) p (r ++ tail) sp k = None.
Proof.
  intros Hne Hr.
  destruct (mt _ p (r ++ tail) sp k) as [x|] eqn:E; [exfalso | done].
  apply mt_sound in E as (p' & s' & sp' & H & _).
  unfold star in H. inv_matches.
  assert (all_of is_space (r ++ tail) = true) as Hall.
  { match goal with E : _ = r ++ tail |- _ => rewrite <- E end.
    rewrite all_of_app. apply andb_true_iff. split; [done|].
    match goal with He : at_end ?s = true |- _ =>
      destruct s as [|c [|d s]]; simpl in He |- *; try done;
      rewrite andb_true_r; clear - He; char_cases c end. }
  rewrite all_of_app in Hall. apply andb_true_iff in Hall as [Hall _].
  apply rstrip_blank in Hall. congruence.
Qed.

Lemma substring_mid_at (u w rest : string) (n k : nat) :
  n = String.length u -> k = String.length w ->
  substring n k (u ++ w ++ rest) = w.
Proof. intros -> ->. apply substring_mid. Qed.

(** A lazy group: the shortest text after which the rest of the
    pattern matches. *)
Lemma lazy_group_step {A} n f (R : re) (c : ascii) (w tail : string) p sp
      (k : nat -> string -> spans -> option A) x :
  f c = true -> all_of f w = true ->
  (forall u r sp', w = u ++ r -> r <> EmptyString ->
     mt R (S p + String.length u)%nat (r ++ tail) sp' k = None) ->
  mt R (S p + String.length w)%nat tail
     ((n, (p, (S p + String.length w)%nat)) :: sp) k = Some x ->
  mt (Cat (Grp n (plus_lazy f)) R) p (String c (w ++ tail)) sp k = Some x.
Proof.
  intros Hc Hw Hnone Hk. cbn [mt plus_lazy]. rewrite Hc.
  apply rep_lazy_first; [done | | done].
  intros u r E Hr. by apply Hnone.
Qed.

(** The POKE pattern on a statement written out: the address is the
    text up to the first comma, the value the rest, both trimmed. *)
Lemma POKE_STMT_RE_parse (w0 kw w1 addr w2 w3 val w4 : string) :
  all_of is_space w0 = true ->
  String.length kw = 4%nat -> starts_ci "POKE" kw = true ->
  all_of is_space w1 = true -> w1 <> EmptyString ->
  strip addr = addr -> addr <> EmptyString ->
  all_of is_dot addr = true -> all_of not_comma addr = true ->
  all_of is_space w2 = true -> all_of is_space w3 = true ->
  strip val = val -> val <> EmptyString -> all_of is_dot val = true ->
  all_of is_space w4 = true ->
  exists pm,
    re_match POKE_STMT_RE (w0 ++ kw ++ w1 ++ addr ++ w2 ++ "," ++ w3 ++ val ++ w4)
    = Some pm /\
    group_str pm 1 = addr /\ group_str pm 2 = val.
Proof.
  intros Hw0 Hl Hkw Hw1 Hw1ne Hsa Hane Hda Hca Hw2 Hw3 Hsv Hvne Hdv Hw4.
  destruct (strip_fixed_both _ Hsa) as [Hla Hra].
  destruct (strip_fixed_both _ Hsv) as [Hlv Hrv].
  destruct kw as [|k1 [|k2 [|k3 [|k4 [|]]]]]; try done.
  simpl in Hkw. repeat (apply andb_true_iff in Hkw as [? Hkw]).
  destruct w1 as [|b1 w1]; [done|].
  simpl in Hw1. apply andb_true_iff in Hw1 as [Hb1 Hw1].
  destruct addr as [|a1 addr]; [done|].
  destruct val as [|v1 val]; [done|].
  assert (is_space a1 = false) as Ha1.
  { unfold lstrip in Hla. simpl in Hla. destruct (is_space a1) eqn:E; [|done].
    pose proof (lstrip_by_length is_space addr) as Hlen.
    rewrite Hla in Hlen. simpl in Hlen. lia. }
  assert (is_space v1 = false) as Hv1.
  { unfold lstrip in Hlv. simpl in Hlv. destruct (is_space v1) eqn:E; [|done].
    pose proof (lstrip_by_length is_space val) as Hlen.
    rewrite Hlv in Hlen. simpl in Hlen. lia. }
  simpl in Hda, Hdv, Hca.
  apply andb_true_iff in Hda as [Hda1 Hda].
  apply andb_true_iff in Hdv as [Hdv1 Hdv].
  apply andb_true_iff in Hca as [Hca1 Hca].
  eexists. unfold re_match, match_at, POKE_STMT_RE, seq. cbn [fold_right].
  remember (Cat (Grp 2 (plus_lazy is_dot)) (Cat (star is_space) (Cat Eos Nil)))
    as G2 eqn:HG2.
  remember (Cat (Grp 1 (plus_lazy is_dot))
              (Cat (star is_space) (Cat (lit ",") (Cat (star is_space) G2))))
    as G1 eqn:HG1.
  split.
  - simpl.
    apply rep_greedy_max; [done | |].
    { simpl. by rewrite (ci_letter_not_space "P" k1). }
    simpl.
    repeat match goal with H : ci _ _ = true |- _ => rewrite H; clear H end.
    rewrite Hb1.
    apply rep_greedy_max; [done | simpl; by rewrite Ha1 |].
    rewrite HG1.
    apply lazy_group_step; [done | done | |].
    { intros u r sp' -> Hr.
      apply (comma_part_fails _ r); [done | |].
      - apply (rstrip_suffix (String a1 u)); [|done]. exact Hra.
      - rewrite all_of_app in Hca. by apply andb_true_iff in Hca as [_ ?]. }
    cbn [mt star].
    apply rep_greedy_max; [done | done |].
    cbn [mt lit seq map list_ascii_of_string fold_right].
    replace (ci "," ",") with true by done.
    apply rep_greedy_max; [done | simpl; by rewrite Hv1 |].
    rewrite HG2.
    apply lazy_group_step; [done | done | |].
    { intros u r sp' -> Hr.
      apply (eos_part_fails r); [done|].
      apply (rstrip_suffix (String v1 u)); [|done]. exact Hrv. }
    cbn [mt star].
    rewrite <- (app_str_nil_r w4) at 1.
    apply rep_greedy_max; [done | done |].
    cbn [at_end]. reflexivity.
  - unfold group_str. simpl. split.
    + change (String a1 (addr ++ w2 ++ String "," (w3 ++ String v1 (val ++ w4))))
        with (String a1 addr ++ w2 ++ String "," (w3 ++ String v1 (val ++ w4))).
      match goal with |- context [String k1 (String k2 (String k3 (String k4
                                    (String b1 (w1 ++ ?x)))))] =>
        change (String k1 (String k2 (String k3 (String k4 (String b1 (w1 ++ x))))))
          with ((String k1 (String k2 (String k3 (String k4 (String b1 w1))))) ++ x)
      end.
      rewrite <- app_str_assoc.
      apply substring_mid_at; [rewrite app_str_length; simpl; lia | simpl; lia].
    + replace (w0 ++ String k1 (String k2 (String k3 (String k4 (String b1
                 (w1 ++ String a1 (addr ++ w2 ++ String "," (w3 ++
                    String v1 (val ++ w4)))))))))
        with ((w0 ++ String k1 (String k2 (String k3 (String k4 (String b1
                 (w1 ++ String a1 (addr ++ w2 ++ String "," w3))))))) ++
              String v1 val ++ w4)
        by (rewrite !app_str_assoc; simpl; rewrite ?app_str_assoc; simpl;
            by rewrite ?app_str_assoc).
      apply substring_mid_at; [|simpl; lia].
      rewrite !app_str_length. simpl. rewrite !app_str_length. simpl.
      rewrite !app_str_length. simpl. lia.
Qed.

Lemma rstrip_by_app_blank f (a w : string) :
  all_of f w = true -> rstrip_by f (a ++ w) = rstrip_by f a.
Proof.
  intros Hw. induction a as [|c a IH].
  - simpl. induction w as [|d w IHw]; simpl; [done|].
    simpl in Hw. apply andb_true_iff in Hw as [Hd Hw]. by rewrite (IHw Hw), Hd.
  - change (String c a ++ w) with (String c (a ++ w)). cbn [rstrip_by].
    by rewrite IH.
Qed.

(** Blanks around a trimmed text are what [strip] removes. *)
Lemma strip_blanks_around (w0 core w4 : string) :
  all_of is_space w0 = true -> all_of is_space w4 = true ->
  strip core = core -> strip (w0 ++ core ++ w4) = core.
Proof.
  intros H0 H4 Hc. destruct (strip_fixed_both _ Hc) as [Hl Hr].
  unfold strip, lstrip, rstrip in *.
  rewrite lstrip_by_app by done.
  destruct core as [|c core].
  - simpl. assert (lstrip_by is_space w4 = EmptyString) as ->; [|done].
    rewrite <- (app_str_nil_r w4). by rewrite lstrip_by_app.
  - assert (is_space c = false) as Hc1.
    { simpl in Hl. destruct (is_space c) eqn:E; [|done].
      pose proof (lstrip_by_length is_space core) as Hlen.
      rewrite Hl in Hlen. simpl in Hlen. lia. }
    change (String c core ++ w4) with (String c (core ++ w4)).
    rewrite lstrip_by_fixed by done.
    change (String c (core ++ w4)) with (String c core ++ w4).
    by rewrite rstrip_by_app_blank.
Qed.

(** A POKE statement written out is trimmed when its value is. *)
Lemma poke_text_stripped (k1 : ascii) (t val : string) :
  is_space k1 = false -> strip val = val -> val <> EmptyString ->
  strip (String k1 t ++ val) = String k1 t ++ val.
Proof.
  intros Hk Hv Hne. destruct (strip_fixed_both _ Hv) as [_ Hr].
  unfold strip, lstrip. change (String k1 t ++ val) with (String k1 (t ++ val)).
  rewrite lstrip_by_fixed by done.
  change (String k1 (t ++ val)) with (String k1 t ++ val).
  unfold rstrip in *. rewrite rstrip_by_app_r; rewrite Hr; [done|].
  by destruct val.
Qed.

(** ** A base assignment written out *)

Lemma space_not_alnum (c : ascii) : is_space c = true -> is_alnum c = false.
Proof. intros H. char_cases c. Qed.

Lemma alpha_alnum (c : ascii) : is_alpha c = true -> is_alnum c = true.
Proof. intros H. char_cases c. Qed.

(** Blanks and an equals sign do not go on a variable name. *)
Lemma head_not_alnum_eq (w1 t : string) :
  all_of is_space w1 = true -> head_not is_alnum (w1 ++ String "=" t) = true.
Proof.
  destruct w1 as [|b w1]; simpl; [done|].
  intros [Hb _]%andb_true_iff. by rewrite (space_not_alnum _ Hb).
Qed.

(** The group of the variable name, when what follows cannot go on
    the name. *)
Lemma var_group_step {A} n (T : re) (v rest : string) p sp
      (k : nat -> string -> spans -> option A) x :
  is_var v = true -> head_not is_alnum rest = true ->
  mt T (p + String.length v)%nat rest
     ((n, (p, (p + String.length v)%nat)) :: sp) k = Some x ->
  mt (Cat (Grp n VAR_NAME) T) p (v ++ rest) sp k = Some x.
Proof.
  intros Hv Hrest Hk. destruct v as [|c1 [|c2 [|]]]; simpl in Hv; try done.
  - simpl in Hk |- *. rewrite Hv. rewrite Nat.add_1_r in Hk.
    destruct rest as [|d rest]; [done|].
    simpl in Hrest. apply negb_true_iff in Hrest. by rewrite Hrest.
  - apply andb_true_iff in Hv as [H1 H2].
    simpl in Hk |- *. rewrite H1, H2.
    replace (p + 2)%nat with (S (S p)) in Hk by lia. by rewrite Hk.
Qed.

(** What follows the name in the pattern of a base assignment. *)
Lemma assign_tail {A} (w1 w2 : string) p sp
      (k : nat -> string -> spans -> option A) x :
  all_of is_space w1 = true -> all_of is_space w2 = true ->
  k (p + String.length w1 + String.length w2 + 6)%nat EmptyString sp = Some x ->
  mt (seq [star is_space; lit "="; star is_space; lit "54272"; star is_space; Eos])
     p (w1 ++ "=" ++ w2 ++ "54272") sp k = Some x.
Proof.
  intros H1 H2 Hk. simpl.
  apply rep_greedy_max; [done | done |]. simpl.
  apply rep_greedy_max; [done | done |]. simpl.
  rewrite <- Hk. f_equal. lia.
Qed.

Lemma opt_some {A} (o d : option A) (x : A) :
  o = Some x -> match o with Some y => Some y | None => d end = Some x.
Proof. by intros ->. Qed.

(** A variable name is not the keyword LET. *)
Lemma let_part_fails {A} (v rest : string) p sp
      (k : nat -> string -> spans -> option A) :
  is_var v = true -> head_not is_alnum rest = true ->
  mt (lit "LET") p (v ++ rest) sp k = None.
Proof.
  intros Hv Hrest.
  destruct (mt _ p (v ++ rest) sp k) as [x|] eqn:E; [exfalso | done].
  apply mt_sound in E as (p' & s' & sp' & H1 & _).
  apply lit_starts in H1.
  assert (forall x d, is_alpha x = true -> ci x d = true -> is_alnum d = true) as Hci
    by (intros x0 d Hx Hd; by apply alpha_alnum, (ci_alpha x0)).
  destruct v as [|c1 [|c2 [|]]]; simpl in Hv; try done;
    destruct rest as [|d1 [|d2 rest]]; simpl in H1, Hrest;
    rewrite ?andb_false_r in H1; try done;
    apply negb_true_iff in Hrest;
    repeat (apply andb_true_iff in H1 as [? H1]);
    match goal with
    | Hd : ci ?x d1 = true |- _ => by rewrite (Hci x d1) in Hrest
    end.
Qed.

(** The pattern of a base assignment on an assignment written out,
    with or without LET. *)
Lemma ASSIGN_BASE_RE_parse (kw wl v w1 w2 : string) :
  (kw = EmptyString /\ wl = EmptyString \/
   String.length kw = 3%nat /\ starts_ci "LET" kw = true /\
   all_of is_space wl = true /\ wl <> EmptyString) ->
  is_var v = true -> all_of is_space w1 = true -> all_of is_space w2 = true ->
  exists am,
    re_match ASSIGN_BASE_RE (kw ++ wl ++ v ++ w1 ++ "=" ++ w2 ++ "54272") = Some am /\
    group_str am 1 = v.
Proof.
  intros Hpre Hv H1 H2.
  assert (exists c t, v = String c t /\ is_alpha c = true) as (c1 & t & Ev & Hc1).
  { destruct v as [|c1 [|c2 [|]]]; simpl in Hv; try done; eexists _, _;
      split; try done. by apply andb_true_iff in Hv as [? _]. }
  pose proof (alpha_not_space _ Hc1) as Hs1.
  pose proof (head_not_alnum_eq w1 (w2 ++ "54272") H1) as Hh.
  destruct Hpre as [[-> ->] | (Hl & Hkw & Hwl & Hwlne)];
    [| destruct kw as [|k1 [|k2 [|k3 [|]]]]; try done;
       destruct wl as [|b wl]; [done|] ];
    eexists; unfold re_match, match_at, ASSIGN_BASE_RE, seq; cbn [fold_right];
    remember (Cat (star is_space) (Cat (lit "=") (Cat (star is_space)
                (Cat (lit "54272") (Cat (star is_space) (Cat Eos Nil))))))
      as T eqn:HT;
    remember (Cat (Grp 1 VAR_NAME) T) as G eqn:HG.
  - split.
    + cbn [mt Nat.eqb String.append]. rewrite Ev.
      change (String c1 t ++ ?r) with (String c1 (t ++ r)).
      cbn [star mt rep_greedy]. rewrite Hs1. rewrite <- Ev.
      change (String c1 (t ++ ?r)) with (String c1 t ++ r). rewrite <- Ev.
      rewrite let_part_fails by done.
      rewrite HG. apply var_group_step; [done | done |].
      rewrite HT. apply assign_tail; [done | done |]. reflexivity.
    + unfold group_str. simpl.
      rewrite Nat.sub_0_r. apply substring_prefix.
  - simpl in Hkw. repeat (apply andb_true_iff in Hkw as [? Hkw]).
    simpl in Hwl. apply andb_true_iff in Hwl as [Hb Hwl].
    split.
    + cbn [mt Nat.eqb String.append star rep_greedy].
      rewrite (ci_letter_not_space "L" k1) by done.
      cbn [lit seq map list_ascii_of_string fold_right plus mt].
      repeat match goal with H : ci _ _ = true |- _ => rewrite H; clear H end.
      rewrite Hb.
      assert (head_not is_space (v ++ w1 ++ String "=" (w2 ++ "54272")) = true)
        as Hhv by (rewrite Ev; simpl; by rewrite Hs1).
      apply opt_some. apply rep_greedy_max; [done | done |].
      rewrite HG. apply var_group_step; [done | done |].
      rewrite HT. apply assign_tail; [done | done |]. reflexivity.
    + unfold group_str. simpl.
      replace (S (S (S (S (String.length wl + String.length v - String.length wl)))) - 4)%nat
        with (String.length v) by lia.
      change (String k1 (String k2 (String k3 (String b (wl ++ ?r)))))
        with (String k1 (String k2 (String k3 (String b wl))) ++ r).
      apply substring_mid_at; simpl; lia.
Qed.

(** A trimmed statement without colon is the one statement of its body. *)
Lemma split_single (s : string) :
  all_of not_colon s = true -> strip s = s -> s <> EmptyString ->
  split_colon_statements s = [s].
Proof.
  intros Hc Hs Hne. rewrite split_colon_statements_spec.
  rewrite segments_no_colon_one by done. simpl. rewrite Hs.
  by destruct s.
Qed.

Lemma alpha_not_digit (c : ascii) : is_alpha c = true -> is_digit c = false.
Proof. intros H. char_cases c. Qed.

Lemma space_not_digit (c : ascii) : is_space c = true -> is_digit c = false.
Proof. intros H. char_cases c. Qed.

(** The assignment written out begins with a letter and is trimmed. *)
Lemma assign_text (kw wl v w1 w2 : string) :
  (kw = EmptyString /\ wl = EmptyString \/
   String.length kw = 3%nat /\ starts_ci "LET" kw = true /\
   all_of is_space wl = true /\ wl <> EmptyString) ->
  is_var v = true ->
  let stmt := kw ++ wl ++ v ++ w1 ++ "=" ++ w2 ++ "54272" in
  (exists c r, stmt = String c r /\ is_alpha c = true) /\ strip stmt = stmt.
Proof.
  intros Hpre Hv stmt.
  assert (exists c r, kw ++ wl ++ v ++ w1 ++ "=" ++ w2 = String c r /\
                      is_alpha c = true) as (c & r & E & Hc).
  { destruct Hpre as [[-> ->] | (Hl & Hkw & _)].
    - destruct v as [|c1 [|c2 [|]]]; simpl in Hv; try done; eexists _, _;
        (split; [reflexivity|]); [done | by apply andb_true_iff in Hv as [? _]].
    - destruct kw as [|k1 kw]; [done|]. simpl in Hkw.
      apply andb_true_iff in Hkw as [Hk _].
      eexists _, _. split; [reflexivity|]. by apply (ci_alpha "L"). }
  assert (stmt = String c r ++ "54272") as ->.
  { subst stmt. rewrite <- E. by rewrite !app_str_assoc. }
  split; [by exists c, (r ++ "54272")|].
  apply poke_text_stripped; [by apply alpha_not_space | done | done].
Qed.

(** ** Scaling switched off *)

Lemma scale_stmt_off (scale_for : option Z) (scale_for_vars : gset string)
      (stmt : string) :
  scaling_on scale_for = false \/ scale_for_vars = ∅ ->
  scale_stmt scale_for scale_for_vars stmt = strip stmt.
Proof.
  intros [H | ->]; unfold scale_stmt; [by rewrite H|].
  destruct (scaling_on scale_for); [|done].
  destruct (re_match FOR_RE (strip stmt)) as [fm|]; [|done].
  by rewrite bool_decide_eq_false_2 by set_solver.
Qed.

(** ** The escape sequences of the table *)

Lemma ANSI_CHR_MAP_safe (n : Z) (esc : string) :
  ANSI_CHR_MAP !! n = Some esc ->
  literal_safe esc = true /\ exists t, esc = ANSI_SEQ ++ "[" ++ t.
Proof.
  intros H. unfold ANSI_CHR_MAP in H. apply elem_of_list_to_map_2 in H.
  repeat (apply elem_of_cons in H as [[= -> ->] | H];
          [split; [by vm_compute | by eexists]|]).
  by apply elem_of_nil in H.
Qed.

(** The post-step changes nothing where no statement assigns the base. *)
Lemma zero_base_assigns_none (base_vars : gset string) (new_body : string) :
  (forall s, In s (split_colon_statements new_body) ->
             re_match ASSIGN_BASE_RE s = None) ->
  zero_base_assigns base_vars new_body = new_body.
Proof.
  intros H. unfold zero_base_assigns. cbv zeta.
  destruct (existsb snd (map (fix_assign base_vars)
                             (split_colon_statements new_body))) eqn:E; [|done].
  apply existsb_exists in E as ([t b] & Hin & Hb). simpl in Hb. subst b.
  apply in_map_iff in Hin as (s & Hs & Hin).
  unfold fix_assign in Hs. by rewrite (H s Hin) in Hs.
Qed.

(** A body of neutral statements comes back as its statements joined. *)
Lemma neutral_statements_stay base_vars warn scale_for scale_for_vars
      screen_profile map_get_to_inkey (body : string) :
  Forall (fun s => neutral s = true) (split_colon_statements body) ->
  process_line_body body base_vars warn scale_for scale_for_vars screen_profile
                    map_get_to_inkey
  = join ":" (split_colon_statements body).
Proof.
  intros Hn. rewrite process_line_body_stmts. f_equal.
  pose proof (split_colon_statements_stripped body) as Hs.
  induction (split_colon_statements body) as [|x l IH]; [done|].
  inversion Hn as [|? ? Hx Hl]; subst. simpl.
  rewrite IH; [| done | intros t Ht; apply Hs; by right].
  rewrite process_stmt_neutral; [done | apply Hs; by left | done].
Qed.

(** ** The two OUT statements in the output line *)

Lemma join_app_cons2 (sep : string) (l1 : list string) (x y : string)
      (l2 : list string) :
  exists pre post,
    join sep (l1 ++ x :: y :: l2)%list = pre ++ x ++ sep ++ y ++ post.
Proof.
  induction l1 as [|z l1 (pre & post & IH)].
  - exists EmptyString. change ([] ++ x :: y :: l2)%list with (x :: y :: l2).
    rewrite join_cons by done. destruct l2 as [|z l2].
    + exists EmptyString. simpl. by rewrite app_str_nil_r.
    + exists (sep ++ join sep (z :: l2)). by rewrite join_cons.
  - exists (z ++ sep ++ pre), post.
    change ((z :: l1) ++ x :: y :: l2)%list with (z :: (l1 ++ x :: y :: l2))%list.
    rewrite join_cons by by destruct l1.
    rewrite IH. by rewrite !app_str_assoc.
Qed.

(** A statement that begins with OUT and a blank assigns nothing. *)
Lemma out_not_assign (t : string) :
  re_match ASSIGN_BASE_RE ("OUT " ++ t) = None.
Proof. reflexivity. Qed.

Lemma all_of_remove_spaces g (s : string) :
  all_of g s = true -> all_of g (remove_spaces s) = true.
Proof.
  induction s as [|c s IH]; simpl; [done|].
  intros [Hc Hs]%andb_true_iff. destruct (is_space c); [by apply IH|].
  simpl. by rewrite Hc, IH.
Qed.

(** The range remark is empty or begins with a blank and a colon. *)
Lemma range_rem_shape (warn : bool) (off : string) :
  range_rem warn off = EmptyString \/ exists r, range_rem warn off = " :" ++ r.
Proof.
  unfold range_rem. destruct warn; [|by left].
  destruct (py_int off) as [n|]; [|by left].
  destruct ((n <? 0)%Z || (n >? 24)%Z); [|by left].
  right. by eexists.
Qed.

(** Two statements that follow each other among the segments of a body
    follow each other among its statements. *)
Lemma split_of_segments_pair (s : string) (S1 : list string) (x d1 y : string)
      (T : list string) :
  segments s = (S1 ++ x :: d1 :: T)%list ->
  strip x = x -> strip d1 = y -> y <> EmptyString ->
  exists A B, split_colon_statements s = (A ++ x :: y :: B)%list.
Proof.
  intros Hseg Hx Hd Hy. rewrite split_colon_statements_spec, Hseg.
  destruct T as [|t T].
  - replace (S1 ++ [x; d1])%list with ((S1 ++ [x]) ++ [d1])%list
      by by rewrite <- app_assoc.
    rewrite List.removelast_last, List.last_last, Hd.
    exists (map strip S1), []. rewrite map_app. simpl. rewrite Hx.
    destruct y; [done|]. simpl. by rewrite <- app_assoc.
  - exists (map strip S1).
    rewrite removelast_app by done.
    change (removelast (x :: d1 :: t :: T)) with (x :: d1 :: removelast (t :: T)).
    rewrite map_app. simpl map. rewrite Hx, Hd.
    eexists. rewrite <- app_assoc. simpl. reflexivity.
Qed.

(** The post-step keeps the two OUT statements side by side. *)
Lemma zero_base_assigns_keeps_pair (base_vars : gset string)
      (L1 L2 : list string) (x y rem : string) :
  all_of not_colon x = true -> strip x = x -> re_match ASSIGN_BASE_RE x = None ->
  all_of not_colon y = true -> strip y = y -> y <> EmptyString ->
  re_match ASSIGN_BASE_RE y = None ->
  rem = EmptyString \/ (exists r, rem = " :" ++ r) ->
  exists X Y : string,
    zero_base_assigns base_vars
      (join ":" (L1 ++ x :: (y ++ rem)%string :: L2)%list)
    = X ++ x ++ ":" ++ y ++ Y.
Proof.
  intros Hxc Hxs Hxa Hyc Hys Hyne Hya Hrem.
  unfold zero_base_assigns. cbv zeta.
  destruct (existsb snd _) eqn:E.
  - assert (exists d1 ds, segments (y ++ rem) = d1 :: ds /\ strip d1 = y)
      as (d1 & ds & Hd & Hd1).
    { destruct Hrem as [-> | [r ->]].
      - rewrite app_str_nil_r, segments_no_colon_one by done. by eexists _, _.
      - replace (y ++ " :" ++ r) with ((y ++ " ") ++ String ":" r)
          by (by rewrite app_str_assoc).
        rewrite segments_app_colon, segments_no_colon_one
          by (by rewrite all_of_app, Hyc).
        eexists _, _. split; [reflexivity|].
        apply (strip_blanks_around EmptyString y " "); done. }
    destruct (split_of_segments_pair
                (join ":" (L1 ++ x :: (y ++ rem)%string :: L2)%list)
                (flat_map segments L1) x d1 y (ds ++ flat_map segments L2)%list)
      as (A & B & ->); try done.
    { rewrite segments_join by by destruct L1.
      rewrite flat_map_app. simpl.
      by rewrite segments_no_colon_one, Hd by done. }
    rewrite !map_app. cbn [map]. unfold fix_assign at 2 3. rewrite Hxa, Hya.
    cbn [fst].
    destruct (join_app_cons2 ":" (map fst (map (fix_assign base_vars) A)) x y
                (map fst (map (fix_assign base_vars) B))) as (X & Y & ->).
    by exists X, Y.
  - destruct (join_app_cons2 ":" L1 x (y ++ rem) L2) as (X & Y & ->).
    exists X, (rem ++ Y). by rewrite !app_str_assoc.
Qed.

Lemma all_of_group_str f r (s : string) m n :
  re_match r s = Some m -> all_of f s = true -> all_of f (group_str m n) = true.
Proof.
  intros Hm Hs. unfold group_str.
  destruct (group m n) as [g|] eqn:Hg; [|done].
  by apply (all_of_group f r s m n g).
Qed.

(** The value statement without the range remark is trimmed. *)
Lemma out_val_stripped addr val base_vars warn out_reg out_dat :
  rewrite_poke addr val base_vars warn = Some (out_reg, out_dat) ->
  strip ("OUT DAT," ++ strip val) = "OUT DAT," ++ strip val.
Proof.
  intros H. apply rewrite_poke_inv in H as (off & Ho & _ & _).
  pose proof (rewrite_poke_offset addr val base_vars false off Ho) as H.
  apply rewrite_poke_stripped in H as (_ & _ & _ & H).
  change (range_rem false off) with EmptyString in H.
  by rewrite app_str_nil_r in H.
Qed.

(** * The claims of the specification *)

(** ** C1: a POKE on the literal base becomes two OUT statements *)

(** Claim C1.  A statement of a line body that the POKE pattern matches
    and whose address expression, blanks removed, is [54272+<off>] is
    replaced by exactly two statements, [OUT REG,<off>] and then
    [OUT DAT,<value>] (the value trimmed, followed by the range remark
    when one is due), joined to their neighbours by colons.  This holds
    for every setting of the options. *)
Theorem poke_literal_base_two_statements
    (base_vars : gset string) (warn : bool) (scale_for : option Z)
    (scale_for_vars : gset string) (screen_profile : string)
    (map_get_to_inkey : bool)
    (body : string) (pre : list string) (stmt : string) (post : list string)
    (pm : match_obj) (off : string) :
  split_colon_statements body = (pre ++ stmt :: post)%list ->
  re_match POKE_STMT_RE stmt = Some pm ->
  squeeze (strip (group_str pm 1)) = "54272+" ++ off ->
  let P := process_stmt base_vars warn scale_for scale_for_vars screen_profile
                        map_get_to_inkey in
  let two := ["OUT REG," ++ off;
              "OUT DAT," ++ strip (group_str pm 2) ++ range_rem warn off] in
  P stmt = two /\
  process_line_body body base_vars warn scale_for scale_for_vars screen_profile
                    map_get_to_inkey
  = join ":" (flat_map P pre ++ two ++ flat_map P post)%list.
Proof.
  intros Hsplit Hpm Hoff P two.
  assert (Hs : strip stmt = stmt).
  { apply (split_colon_statements_stripped body). rewrite Hsplit.
    apply in_app_iff. right. by left. }
  assert (HP : P stmt = two).
  { unfold P. rewrite (process_stmt_poke _ _ _ _ _ _ stmt pm) by by rewrite Hs.
    rewrite (rewrite_poke_offset _ _ _ _ off).
    - done.
    - rewrite Hoff. apply poke_offset_literal. }
  split; [done|].
  rewrite (process_line_body_at _ _ _ _ _ _ body pre stmt post Hsplit).
  fold P. by rewrite HP.
Qed.

(** The instance of the specification: under the default options
    [POKE 54272+5,10] becomes [OUT REG,5:OUT DAT,10]. *)
Lemma poke_literal_base_two_statements_witness :
  process_line_body "POKE 54272+5,10" ∅ false None
                    (a_scale_for_vars default_args) "ansi" false
  = "OUT REG,5:OUT DAT,10".
Proof.
  exact (proj2 (poke_literal_base_two_statements
                  ∅ false None (a_scale_for_vars default_args) "ansi" false
                  "POKE 54272+5,10" [] "POKE 54272+5,10" []
                  (MatchObj "POKE 54272+5,10" 0 15 [(2, (13, 15)); (1, (5, 12))])
                  "5" eq_refl eq_refl eq_refl)).
Defined.

(** ** C2: aliases of the base address are global *)

(** Claim C2.  Suppose some numbered line of the program has a statement
    [stmt] that the assignment pattern matches, with variable [V] in
    upper case.  Then [V] is in the alias set the second pass uses;
    every numbered line, before or after that one, is rewritten with
    this same set; with it a POKE address that is the alias (in upper
    or lower case), alone or followed by [+<offset>], is taken for the
    base.  So on every numbered line [j] of the program, a POKE
    statement through the alias becomes the two statements
    [OUT REG,<offset>] and [OUT DAT,<value>] with the range remark, and
    the output line [j] is the line number, one blank and the body in
    which the two stand, side by side, in the place of the POKE
    statement.  The output line of the assignment holds the statement
    [V=0]. *)
Theorem alias_known_on_every_line
    (a : args) (lines : list string) (i : nat) (raw : string)
    (m : match_obj) (stmt : string) (am : match_obj) :
  nth_error lines i = Some raw ->
  re_match LINE_NUM_RE raw = Some m ->
  In stmt (split_colon_statements (strip (group_str m 2))) ->
  re_match ASSIGN_BASE_RE stmt = Some am ->
  let V := upper (group_str am 1) in
  let bv := base_vars_of (first_pass lines) in
  let P := process_stmt bv (a_warn_out_of_range a)
             (if (a_scale_for a >? 0)%Z then Some (a_scale_for a) else None)
             (a_scale_for_vars a) (a_screen_profile a) (a_map_get_to_inkey a) in
  V ∈ bv /\
  (forall j raw' m',
     nth_error lines j = Some raw' -> re_match LINE_NUM_RE raw' = Some m' ->
     nth_error (main a lines) (S j)
     = Some (convert_line a bv (Some (line_number m'), strip (group_str m' 2)))) /\
  (forall addr val warn alias off,
     upper alias = V ->
     (squeeze (strip addr) = alias ->
      rewrite_poke addr val bv warn
      = Some ("OUT REG,0", "OUT DAT," ++ strip val ++ range_rem warn "0")) /\
     (squeeze (strip addr) = alias ++ "+" ++ off -> off <> EmptyString ->
      rewrite_poke addr val bv warn
      = Some ("OUT REG," ++ off, "OUT DAT," ++ strip val ++ range_rem warn off))) /\
  (forall j raw' m' pre ps post pm alias off,
     nth_error lines j = Some raw' -> re_match LINE_NUM_RE raw' = Some m' ->
     split_colon_statements (strip (group_str m' 2)) = (pre ++ ps :: post)%list ->
     re_match POKE_STMT_RE ps = Some pm ->
     upper alias = V ->
     squeeze (strip (group_str pm 1)) = alias /\ off = "0" \/
     squeeze (strip (group_str pm 1)) = alias ++ "+" ++ off /\ off <> EmptyString ->
     let out_reg := "OUT REG," ++ off in
     let out_val := "OUT DAT," ++ strip (group_str pm 2) in
     let out_dat := out_val ++ range_rem (a_warn_out_of_range a) off in
     P ps = [out_reg; out_dat] /\
     nth_error (main a lines) (S j)
     = Some (str_of_int (line_number m') ++ " " ++
             zero_base_assigns bv
               (join ":" (flat_map P pre ++ out_reg :: out_dat
                          :: flat_map P post)%list)) /\
     exists X Y : string,
       nth_error (main a lines) (S j)
       = Some (str_of_int (line_number m') ++ " " ++
               X ++ out_reg ++ ":" ++ out_val ++ Y)) /\
  exists A B,
    nth_error (main a lines) (S i)
    = Some (str_of_int (line_number m) ++ " "
            ++ join ":" (A ++ (V ++ "=0")%string :: B)%list).
Proof.
  intros Hi Hm Hin Ham V bv P.
  assert (HV : V ∈ bv).
  { eapply first_pass_finds; [by eapply nth_error_In | done..]. }
  assert (Hline : forall j raw' m',
    nth_error lines j = Some raw' -> re_match LINE_NUM_RE raw' = Some m' ->
    nth_error (main a lines) (S j)
    = Some (convert_line a bv (Some (line_number m'), strip (group_str m' 2)))).
  { intros j raw' m' Hj Hm'. rewrite main_lines. simpl.
    rewrite nth_error_map, Hj. simpl. unfold parse_line. by rewrite Hm'. }
  assert (Hrw : forall addr val warn alias off,
    upper alias = V ->
    (squeeze (strip addr) = alias ->
     rewrite_poke addr val bv warn
     = Some ("OUT REG,0", "OUT DAT," ++ strip val ++ range_rem warn "0")) /\
    (squeeze (strip addr) = alias ++ "+" ++ off -> off <> EmptyString ->
     rewrite_poke addr val bv warn
     = Some ("OUT REG," ++ off, "OUT DAT," ++ strip val ++ range_rem warn off))).
  { intros addr val warn alias off HaV.
    assert (Hin' : upper alias ∈ bv) by by rewrite HaV.
    assert (Ha : is_var alias = true).
    { rewrite <- upper_var, HaV. unfold V. rewrite upper_var.
      by eapply ASSIGN_BASE_RE_var. }
    destruct (poke_offset_alias alias off bv Ha Hin') as [H0 Hoff].
    split.
    + intros Hsq. apply rewrite_poke_offset. by rewrite Hsq.
    + intros Hsq Hne. apply rewrite_poke_offset. rewrite Hsq. apply Hoff; [|done].
      pose proof (squeeze_clean (strip addr)) as Hc. rewrite Hsq in Hc.
      rewrite !all_of_app in Hc.
      by apply andb_true_iff in Hc as [_ [_ ?]%andb_true_iff]. }
  split; [done|]. split; [done|]. split; [done|]. split.
  - intros j raw' m' pre ps post pm alias off Hj Hm' Hsplit Hpm HaV Hform
           out_reg out_val out_dat.
    assert (Hps : In ps (split_colon_statements (strip (group_str m' 2))))
      by (rewrite Hsplit; apply in_app_iff; right; by left).
    pose proof (split_colon_statements_stripped _ _ Hps) as Hs.
    pose proof (split_colon_free _ _ Hps) as Hc.
    assert (Hpoke : rewrite_poke (group_str pm 1) (group_str pm 2) bv
                                 (a_warn_out_of_range a)
                    = Some (out_reg, out_dat)).
    { destruct (Hrw (group_str pm 1) (group_str pm 2) (a_warn_out_of_range a)
                    alias off HaV) as [H0 Hoff].
      destruct Hform as [[Hsq ->] | [Hsq Hne]]; [by apply H0 | by apply Hoff]. }
    assert (HP : P ps = [out_reg; out_dat]).
    { unfold P. rewrite (process_stmt_poke _ _ _ _ _ _ ps pm) by by rewrite Hs.
      by rewrite Hpoke. }
    assert (Hoffc : all_of not_colon off = true).
    { destruct Hform as [[_ ->] | [Hsq _]]; [done|].
      pose proof (all_of_group_str not_colon _ _ _ 1 Hpm Hc) as Hg.
      apply all_of_strip, all_of_remove_spaces in Hg.
      rewrite <- squeeze_remove_spaces, Hsq, !all_of_app in Hg.
      by apply andb_true_iff in Hg as [_ [_ ?]%andb_true_iff]. }
    assert (Hvalc : all_of not_colon out_val = true).
    { unfold out_val. rewrite all_of_app. apply andb_true_iff. split; [done|].
      by apply all_of_strip, (all_of_group_str not_colon _ _ _ 2 Hpm). }
    destruct (rewrite_poke_stripped _ _ _ _ _ _ Hpoke) as (_ & _ & Hregs & _).
    pose proof (out_val_stripped _ _ _ _ _ _ Hpoke) as Hvals.
    destruct (zero_base_assigns_keeps_pair bv (flat_map P pre) (flat_map P post)
                out_reg out_val (range_rem (a_warn_out_of_range a) off))
      as (X & Y & HXY);
      [ unfold out_reg; by rewrite all_of_app, Hoffc
      | done
      | exact (out_not_assign ("REG," ++ off))
      | done
      | done
      | done
      | exact (out_not_assign ("DAT," ++ strip (group_str pm 2)))
      | apply range_rem_shape
      | ].
    assert (Hout : nth_error (main a lines) (S j)
      = Some (str_of_int (line_number m') ++ " " ++
              zero_base_assigns bv
                (join ":" (flat_map P pre ++ out_reg :: out_dat
                           :: flat_map P post)%list))).
    { rewrite (Hline j raw' m' Hj Hm'). unfold convert_line.
      rewrite (process_line_body_at _ _ _ _ _ _ _ pre ps post Hsplit).
      fold P. rewrite HP. cbn [app]. fold out_dat in HXY. rewrite HXY.
      rewrite strip_not_blank; [done|].
      rewrite !all_of_app. unfold out_reg. simpl. by rewrite andb_false_r. }
    split; [done|]. split; [done|].
    exists X, Y. rewrite Hout. unfold out_dat. by rewrite HXY.
  - rewrite (Hline i raw m Hi Hm). unfold convert_line.
    pose proof (split_colon_statements_stripped _ _ Hin) as Hs.
    pose proof (assign_plain _ _ Ham) as Hplain.
    assert (Hne : stmt <> EmptyString) by (intros ->; by vm_compute in Ham).
    match goal with |- context [zero_base_assigns bv ?nb] => set (new_body := nb) end.
    assert (Hfound : In stmt (split_colon_statements new_body)).
    { unfold new_body. rewrite process_line_body_stmts.
      apply split_join_finds; [| by apply plain_no_colon | done | done].
      apply in_flat_map. exists stmt. split; [done|].
      rewrite (process_stmt_assign _ _ _ _ _ _ stmt am) by done. by left. }
    destruct (zero_base_assigns_hit bv new_body stmt am Hfound Ham HV) as (A & B & ->).
    exists A, B. rewrite join_not_blank; [done|].
    by rewrite all_of_app, andb_false_r.
Qed.

(** The specification's example: line 10 comes out as [10 B=0] and the
    POKE of line 20 as the two OUT statements; the same holds with the
    POKE on the line before the assignment. *)
Lemma alias_known_on_every_line_witness :
  nth_error (main default_args ["10 B=54272"; "20 POKE B+4,9"]) 1
  = Some "10 B=0" /\
  nth_error (main default_args ["10 B=54272"; "20 POKE B+4,9"]) 2
  = Some "20 OUT REG,4:OUT DAT,9" /\
  nth_error (main default_args ["10 POKE B+4,9"; "20 B=54272"]) 1
  = Some "10 OUT REG,4:OUT DAT,9" /\
  rewrite_poke "B+4" "9" (base_vars_of (first_pass ["10 B=54272"; "20 POKE B+4,9"]))
               false
  = Some ("OUT REG,4", "OUT DAT,9").
Proof.
  pose (m10 := MatchObj "10 B=54272" 0 10 [(2, (3, 10)); (1, (0, 2))]).
  pose (m20 := MatchObj "20 B=54272" 0 10 [(2, (3, 10)); (1, (0, 2))]).
  pose (am := MatchObj "B=54272" 0 7 [(1, (0, 1))]).
  pose (p10 := MatchObj "10 POKE B+4,9" 0 13 [(2, (3, 13)); (1, (0, 2))]).
  pose (p20 := MatchObj "20 POKE B+4,9" 0 13 [(2, (3, 13)); (1, (0, 2))]).
  pose (pm := MatchObj "POKE B+4,9" 0 10 [(2, (9, 10)); (1, (5, 8))]).
  destruct (alias_known_on_every_line default_args
              ["10 B=54272"; "20 POKE B+4,9"] 0 "10 B=54272" m10 "B=54272" am
              eq_refl eq_refl (or_introl eq_refl) eq_refl)
    as (_ & _ & Hrw & Hpoke & A & B & Hline).
  destruct (alias_known_on_every_line default_args
              ["10 POKE B+4,9"; "20 B=54272"] 1 "20 B=54272" m20 "B=54272" am
              eq_refl eq_refl (or_introl eq_refl) eq_refl)
    as (_ & _ & _ & Hpoke' & _).
  split; [reflexivity|]. split; [|split].
  - assert (Hne : "4" <> EmptyString) by discriminate.
    destruct (Hpoke 1%nat "20 POKE B+4,9" p20 [] "POKE B+4,9" [] pm "B" "4"
                eq_refl eq_refl eq_refl eq_refl eq_refl
                (or_intror (conj eq_refl Hne))) as (_ & H & _).
    exact H.
  - assert (Hne : "4" <> EmptyString) by discriminate.
    destruct (Hpoke' 0%nat "10 POKE B+4,9" p10 [] "POKE B+4,9" [] pm "B" "4"
                eq_refl eq_refl eq_refl eq_refl eq_refl
                (or_intror (conj eq_refl Hne))) as (_ & H & _).
    exact H.
  - exact (proj2 (Hrw "B+4" "9" false "B" "4" eq_refl) eq_refl
             ltac:(discriminate)).
Defined.

(** Whole programs: the alias is known before its assignment, and a
    line without a number is not scanned for assignments. *)
Example alias_examples :
  main default_args ["10 B=54272"; "20 POKE B+4,9"]
  = ["5 B=0:REG=212:DAT=213"; "10 B=0"; "20 OUT REG,4:OUT DAT,9"] /\
  main default_args ["10 poke s1 + 4 , 9 : POKE S1,0"; "20 PRINT:let s1 = 54272"]
  = ["5 B=0:REG=212:DAT=213"; "10 OUT REG,4:OUT DAT,9:OUT REG,0:OUT DAT,0";
     "20 PRINT:S1=0"] /\
  main default_args ["10 POKE B+4,9"; "B=54272"]
  = ["5 B=0:REG=212:DAT=213"; "10 POKE B+4,9"; "B=54272"].
Proof. repeat split; reflexivity. Qed.

(** ** C3: the header line *)

(** Claim C3.  The first output line is the header; its number is the
    number of the first numbered input line minus 5, or 0 if that is
    negative, and 5 when no input line has a number.  One output line
    follows for each input line. *)
Theorem header_line_first (a : args) (lines : list string) :
  exists rest,
    main a lines =
    (match first_numbered lines with
     | Some n => str_of_int (Z.max 0 (n - 5)) ++ " " ++ header_text a
     | None => "5 " ++ header_text a
     end) :: rest /\
    length rest = length lines.
Proof.
  eexists. rewrite main_lines. split; [reflexivity|]. by rewrite length_map.
Qed.

Example header_examples :
  main default_args ["100 PRINT"; "3 END"]
  = ["95 B=0:REG=212:DAT=213"; "100 PRINT"; "3 END"] /\
  main default_args ["REM one"; "2 END"; "0 END"]
  = ["0 B=0:REG=212:DAT=213"; "REM one"; "2 END"; "0 END"] /\
  main default_args ["REM no numbers"; "END"]
  = ["5 B=0:REG=212:DAT=213"; "REM no numbers"; "END"] /\
  main default_args [] = ["5 B=0:REG=212:DAT=213"].
Proof. repeat split; reflexivity. Qed.

(** ** C4: splitting and rejoining a body *)

(** Claim C4 as stated fails: blanks around a colon are lost. *)
Lemma split_join_counterexample :
  Forall (fun s => poke_rewrite ∅ false s = None) (split_colon_statements "A : B") /\
  process_line_body "A : B" ∅ false None ∅ "none" false = "A:B" /\
  process_line_body "A : B" ∅ false None ∅ "none" false <> "A : B".
Proof.
  split; [by repeat constructor|]. split; [reflexivity | discriminate].
Qed.

(** Claim C4, amended.  Under the no-op profile (no screen profile, no
    flag, no scale factor) and when no statement of the body is a
    sound-chip POKE, the rewritten body is the colon-join of the
    splitter's statements: the body with every segment trimmed and an
    empty last segment dropped.  It is the body itself when the body is
    tidy: no segment has blanks at its ends and the body does not end
    with a colon. *)
Theorem split_join_noop_profile
    (base_vars scale_for_vars : gset string) (screen_profile body : string) :
  screen_profile <> "ansi" ->
  Forall (fun s => poke_rewrite base_vars false s = None)
         (split_colon_statements body) ->
  process_line_body body base_vars false None scale_for_vars screen_profile false
  = join ":" (split_colon_statements body) /\
  (tidy body ->
   process_line_body body base_vars false None scale_for_vars screen_profile false
   = body).
Proof.
  intros Hp Hpoke.
  assert (H : process_line_body body base_vars false None scale_for_vars
                                screen_profile false
              = join ":" (split_colon_statements body)).
  { rewrite process_line_body_stmts. f_equal.
    pose proof (split_colon_statements_stripped body) as Hs.
    induction (split_colon_statements body) as [|x l IH]; [done|].
    inversion Hpoke as [|? ? Hx Hl]; subst. simpl.
    rewrite IH; [| done | intros t Ht; apply Hs; by right].
    unfold process_stmt, scale_stmt, rewrite_stmt. simpl.
    rewrite (Hs x) by by left. rewrite Hx.
    unfold map_chr_calls_to_profile.
    by rewrite (proj2 (String.eqb_neq _ _) Hp). }
  split; [done|]. intros Ht. rewrite H. by apply tidy_split.
Qed.

Lemma split_join_noop_profile_witness :
  process_line_body "PRINT 1::GOTO 10" ∅ false None ∅ "none" false
  = "PRINT 1::GOTO 10".
Proof.
  refine (proj2 (split_join_noop_profile ∅ ∅ "none" "PRINT 1::GOTO 10" _ _) _).
  - discriminate.
  - repeat constructor.
  - split; [repeat constructor | right; discriminate].
Defined.

(** ** C5: the range remark *)

(** Claim C5.  For a POKE that [rewrite_poke] recognises, with offset
    text [off]: when warnings are on and [off] reads as a base-10
    integer below 0 or above 24, the data statement ends with the
    remark [ : REM WARN: SID reg <value> out of 0-24]; when [off] is in
    range, when it does not read as an integer, or when warnings are
    off, the data statement is [OUT DAT,<value>] and nothing more. *)
Theorem range_remark_on_data_statement
    (addr val : string) (base_vars : gset string) (warn : bool)
    (out_reg out_dat : string) :
  rewrite_poke addr val base_vars warn = Some (out_reg, out_dat) ->
  exists off,
    poke_offset (squeeze (strip addr)) base_vars = Some off /\
    out_reg = "OUT REG," ++ off /\
    (forall v, warn = true -> py_int off = Some v -> (v < 0 \/ 24 < v)%Z ->
       out_dat = "OUT DAT," ++ strip val ++ " : REM WARN: SID reg "
                            ++ str_of_int v ++ " out of 0-24") /\
    (forall v, py_int off = Some v -> (0 <= v <= 24)%Z ->
       out_dat = "OUT DAT," ++ strip val) /\
    (py_int off = None -> out_dat = "OUT DAT," ++ strip val) /\
    (warn = false -> out_dat = "OUT DAT," ++ strip val).
Proof.
  intros H. apply rewrite_poke_inv in H as (off & Hoff & -> & ->).
  exists off. split; [done|]. split; [done|].
  unfold range_rem. repeat split.
  - intros v -> -> Hv.
    assert (E : (v <? 0)%Z || (v >? 24)%Z = true).
    { apply orb_true_iff. destruct Hv; [left | right]; lia. }
    by rewrite E.
  - intros v -> Hv.
    assert (E : (v <? 0)%Z || (v >? 24)%Z = false).
    { apply orb_false_iff. split; lia. }
    rewrite E. destruct warn; by rewrite app_str_nil_r.
  - intros ->. destruct warn; by rewrite app_str_nil_r.
  - intros ->. by rewrite app_str_nil_r.
Qed.

(** [POKE 54272+30,1] with warnings on. *)
Lemma range_remark_on_data_statement_witness :
  rewrite_poke "54272+30" "1" ∅ true
  = Some ("OUT REG,30", "OUT DAT,1 : REM WARN: SID reg 30 out of 0-24") /\
  exists off,
    poke_offset (squeeze (strip "54272+30")) ∅ = Some off /\
    "OUT REG,30" = "OUT REG," ++ off /\
    (forall v, true = true -> py_int off = Some v -> (v < 0 \/ 24 < v)%Z ->
       "OUT DAT,1 : REM WARN: SID reg 30 out of 0-24"
       = "OUT DAT," ++ strip "1" ++ " : REM WARN: SID reg "
                    ++ str_of_int v ++ " out of 0-24") /\
    (forall v, py_int off = Some v -> (0 <= v <= 24)%Z ->
       "OUT DAT,1 : REM WARN: SID reg 30 out of 0-24" = "OUT DAT," ++ strip "1") /\
    (py_int off = None ->
       "OUT DAT,1 : REM WARN: SID reg 30 out of 0-24" = "OUT DAT," ++ strip "1") /\
    (true = false ->
       "OUT DAT,1 : REM WARN: SID reg 30 out of 0-24" = "OUT DAT," ++ strip "1").
Proof.
  split; [reflexivity|].
  apply (range_remark_on_data_statement "54272+30" "1" ∅ true). reflexivity.
Defined.

(** The two runs of the specification's example. *)
Example range_remark_example :
  process_line_body "POKE 54272+30,1" ∅ true None ∅ "ansi" false
  = "OUT REG,30:OUT DAT,1 : REM WARN: SID reg 30 out of 0-24" /\
  process_line_body "POKE 54272+30,1" ∅ false None ∅ "ansi" false
  = "OUT REG,30:OUT DAT,1" /\
  process_line_body "POKE 54272+X*2,1" ∅ true None ∅ "ansi" false
  = "OUT REG,X*2:OUT DAT,1".
Proof. repeat split; reflexivity. Qed.

(** ** C6: scaling the bound of a simple FOR loop *)



Example for_bound_scaling_example :
  process_line_body "FOR T=1 TO 50:for w = 1 to 007:FOR T=2 TO 5:FOR I=1 TO 9"
                    ∅ false (Some 3%Z) ({["T"]} ∪ {["W"]}) "ansi" false
  = "FOR T=1 TO 150:FOR w=1 TO 21:FOR T=2 TO 5:FOR I=1 TO 9" /\
  process_line_body "FOR T = 1 TO 050" ∅ false (Some 1%Z) {["T"]} "ansi" false
  = "FOR T = 1 TO 050".
Proof. split; reflexivity. Qed.

(** ** C7: lines without a number *)

(** Claim C7 fails on the code as it is: a line without a number loses
    its trailing blanks ([raw.rstrip()] in the first pass), although the
    source's comments say such lines are kept as they are.  Here the
    input line ends with two spaces and the output line does not. *)
Theorem unnumbered_line_loses_trailing_blanks :
  main default_args ["REM keep  "] = ["5 B=0:REG=212:DAT=213"; "REM keep"] /\
  ~ In "REM keep  " (main default_args ["REM keep  "]).
Proof.
  split; [reflexivity|]. intros [H | [H | []]]; discriminate.
Qed.

(** ** C8: what the splitter returns *)

(** Claim C8 as stated fails: between two adjacent colons the splitter
    does emit an empty entry. *)
Lemma splitter_keeps_inner_empty_counterexample :
  split_colon_statements "A::B" = ["A"; ""; "B"] /\
  split_colon_statements "A::B" <> trimmed_nonempty_segments "A::B".
Proof. split; [reflexivity | discriminate]. Qed.

(** Claim C8, amended.  The text between colons ([segments], whose
    colon-join is the input and which hold no colon) is trimmed segment
    by segment; every segment that a colon follows gives one entry, empty
    or not, in order; the last segment gives an entry only if it is not
    empty once trimmed. *)
Theorem splitter_trims_and_drops_empty_tail (s : string) :
  join ":" (segments s) = s /\
  Forall (fun seg => all_of (fun c => negb (Ascii.eqb c ":")) seg = true)
         (segments s) /\
  split_colon_statements s =
  (map strip (removelast (segments s)) ++
   (if nonempty (strip (List.last (segments s) EmptyString))
    then [strip (List.last (segments s) EmptyString)] else []))%list.
Proof.
  split; [apply join_segments|].
  split; [apply segments_no_colon | apply split_colon_statements_spec].
Qed.

Example splitter_examples :
  split_colon_statements "A : B:" = ["A"; "B"] /\
  split_colon_statements "A:  " = ["A"] /\
  split_colon_statements ":" = [""] /\
  split_colon_statements "" = [].
Proof. repeat split; reflexivity. Qed.

(** ** C9: a second run over the emitted statements *)

(** Claim C9 as stated fails: under the default screen profile a second
    run replaces a mapped [CHR$] call inside an emitted statement. *)
Lemma poke_output_second_run_counterexample :
  rewrite_poke "54272+4" "ASC(CHR$(17))" ∅ false
  = Some ("OUT REG,4", "OUT DAT,ASC(CHR$(17))") /\
  process_stmt ∅ false None (a_scale_for_vars default_args) "ansi" false
               "OUT DAT,ASC(CHR$(17))"
  <> ["OUT DAT,ASC(CHR$(17))"].
Proof. split; [reflexivity | discriminate]. Qed.

(** Claim C9, amended.  In a second run with the same options neither
    emitted statement is taken for a FOR, GET or POKE statement; each
    goes to the screen mapping only.  Hence both are unchanged when the
    screen profile is not [ansi], and so is, under any profile, a
    statement without a dollar sign. *)
Theorem poke_output_second_run
    (base_vars : gset string) (warn : bool) (scale_for : option Z)
    (scale_for_vars : gset string) (screen_profile : string)
    (map_get_to_inkey : bool) (addr val out_reg out_dat : string) :
  rewrite_poke addr val base_vars warn = Some (out_reg, out_dat) ->
  let P := process_stmt base_vars warn scale_for scale_for_vars screen_profile
                        map_get_to_inkey in
  P out_reg = [map_chr_calls_to_profile out_reg screen_profile] /\
  P out_dat = [map_chr_calls_to_profile out_dat screen_profile] /\
  (screen_profile <> "ansi" -> P out_reg = [out_reg] /\ P out_dat = [out_dat]) /\
  (all_of not_dollar out_reg = true -> P out_reg = [out_reg]) /\
  (all_of not_dollar out_dat = true -> P out_dat = [out_dat]).
Proof.
  intros H P.
  apply rewrite_poke_stripped in H as ([t1 ->] & [t2 ->] & H1 & H2).
  assert (E1 : P ("OUT REG," ++ t1)
               = [map_chr_calls_to_profile ("OUT REG," ++ t1) screen_profile])
    by by apply process_stmt_out.
  assert (E2 : P ("OUT DAT," ++ t2)
               = [map_chr_calls_to_profile ("OUT DAT," ++ t2) screen_profile])
    by by apply process_stmt_out.
  rewrite E1, E2. repeat split.
  - by rewrite map_chr_no_profile.
  - by rewrite map_chr_no_profile.
  - intros Hd. by rewrite map_chr_without_dollar.
  - intros Hd. by rewrite map_chr_without_dollar.
Qed.

Lemma poke_output_second_run_witness :
  process_stmt ∅ false None ∅ "ansi" false "OUT REG,5" = ["OUT REG,5"] /\
  process_stmt ∅ false None ∅ "ansi" false "OUT DAT,10" = ["OUT DAT,10"].
Proof.
  pose proof (poke_output_second_run ∅ false None ∅ "ansi" false
                "54272+5" "10" "OUT REG,5" "OUT DAT,10" eq_refl)
    as (_ & _ & _ & H1 & H2).
  split; [exact (H1 eq_refl) | exact (H2 eq_refl)].
Defined.

(** ** C10: a bare trailing plus *)

(** The statement with an alias and a bare plus does not always pass
    unmodified: [rewrite_poke] reports no match, and the statement then
    goes through the screen mapping, which under the profile [ansi]
    replaces a mapped [CHR$] call in it. *)
Lemma bare_trailing_plus_counterexample :
  (re_match POKE_STMT_RE "POKE B+,CHR$(17)"
   = Some (MatchObj "POKE B+,CHR$(17)" 0 16 [(2, (8, 16)); (1, (5, 7))])) /\
  (squeeze (strip "B+") = ("B" ++ "+")%string) /\
  (rewrite_poke "B+" "CHR$(17)" {["B"]} false = None) /\
  (process_stmt {["B"]} false None ∅ "ansi" false "POKE B+,CHR$(17)"
   = [("POKE B+," ++ DQUOTE ++ ANSI_SEQ ++ "[B" ++ DQUOTE)%string]) /\
  (process_stmt {["B"]} false None ∅ "ansi" false "POKE B+,CHR$(17)"
   <> ["POKE B+,CHR$(17)"]).
Proof. repeat split; try reflexivity. discriminate. Qed.

(** Claim C10, amended.  For a statement the POKE pattern matches: if its
    address expression, blanks removed, is exactly [54272+], it is
    rewritten to [OUT REG,] (empty offset) and [OUT DAT,<value>]; if it
    is a variable name followed by a bare [+], [rewrite_poke] reports no
    match, whatever the alias set, no OUT statement is produced, and the
    statement goes, trimmed, through the screen mapping alone: it comes
    out unchanged when the screen profile is not [ansi] and, under any
    profile, when it holds no dollar sign. *)
Theorem bare_trailing_plus
    (base_vars : gset string) (warn : bool) (scale_for : option Z)
    (scale_for_vars : gset string) (screen_profile : string)
    (map_get_to_inkey : bool) (stmt : string) (pm : match_obj) :
  re_match POKE_STMT_RE (strip stmt) = Some pm ->
  let P := process_stmt base_vars warn scale_for scale_for_vars screen_profile
                        map_get_to_inkey in
  (squeeze (strip (group_str pm 1)) = "54272+" ->
   P stmt = ["OUT REG,"; "OUT DAT," ++ strip (group_str pm 2)]) /\
  (forall alias,
     is_var alias = true ->
     squeeze (strip (group_str pm 1)) = alias ++ "+" ->
     rewrite_poke (group_str pm 1) (group_str pm 2) base_vars warn = None /\
     P stmt = [map_chr_calls_to_profile (strip stmt) screen_profile] /\
     (screen_profile <> "ansi" -> P stmt = [strip stmt]) /\
     (all_of not_dollar stmt = true -> P stmt = [strip stmt])).
Proof.
  intros Hpm P. unfold P.
  rewrite (process_stmt_poke _ _ _ _ _ _ stmt pm Hpm). split.
  - intros H.
    rewrite (rewrite_poke_offset _ _ _ _ EmptyString).
    + simpl. by rewrite range_rem_empty, app_str_nil_r.
    + rewrite H. apply (poke_offset_literal EmptyString).
  - intros alias Ha H.
    assert (Hn : rewrite_poke (group_str pm 1) (group_str pm 2) base_vars warn = None).
    { unfold rewrite_poke. by rewrite H, poke_offset_bare_plus. }
    rewrite Hn. repeat split.
    + intros Hp. unfold map_chr_calls_to_profile.
      by rewrite (proj2 (String.eqb_neq _ _) Hp).
    + intros Hd. rewrite map_chr_without_dollar; [done|].
      by apply all_of_strip.
Qed.

(** Both branches on concrete statements: the literal base with a bare
    plus is rewritten with an empty offset; the alias with a bare plus
    is left as it is when it holds no dollar sign. *)
Lemma bare_trailing_plus_witness :
  process_stmt ∅ false None ∅ "ansi" false "POKE 54272+,1"
  = ["OUT REG,"; "OUT DAT,1"] /\
  process_stmt {["B"]} false None ∅ "ansi" false "POKE B+,1" = ["POKE B+,1"].
Proof.
  split.
  - exact (proj1 (bare_trailing_plus ∅ false None ∅ "ansi" false "POKE 54272+,1"
                    (MatchObj "POKE 54272+,1" 0 13 [(2, (12, 13)); (1, (5, 11))])
                    eq_refl) eq_refl).
  - destruct (proj2 (bare_trailing_plus {["B"]} false None ∅ "ansi" false
                       "POKE B+,1"
                       (MatchObj "POKE B+,1" 0 9 [(2, (8, 9)); (1, (5, 7))])
                       eq_refl) "B" eq_refl eq_refl) as (_ & _ & _ & H).
    exact (H eq_refl).
Defined.

(** With [B] a known alias, [POKE B+,1] is left as it is, while
    [POKE 54272+,1] is rewritten. *)
Example bare_trailing_plus_example :
  process_line_body "POKE B+,1" {["B"]} false None ∅ "ansi" false = "POKE B+,1" /\
  process_line_body "POKE 54272+,1" {["B"]} false None ∅ "ansi" false
  = "OUT REG,:OUT DAT,1".
Proof. split; reflexivity. Qed.

(** * Further properties of the code *)

(** X1 ([main], the first pass and the end of the second pass).  A line
    made of blanks, a run of digits and a rest that does not go on with
    a digit is a numbered line: its number is the value of the digits,
    its body the trimmed rest.  Its output line begins with the number
    in canonical decimal form, so the blanks before the number and its
    leading zeros are gone; then comes either nothing or one blank and
    a body that is not blank. *)
Theorem numbered_line_renumbered (a : args) (lines : list string) (i : nat)
        (w ds rest : string) :
  nth_error lines i = Some (w ++ ds ++ rest) ->
  all_of is_space w = true -> all_of is_digit ds = true -> ds <> EmptyString ->
  head_not is_digit rest = true -> all_of is_dot rest = true ->
  exists n tail,
    py_int ds = Some n /\ (0 <= n)%Z /\
    parse_line (w ++ ds ++ rest) = (Some n, strip rest) /\
    nth_error (main a lines) (S i) = Some (str_of_int n ++ tail) /\
    (tail = EmptyString \/ exists b, tail = " " ++ b /\ strip b <> EmptyString).
Proof.
  intros Hi Hw Hds Hne Hh Hrest.
  destruct (LINE_NUM_RE_parse w ds rest Hw Hds Hne Hh Hrest) as (m & Hm & H1 & H2).
  destruct (py_int_digits ds Hds Hne) as (n & Hn & Hn0).
  assert (parse_line (w ++ ds ++ rest) = (Some n, strip rest)) as Hp.
  { unfold parse_line, line_number. by rewrite Hm, H1, H2, Hn, strip_lstrip. }
  destruct (numbered_line_output a lines i _ n _ Hi Hp) as (tail & Ho & Ht).
  by exists n, tail.
Qed.

Lemma numbered_line_renumbered_witness :
  exists n tail,
    py_int "010" = Some n /\ (0 <= n)%Z /\
    parse_line ("  " ++ "010" ++ " PRINT 1") = (Some n, strip " PRINT 1") /\
    nth_error (main default_args ["  010 PRINT 1"]) 1
      = Some (str_of_int n ++ tail) /\
    (tail = EmptyString \/ exists b, tail = " " ++ b /\ strip b <> EmptyString).
Proof.
  apply (numbered_line_renumbered default_args ["  010 PRINT 1"] 0
           "  " "010" " PRINT 1"); [reflexivity .. | | reflexivity | reflexivity].
  discriminate.
Defined.

(** X2 ([main], the header).  The header is itself a numbered line: read
    back by the first pass it gives its number and, as its body, the
    header text unchanged.  Its number is never negative and never
    above the number of the first numbered line; the two are equal
    exactly when that line is numbered 0, and then the output has two
    lines numbered 0. *)
Theorem header_is_numbered_line (a : args) (lines : list string) :
  exists h,
    hd_error (main a lines) = Some (str_of_int h ++ " " ++ header_text a) /\
    (0 <= h)%Z /\
    parse_line (str_of_int h ++ " " ++ header_text a) = (Some h, header_text a) /\
    match first_numbered lines with
    | Some n => (0 <= n)%Z /\ (h <= n)%Z /\ (h = n <-> n = 0%Z)
    | None => h = 5%Z
    end.
Proof.
  set (h := match first_numbered lines with
            | Some n => Z.max 0 (n - 5) | None => 5%Z end).
  assert (0 <= h)%Z as Hh0 by (subst h; destruct (first_numbered lines); lia).
  exists h. repeat split.
  - rewrite main_lines. simpl. subst h. by destruct (first_numbered lines).
  - done.
  - destruct (str_of_int_digits h Hh0) as (Hd & Hne & Hint).
    destruct (header_text_plain a) as [Hs Hdot].
    destruct (LINE_NUM_RE_parse EmptyString (str_of_int h) (" " ++ header_text a))
      as (m & Hm & H1 & H2); [done.. |].
    change (EmptyString ++ str_of_int h ++ " " ++ header_text a)
      with (str_of_int h ++ " " ++ header_text a) in Hm.
    unfold parse_line, line_number. rewrite Hm, H1, H2, Hint, strip_lstrip.
    f_equal. change (" " ++ header_text a) with (String " " (header_text a)).
    unfold strip at 1, lstrip. simpl lstrip_by. exact Hs.
  - subst h. destruct (first_numbered lines) as [n|] eqn:E; [|done].
    pose proof (first_numbered_nonneg lines n E). lia.
Qed.

(** X3 ([main], the first pass).  The alias set holds exactly the
    variables, in upper case, of the statements of numbered lines that
    assign 54272 to a variable; each of them is a variable name, and a
    line without a number adds nothing. *)
Theorem alias_set_exact (lines : list string) (x : string) :
  x ∈ base_vars_of (first_pass lines) <->
  exists raw m stmt am,
    In raw lines /\ re_match LINE_NUM_RE raw = Some m /\
    In stmt (split_colon_statements (strip (group_str m 2))) /\
    re_match ASSIGN_BASE_RE stmt = Some am /\
    x = upper (group_str am 1) /\ is_var x = true /\ upper x = x.
Proof.
  split.
  - intros H. apply fold_pass1_origin in H as [H | H]; [set_solver|].
    destruct H as (raw & m & stmt & am & Hin & Hm & Hs & Ham & ->).
    exists raw, m, stmt, am. repeat split; try done.
    + rewrite upper_var. by eapply ASSIGN_BASE_RE_var.
    + apply upper_idem.
  - intros (raw & m & stmt & am & Hin & Hm & Hs & Ham & -> & _).
    by eapply first_pass_finds.
Qed.

(** X4 ([rewrite_poke]).  The address forms that are rewritten, and no
    others: with the blanks of the address removed, the literal base
    and a plus sign (the offset is what follows, be it empty), the
    literal base alone, a known alias alone (offset 0 in both cases),
    or a known alias, a plus sign and an offset that is not empty.  The
    two statements are then [OUT REG,<offset>] and [OUT DAT,<value>]
    with the range remark. *)
Theorem rewrite_poke_forms (addr val : string) (base_vars : gset string)
        (warn : bool) (out_reg out_dat : string) :
  rewrite_poke addr val base_vars warn = Some (out_reg, out_dat) <->
  exists off,
    out_reg = "OUT REG," ++ off /\
    out_dat = "OUT DAT," ++ strip val ++ range_rem warn off /\
    (remove_spaces addr = "54272+" ++ off \/
     (remove_spaces addr = "54272" /\ off = "0") \/
     exists alias,
       is_var alias = true /\ upper alias ∈ base_vars /\
       ((remove_spaces addr = alias /\ off = "0") \/
        (remove_spaces addr = alias ++ "+" ++ off /\ off <> EmptyString))).
Proof.
  pose proof (poke_offset_forms (remove_spaces addr)) as F.
  split.
  - intros H. apply rewrite_poke_inv in H as (off & Ho & -> & ->).
    exists off. repeat split.
    rewrite squeeze_strip in Ho. by apply F; [apply remove_spaces_clean|].
  - intros (off & -> & -> & H). apply rewrite_poke_offset.
    rewrite squeeze_strip. by apply F; [apply remove_spaces_clean|].
Qed.

(** X5 ([process_line_body], the POKE branch).  For a POKE statement the
    test [if out_reg and out_dat] never fails: whatever the options,
    the statement becomes the two statements of [rewrite_poke] when the
    address is recognised, and otherwise goes, trimmed, through the
    screen mapping alone.  The two OUT statements do not go through the
    screen mapping. *)
Theorem poke_statement_outcome
    (base_vars : gset string) (warn : bool) (scale_for : option Z)
    (scale_for_vars : gset string) (screen_profile : string)
    (map_get_to_inkey : bool) (stmt : string) (pm : match_obj) :
  re_match POKE_STMT_RE (strip stmt) = Some pm ->
  process_stmt base_vars warn scale_for scale_for_vars screen_profile
               map_get_to_inkey stmt
  = match rewrite_poke (group_str pm 1) (group_str pm 2) base_vars warn with
    | Some (out_reg, out_dat) => [out_reg; out_dat]
    | None => [map_chr_calls_to_profile (strip stmt) screen_profile]
    end.
Proof.
  intros Hpm.
  rewrite (process_stmt_poke base_vars warn scale_for scale_for_vars
             screen_profile map_get_to_inkey stmt pm Hpm).
  destruct (rewrite_poke _ _ _ _) as [[out_reg out_dat]|] eqn:E; [|done].
  apply rewrite_poke_stripped in E as ((t1 & ->) & (t2 & ->) & _). done.
Qed.

Lemma poke_statement_outcome_witness :
  process_stmt ∅ true (Some 2%Z) ∅ "ansi" true " poke 54272 + 30 , CHR$(17) "
  = ["OUT REG,30"; "OUT DAT,CHR$(17) : REM WARN: SID reg 30 out of 0-24"].
Proof.
  assert (re_match POKE_STMT_RE (strip " poke 54272 + 30 , CHR$(17) ")
          = Some (MatchObj "poke 54272 + 30 , CHR$(17)" 0 26
                           [(2, (18, 26)); (1, (5, 15))])) as H by reflexivity.
  exact (poke_statement_outcome ∅ true (Some 2%Z) ∅ "ansi" true _ _ H).
Defined.

(** X6 ([process_line_body], the GET branch).  A statement the GET
    pattern matches ([GET <var>] or [GET <var>$]) is, with
    [--map-get-to-inkey], replaced by [<VAR>$=INKEY$] with the variable
    in upper case, whether or not the dollar sign was there; without
    the flag it is only trimmed.  No other option changes this. *)
Theorem get_statement_mapping
    (base_vars : gset string) (warn : bool) (scale_for : option Z)
    (scale_for_vars : gset string) (screen_profile : string)
    (stmt : string) (mg : match_obj) :
  re_match GET_RE (strip stmt) = Some mg ->
  is_var (group_str mg 1) = true /\
  process_stmt base_vars warn scale_for scale_for_vars screen_profile true stmt
  = [upper (group_str mg 1) ++ "$=INKEY$"] /\
  process_stmt base_vars warn scale_for scale_for_vars screen_profile false stmt
  = [strip stmt].
Proof.
  intros Hm. pose proof (GET_keyword _ _ Hm) as HG.
  assert (keyword "FOR" (strip stmt) = false) as HF
    by by apply (keyword_exclusive "G" "F" "ET" "OR").
  assert (keyword "POKE" (strip stmt) = false) as HP
    by by apply (keyword_exclusive "G" "P" "ET" "OKE").
  split; [by eapply GET_RE_var|].
  unfold process_stmt. rewrite (scale_stmt_other scale_for scale_for_vars stmt HF).
  unfold rewrite_stmt, poke_rewrite. rewrite Hm, (no_keyword_no_POKE _ HP).
  split; [done|].
  rewrite map_chr_unmentioned; [done|].
  by eapply unmentioned_without_paren, get_no_paren.
Qed.

Lemma get_statement_mapping_witness :
  process_stmt ∅ true (Some 3%Z) {["K"]} "ansi" true " get k$ " = ["K$=INKEY$"] /\
  process_stmt ∅ true (Some 3%Z) {["K"]} "ansi" false " get k$ " = ["get k$"].
Proof.
  destruct (re_match GET_RE (strip " get k$ ")) as [mg|] eqn:E; [|discriminate E].
  vm_compute in E. injection E as <-.
  exact (proj2 (get_statement_mapping ∅ true (Some 3%Z) {["K"]} "ansi" " get k$ "
                  _ eq_refl)).
Defined.

(** X7 ([process_line_body]).  Statements that begin with none of FOR,
    GET and POKE and hold no [CHR$(] are never changed, whatever the
    options: the body comes back as its statements joined by colons,
    and unchanged when it is tidy. *)
Theorem neutral_statements_unchanged
    (base_vars : gset string) (warn : bool) (scale_for : option Z)
    (scale_for_vars : gset string) (screen_profile : string)
    (map_get_to_inkey : bool) (body : string) :
  Forall (fun s => neutral s = true) (split_colon_statements body) ->
  process_line_body body base_vars warn scale_for scale_for_vars screen_profile
                    map_get_to_inkey
  = join ":" (split_colon_statements body) /\
  (tidy body ->
   process_line_body body base_vars warn scale_for scale_for_vars screen_profile
                     map_get_to_inkey
   = body).
Proof.
  intros Hn.
  assert (H : process_line_body body base_vars warn scale_for scale_for_vars
                                screen_profile map_get_to_inkey
              = join ":" (split_colon_statements body)).
  { rewrite process_line_body_stmts. f_equal.
    pose proof (split_colon_statements_stripped body) as Hs.
    induction (split_colon_statements body) as [|x l IH]; [done|].
    inversion Hn as [|? ? Hx Hl]; subst. simpl.
    rewrite IH; [| done | intros t Ht; apply Hs; by right].
    rewrite process_stmt_neutral; [done | apply Hs; by left | done]. }
  split; [done|]. intros Ht. rewrite H. by apply tidy_split.
Qed.

Lemma neutral_statements_unchanged_witness :
  process_line_body "PRINT A$::GOTO 10" {["B"]} true (Some 3%Z) {["T"]} "ansi" true
  = "PRINT A$::GOTO 10".
Proof.
  apply (neutral_statements_unchanged {["B"]} true (Some 3%Z) {["T"]} "ansi" true
           "PRINT A$::GOTO 10").
  - repeat constructor.
  - split; [repeat constructor | right; discriminate].
Defined.

(** X8 ([map_chr_calls_to_profile]).  A statement with one call
    [CHR$(<digits>)], in any letter case and with blanks around the
    digits, and no dollar sign elsewhere: under the profile [ansi] the
    call is replaced by the quoted escape sequence when the code is in
    the table, and kept as written when it is not; the text around the
    call is kept.  Under any other profile the statement is unchanged.
    Through [process_line_body] the same holds for a trimmed statement
    that begins with none of FOR, GET and POKE. *)
Theorem chr_call_mapping (pre kw w1 ds w2 post : string) :
  all_of not_dollar pre = true -> all_of not_dollar post = true ->
  String.length kw = 5%nat -> starts_ci "CHR$(" kw = true ->
  all_of is_space w1 = true -> all_of is_digit ds = true -> ds <> EmptyString ->
  all_of is_space w2 = true ->
  let call := kw ++ w1 ++ ds ++ w2 ++ ")" in
  let stmt := pre ++ kw ++ w1 ++ ds ++ w2 ++ ")" ++ post in
  exists n,
    py_int ds = Some n /\
    let mapped :=
      pre ++ match ANSI_CHR_MAP !! n with
             | Some esc => DQUOTE ++ esc ++ DQUOTE
             | None => call
             end ++ post in
    map_chr_calls_to_profile stmt "ansi" = mapped /\
    (forall profile, profile <> "ansi" ->
       map_chr_calls_to_profile stmt profile = stmt) /\
    (forall base_vars warn scale_for scale_for_vars map_get_to_inkey,
       strip stmt = stmt -> keyword "FOR" stmt = false ->
       keyword "GET" stmt = false -> keyword "POKE" stmt = false ->
       process_stmt base_vars warn scale_for scale_for_vars "ansi"
                    map_get_to_inkey stmt = [mapped]).
Proof.
  intros Hpre Hpost Hl Hkw Hw1 Hds Hne Hw2 call stmt.
  destruct (py_int_digits ds Hds Hne) as (n & Hn & _).
  exists n. split; [done|].
  pose proof (map_chr_one_call pre kw w1 ds w2 post
                Hpre Hpost Hl Hkw Hw1 Hds Hne Hw2) as H.
  rewrite Hn in H. fold stmt call in H.
  split; [done|]. split.
  - intros profile Hp. by apply map_chr_no_profile.
  - intros base_vars warn scale_for scale_for_vars map_get_to_inkey Hs HF HG HP.
    rewrite process_stmt_other; rewrite Hs; try done.
    unfold poke_rewrite. by rewrite (no_keyword_no_POKE _ HP), H.
Qed.

Lemma chr_call_mapping_witness :
  map_chr_calls_to_profile "PRINT chr$( 147);A" "ansi"
  = "PRINT " ++ DQUOTE ++ ANSI_SEQ ++ "[2J" ++ ANSI_SEQ ++ "[H" ++ DQUOTE ++ ";A" /\
  map_chr_calls_to_profile "PRINT chr$( 14);A" "ansi" = "PRINT chr$( 14);A".
Proof.
  split.
  - destruct (chr_call_mapping "PRINT " "chr$(" " " "147" "" ";A"
                eq_refl eq_refl eq_refl eq_refl eq_refl eq_refl
                ltac:(discriminate) eq_refl) as (n & Hn & H & _).
    vm_compute in Hn. injection Hn as <-. exact H.
  - destruct (chr_call_mapping "PRINT " "chr$(" " " "14" "" ";A"
                eq_refl eq_refl eq_refl eq_refl eq_refl eq_refl
                ltac:(discriminate) eq_refl) as (n & Hn & H & _).
    vm_compute in Hn. injection Hn as <-. exact H.
Defined.

(** X9 ([main], lines without a number).  A line whose first character
    after the blanks is not a digit is not read as a numbered line:
    whatever it holds, be it a POKE to the SID or an assignment of
    54272, it is written out with only its trailing blanks removed. *)
Theorem unnumbered_line_passthrough (a : args) (lines : list string) (i : nat)
        (raw : string) :
  nth_error lines i = Some raw ->
  all_of is_dot raw = true -> head_not is_digit (lstrip raw) = true ->
  parse_line raw = (None, rstrip raw) /\
  nth_error (main a lines) (S i) = Some (rstrip raw).
Proof.
  intros Hi Hdot Hh.
  assert (re_match LINE_NUM_RE raw = None) as Hm.
  { destruct (re_match LINE_NUM_RE raw) as [m|] eqn:E; [|done].
    assert (is_Some (re_match LINE_NUM_RE raw)) as Hs by (rewrite E; eauto).
    apply (numbered_iff_digit raw Hdot) in Hs as (c & t & Hc & Hd).
    rewrite Hc in Hh. simpl in Hh. by rewrite Hd in Hh. }
  split.
  - unfold parse_line. by rewrite Hm.
  - by apply unnumbered_line_output.
Qed.

Lemma unnumbered_line_passthrough_witness :
  parse_line " POKE 54272+4,9  " = (None, " POKE 54272+4,9") /\
  nth_error (main default_args ["10 B=54272"; " POKE 54272+4,9  "]) 2
  = Some " POKE 54272+4,9".
Proof.
  exact (unnumbered_line_passthrough default_args
           ["10 B=54272"; " POKE 54272+4,9  "] 1 " POKE 54272+4,9  "
           eq_refl eq_refl eq_refl).
Defined.

(** X10 ([main], the post-step of the second pass).  In the output of a
    numbered line no statement assigns 54272 to a known alias any more:
    the line is its number, then nothing or one blank and a body, and
    every statement of that body that still has the form of a base
    assignment names a variable outside the alias set. *)
Theorem no_base_assignment_left (a : args) (lines : list string) (i : nat)
        (raw : string) (m : match_obj) :
  nth_error lines i = Some raw -> re_match LINE_NUM_RE raw = Some m ->
  exists new_body,
    nth_error (main a lines) (S i)
    = Some (if nonempty (strip new_body)
            then str_of_int (line_number m) ++ " " ++ new_body
            else str_of_int (line_number m)) /\
    forall s am,
      In s (split_colon_statements new_body) ->
      re_match ASSIGN_BASE_RE s = Some am ->
      upper (group_str am 1) ∉ base_vars_of (first_pass lines).
Proof.
  intros Hi Hm. rewrite main_lines. simpl.
  rewrite (map_nth_error _ _ _ Hi). unfold parse_line. rewrite Hm.
  unfold convert_line. eexists. split; [reflexivity|].
  intros s am. apply zero_base_assigns_done.
Qed.

Lemma no_base_assignment_left_witness :
  exists new_body,
    nth_error (main default_args ["10 let b = 54272:C=54272"; "C=54272"]) 1
    = Some (if nonempty (strip new_body) then "10" ++ " " ++ new_body else "10") /\
    forall s am,
      In s (split_colon_statements new_body) ->
      re_match ASSIGN_BASE_RE s = Some am ->
      upper (group_str am 1)
        ∉ base_vars_of (first_pass ["10 let b = 54272:C=54272"; "C=54272"]).
Proof.
  destruct (re_match LINE_NUM_RE "10 let b = 54272:C=54272") as [m|] eqn:E;
    [|discriminate E].
  vm_compute in E. injection E as <-.
  exact (no_base_assignment_left default_args
           ["10 let b = 54272:C=54272"; "C=54272"] 0 _ _ eq_refl eq_refl).
Defined.

(** X11 ([process_line_body], a FOR statement in both loops).  A simple
    FOR statement leaves [process_line_body] as the first loop wrote
    it: neither the GET rule, nor the POKE rule, nor the screen mapping
    touches it.  The scaled statement is again a simple FOR statement
    on the same variable, so scaling what was scaled multiplies the
    bound again: the scaling is not idempotent. *)
Theorem for_statement_outcome
    (base_vars : gset string) (warn : bool) (scale_for : option Z)
    (scale_for_vars : gset string) (screen_profile : string)
    (map_get_to_inkey : bool) (stmt : string) (fm : match_obj) :
  re_match FOR_RE (strip stmt) = Some fm ->
  process_stmt base_vars warn scale_for scale_for_vars screen_profile
               map_get_to_inkey stmt
  = [scale_stmt scale_for scale_for_vars stmt] /\
  exists bound,
    py_int (group_str fm 2) = Some bound /\
    forall f g,
      (1 < f)%Z -> (1 < g)%Z -> upper (group_str fm 1) ∈ scale_for_vars ->
      scale_stmt (Some g) scale_for_vars (scale_stmt (Some f) scale_for_vars stmt)
      = "FOR " ++ group_str fm 1 ++ "=1 TO " ++ str_of_int (bound * f * g).
Proof.
  intros Hm. split.
  - destruct (scaled_for_matches scale_for scale_for_vars stmt fm Hm) as [fm' Hfm'].
    unfold process_stmt. by eapply rewrite_stmt_for.
  - destruct (FOR_RE_groups _ _ Hm) as (Hv & Hd & Hne).
    destruct (scale_stmt_for (Some 2%Z) scale_for_vars stmt fm Hm)
      as (bound & Hb & Hb0 & _).
    exists bound. split; [done|]. intros f g Hf Hg Hin.
    destruct (scale_stmt_for (Some f) scale_for_vars stmt fm Hm)
      as (bound' & Hb' & _ & ->).
    rewrite Hb in Hb'. injection Hb' as <-.
    rewrite (proj2 (Z.ltb_lt 1 f) Hf), (bool_decide_eq_true_2 _ Hin). cbn [andb].
    destruct (str_of_int_digits (bound * f)) as (Hd' & Hne' & Hint); [nia|].
    destruct (FOR_RE_canonical (group_str fm 1) (str_of_int (bound * f)) Hv Hd' Hne')
      as (fm1 & Hfm1 & H1 & H2).
    rewrite <- (for_canonical_stripped (group_str fm 1) _ Hd' Hne') in Hfm1.
    destruct (scale_stmt_for (Some g) scale_for_vars _ fm1 Hfm1)
      as (b1 & Hb1 & _ & ->).
    rewrite H2, Hint in Hb1. injection Hb1 as <-.
    rewrite H1, (proj2 (Z.ltb_lt 1 g) Hg), (bool_decide_eq_true_2 _ Hin). done.
Qed.

Lemma for_statement_outcome_witness :
  process_stmt ∅ true (Some 3%Z) {["T"]} "ansi" true " for t = 1 to 050 "
  = [scale_stmt (Some 3%Z) {["T"]} " for t = 1 to 050 "] /\
  exists bound,
    py_int "050" = Some bound /\
    forall f g,
      (1 < f)%Z -> (1 < g)%Z -> upper "t" ∈ ({["T"]} : gset string) ->
      scale_stmt (Some g) {["T"]} (scale_stmt (Some f) {["T"]} " for t = 1 to 050 ")
      = "FOR " ++ "t" ++ "=1 TO " ++ str_of_int (bound * f * g).
Proof.
  destruct (re_match FOR_RE (strip " for t = 1 to 050 ")) as [fm|] eqn:E;
    [|discriminate E].
  vm_compute in E. injection E as <-.
  exact (for_statement_outcome ∅ true (Some 3%Z) {["T"]} "ansi" true
           " for t = 1 to 050 " _ eq_refl).
Defined.

(** X12 ([process_line_body] with [POKE_STMT_RE] and [rewrite_poke]).  A
    POKE statement written out: the keyword in any letter case, blanks,
    an address without comma, a comma, and a value, with any blanks
    around the parts.  The address is the text up to the first comma
    and the value all the rest, further commas included; the statement
    becomes the two statements of [rewrite_poke] on them when the
    address is recognised, and otherwise goes, trimmed, through the
    screen mapping.  With [54272+<offset>] as the address, blanks in it
    or not, the result is [OUT REG,<offset>] and [OUT DAT,<value>]
    with the range remark. *)
Theorem poke_statement_written_out
    (base_vars : gset string) (warn : bool) (scale_for : option Z)
    (scale_for_vars : gset string) (screen_profile : string)
    (map_get_to_inkey : bool) (w0 kw w1 addr w2 w3 val w4 : string) :
  all_of is_space w0 = true ->
  String.length kw = 4%nat -> starts_ci "POKE" kw = true ->
  all_of is_space w1 = true -> w1 <> EmptyString ->
  strip addr = addr -> addr <> EmptyString ->
  all_of is_dot addr = true -> all_of not_comma addr = true ->
  all_of is_space w2 = true -> all_of is_space w3 = true ->
  strip val = val -> val <> EmptyString -> all_of is_dot val = true ->
  all_of is_space w4 = true ->
  let core := kw ++ w1 ++ addr ++ w2 ++ "," ++ w3 ++ val in
  let P := process_stmt base_vars warn scale_for scale_for_vars screen_profile
                        map_get_to_inkey in
  P (w0 ++ core ++ w4)
  = match rewrite_poke addr val base_vars warn with
    | Some (out_reg, out_dat) => [out_reg; out_dat]
    | None => [map_chr_calls_to_profile core screen_profile]
    end /\
  (forall off,
     remove_spaces addr = "54272+" ++ off ->
     P (w0 ++ core ++ w4)
     = ["OUT REG," ++ off; "OUT DAT," ++ val ++ range_rem warn off]).
Proof.
  intros Hw0 Hl Hkw Hw1 Hw1ne Hsa Hane Hda Hca Hw2 Hw3 Hsv Hvne Hdv Hw4 core P.
  destruct (POKE_STMT_RE_parse EmptyString kw w1 addr w2 w3 val EmptyString)
    as (pm & Hpm & Hg1 & Hg2); try done.
  rewrite app_str_nil_r in Hpm.
  change (EmptyString ++ kw ++ w1 ++ addr ++ w2 ++ "," ++ w3 ++ val)
    with core in Hpm.
  assert (strip core = core) as Hcore.
  { subst core. destruct kw as [|k1 kw]; [done|].
    replace (String k1 kw ++ w1 ++ addr ++ w2 ++ "," ++ w3 ++ val)
      with (String k1 (kw ++ w1 ++ addr ++ w2 ++ "," ++ w3) ++ val)
      by (simpl; by rewrite !app_str_assoc).
    apply poke_text_stripped; try done.
    simpl in Hkw. apply andb_true_iff in Hkw as [Hk _].
    by apply (ci_letter_not_space "P"). }
  assert (strip (w0 ++ core ++ w4) = core) as Hs
    by by apply strip_blanks_around.
  assert (P (w0 ++ core ++ w4)
          = match rewrite_poke addr val base_vars warn with
            | Some (out_reg, out_dat) => [out_reg; out_dat]
            | None => [map_chr_calls_to_profile core screen_profile]
            end) as HP.
  { subst P. rewrite <- Hs in Hpm.
    rewrite (process_stmt_poke base_vars warn scale_for scale_for_vars
               screen_profile map_get_to_inkey _ pm Hpm).
    rewrite Hg1, Hg2, Hs.
    destruct (rewrite_poke _ _ _ _) as [[out_reg out_dat]|] eqn:E; [|done].
    apply rewrite_poke_stripped in E as ((t1 & ->) & (t2 & ->) & _). done. }
  split; [done|]. intros off Hoff. rewrite HP.
  rewrite (rewrite_poke_offset addr val base_vars warn off).
  - by rewrite Hsv.
  - rewrite squeeze_strip, Hoff. apply poke_offset_literal.
Qed.

Lemma poke_statement_written_out_witness :
  process_stmt ∅ true None ∅ "ansi" false " poke 54272 + 30 , PEEK(1),2 "
  = ["OUT REG,30"; "OUT DAT,PEEK(1),2 : REM WARN: SID reg 30 out of 0-24"].
Proof.
  exact (proj2 (poke_statement_written_out ∅ true None ∅ "ansi" false
                  " " "poke" " " "54272 + 30" " " " " "PEEK(1),2" " "
                  eq_refl eq_refl eq_refl eq_refl ltac:(discriminate)
                  eq_refl ltac:(discriminate) eq_refl eq_refl eq_refl eq_refl
                  eq_refl ltac:(discriminate) eq_refl eq_refl)
               "30" eq_refl).
Defined.

(** X13 ([main] with [ASSIGN_BASE_RE], both passes).  A numbered line
    whose one statement assigns 54272 to a variable, written with or
    without LET, in any letter case and with any blanks: the variable
    in upper case joins the alias set, and the line comes out as its
    number in canonical form, one blank and [<VAR>=0], whatever the
    options. *)
Theorem base_assignment_line (a : args) (lines : list string) (i : nat)
        (w ds wn kw wl v w1 w2 : string) :
  let stmt := kw ++ wl ++ v ++ w1 ++ "=" ++ w2 ++ "54272" in
  nth_error lines i = Some (w ++ ds ++ wn ++ stmt) ->
  all_of is_space w = true -> all_of is_digit ds = true -> ds <> EmptyString ->
  all_of is_space wn = true ->
  (kw = EmptyString /\ wl = EmptyString \/
   String.length kw = 3%nat /\ starts_ci "LET" kw = true /\
   all_of is_space wl = true /\ wl <> EmptyString) ->
  is_var v = true -> all_of is_space w1 = true -> all_of is_space w2 = true ->
  all_of is_dot (wn ++ stmt) = true ->
  exists n,
    py_int ds = Some n /\
    upper v ∈ base_vars_of (first_pass lines) /\
    nth_error (main a lines) (S i) = Some (str_of_int n ++ " " ++ upper v ++ "=0").
Proof.
  intros stmt Hi Hw Hds Hne Hwn Hpre Hv H1 H2 Hdot.
  destruct (assign_text kw wl v w1 w2 Hpre Hv) as [(c & r & Ec & Hc) Hs].
  fold stmt in Ec, Hs.
  destruct (ASSIGN_BASE_RE_parse kw wl v w1 w2 Hpre Hv H1 H2) as (am & Ham & Hg).
  fold stmt in Ham.
  assert (head_not is_digit (wn ++ stmt) = true) as Hh.
  { destruct wn as [|b wn]; simpl.
    - rewrite Ec. simpl. by rewrite (alpha_not_digit _ Hc).
    - simpl in Hwn. apply andb_true_iff in Hwn as [Hb _].
      by rewrite (space_not_digit _ Hb). }
  destruct (LINE_NUM_RE_parse w ds (wn ++ stmt) Hw Hds Hne Hh Hdot)
    as (m & Hm & Hm1 & Hm2).
  destruct (py_int_digits ds Hds Hne) as (n & Hn & _).
  assert (strip (wn ++ stmt) = stmt) as Hbody.
  { rewrite <- (app_str_nil_r stmt) at 1. by apply strip_blanks_around. }
  assert (stmt <> EmptyString) as Hsne by by rewrite Ec.
  assert (split_colon_statements stmt = [stmt]) as Hsplit.
  { apply split_single; [|done|done]. by eapply plain_no_colon, assign_plain. }
  assert (upper v ∈ base_vars_of (first_pass lines)) as Hin.
  { rewrite <- Hg.
    apply (first_pass_finds lines (w ++ ds ++ wn ++ stmt) m stmt am);
      [by eapply nth_error_In | done | | done].
    rewrite Hm2, strip_lstrip, Hbody, Hsplit. by left. }
  exists n. repeat split; [done | done |].
  rewrite main_lines. simpl. rewrite (map_nth_error _ _ _ Hi).
  unfold parse_line, line_number. rewrite Hm, Hm1, Hn, Hm2, strip_lstrip, Hbody.
  unfold convert_line.
  rewrite process_line_body_stmts, Hsplit. cbn [flat_map].
  rewrite (process_stmt_assign _ _ _ _ _ _ stmt am Hs Ham).
  cbn [app join String.concat].
  assert (zero_base_assigns (base_vars_of (first_pass lines)) stmt
          = upper v ++ "=0") as ->.
  { unfold zero_base_assigns. rewrite Hsplit. cbn [map]. unfold fix_assign.
    rewrite Ham, Hg, (bool_decide_eq_true_2 _ Hin). done. }
  assert (is_var (upper v) = true) as Hv' by by rewrite upper_var.
  rewrite (proj2 (zeroed_tidy _ Hv')).
  by destruct (upper v).
Qed.

Lemma base_assignment_line_witness :
  exists n,
    py_int "010" = Some n /\
    upper "s1" ∈ base_vars_of (first_pass ["REM"; " 010  let  s1 = 54272"]) /\
    nth_error (main default_args ["REM"; " 010  let  s1 = 54272"]) 2
    = Some (str_of_int n ++ " " ++ upper "s1" ++ "=0").
Proof.
  apply (base_assignment_line default_args ["REM"; " 010  let  s1 = 54272"] 1
           " " "010" "  " "let" "  " "s1" " " " "); try reflexivity.
  - discriminate.
  - right. repeat split. discriminate.
Defined.

(** X14 ([main] and the first loop of [process_line_body]).  Scaling
    needs a factor above 1 and a listed variable: with [--scale-for]
    at 1, at 0 or negative, or with no variable listed, the output is
    the one without scaling. *)
Theorem scaling_needs_factor_and_variable (a : args) (lines : list string) :
  (a_scale_for a <= 1)%Z \/ a_scale_for_vars a = ∅ ->
  main a lines
  = main (Args (a_reg a) (a_dat a) (a_warn_out_of_range a) 0 ∅
               (a_screen_profile a) (a_map_get_to_inkey a)) lines.
Proof.
  intros H. unfold main. f_equal.
  apply map_ext. intros [[n|] body]; [|done].
  { unfold convert_line. cbn [a_warn_out_of_range a_scale_for a_scale_for_vars
                              a_screen_profile a_map_get_to_inkey].
    assert (process_line_body body (base_vars_of (first_pass lines))
              (a_warn_out_of_range a)
              (if (a_scale_for a >? 0)%Z then Some (a_scale_for a) else None)
              (a_scale_for_vars a) (a_screen_profile a) (a_map_get_to_inkey a)
            = process_line_body body (base_vars_of (first_pass lines))
                (a_warn_out_of_range a)
                (if (0 >? 0)%Z then Some 0%Z else None) ∅
                (a_screen_profile a) (a_map_get_to_inkey a)) as ->; [|done].
    unfold process_line_body. do 2 f_equal. apply map_ext. intros stmt.
    rewrite !scale_stmt_off; [done | by left |].
    destruct H as [H | H]; [left | by right].
    destruct (Z.gtb_spec (a_scale_for a) 0); [|done].
    rewrite scaling_on_spec. lia. }
Qed.

Lemma scaling_needs_factor_and_variable_witness :
  main (Args 212 213 false 1 {["T"]} "ansi" false) ["10 FOR T=1 TO 50"]
  = main (Args 212 213 false 0 ∅ "ansi" false) ["10 FOR T=1 TO 50"] /\
  main (Args 212 213 false 3 ∅ "ansi" false) ["10 FOR T=1 TO 50"]
  = main (Args 212 213 false 0 ∅ "ansi" false) ["10 FOR T=1 TO 50"].
Proof.
  split.
  - apply (scaling_needs_factor_and_variable
             (Args 212 213 false 1 {["T"]} "ansi" false)). left. simpl. lia.
  - apply (scaling_needs_factor_and_variable
             (Args 212 213 false 3 ∅ "ansi" false)). by right.
Defined.

(** X15 ([ANSI_CHR_MAP] and [map_chr_calls_to_profile]).  Every escape
    sequence of the table begins with ESC and a bracket and holds no
    double quote, no dollar sign and no colon.  So the replacement of
    a call is one string literal: for a statement with one call and no
    dollar sign elsewhere, a second mapping changes nothing more, and
    the mapping adds no colon to the statement. *)
Theorem chr_replacement_is_literal (pre kw w1 ds w2 post : string) :
  all_of not_dollar pre = true -> all_of not_dollar post = true ->
  String.length kw = 5%nat -> starts_ci "CHR$(" kw = true ->
  all_of is_space w1 = true -> all_of is_digit ds = true -> ds <> EmptyString ->
  all_of is_space w2 = true ->
  let stmt := pre ++ kw ++ w1 ++ ds ++ w2 ++ ")" ++ post in
  (forall n esc, ANSI_CHR_MAP !! n = Some esc ->
     literal_safe esc = true /\ exists t, esc = ANSI_SEQ ++ "[" ++ t) /\
  map_chr_calls_to_profile (map_chr_calls_to_profile stmt "ansi") "ansi"
  = map_chr_calls_to_profile stmt "ansi" /\
  (all_of not_colon stmt = true ->
   all_of not_colon (map_chr_calls_to_profile stmt "ansi") = true).
Proof.
  intros Hpre Hpost Hl Hkw Hw1 Hds Hne Hw2 stmt.
  split; [apply ANSI_CHR_MAP_safe|].
  pose proof (map_chr_one_call pre kw w1 ds w2 post
                Hpre Hpost Hl Hkw Hw1 Hds Hne Hw2) as H.
  fold stmt in H.
  destruct (py_int ds) as [n|]; [destruct (ANSI_CHR_MAP !! n) as [esc|] eqn:E|].
  - destruct (ANSI_CHR_MAP_safe n esc E) as [Hsafe _].
    unfold literal_safe in Hsafe.
    apply andb_true_iff in Hsafe as [[Hq Hd]%andb_true_iff Hc].
    rewrite H. split.
    + apply map_chr_without_dollar.
      rewrite !all_of_app, Hpre, Hd, Hpost. done.
    + intros Hs. subst stmt. rewrite !all_of_app in Hs.
      repeat (apply andb_true_iff in Hs as [? Hs]).
      rewrite !all_of_app.
      repeat (apply andb_true_iff; split); done.
  - replace (pre ++ (kw ++ w1 ++ ds ++ w2 ++ ")") ++ post) with stmt in H
      by (subst stmt; by rewrite !app_str_assoc).
    rewrite H. by rewrite H.
  - replace (pre ++ (kw ++ w1 ++ ds ++ w2 ++ ")") ++ post) with stmt in H
      by (subst stmt; by rewrite !app_str_assoc).
    rewrite H. by rewrite H.
Qed.

Lemma chr_replacement_is_literal_witness :
  map_chr_calls_to_profile
    (map_chr_calls_to_profile "PRINT chr$( 147);A" "ansi") "ansi"
  = map_chr_calls_to_profile "PRINT chr$( 147);A" "ansi" /\
  all_of not_colon (map_chr_calls_to_profile "PRINT chr$( 147);A" "ansi") = true.
Proof.
  destruct (chr_replacement_is_literal "PRINT " "chr$(" " " "147" "" ";A"
              eq_refl eq_refl eq_refl eq_refl eq_refl eq_refl
              ltac:(discriminate) eq_refl) as (_ & H1 & H2).
  split; [exact H1 | exact (H2 eq_refl)].
Defined.

(** X16 ([main], a numbered line nothing applies to).  When no statement
    of a numbered line begins with FOR, GET or POKE, calls [CHR$] or
    assigns 54272 to a variable, the line comes out, whatever the
    options, as its number in canonical form, one blank and its
    statements joined by colons, that is its body as typed when the
    body is tidy; a body that comes out blank leaves the bare number. *)
Theorem neutral_line_output (a : args) (lines : list string) (i : nat)
        (raw : string) (n : Z) (body : string) :
  nth_error lines i = Some raw -> parse_line raw = (Some n, body) ->
  Forall (fun s => neutral s = true /\ re_match ASSIGN_BASE_RE s = None)
         (split_colon_statements body) ->
  let out := join ":" (split_colon_statements body) in
  nth_error (main a lines) (S i)
  = Some (if nonempty (strip out) then str_of_int n ++ " " ++ out
          else str_of_int n) /\
  (tidy body -> out = body) /\
  (body = EmptyString -> nth_error (main a lines) (S i) = Some (str_of_int n)).
Proof.
  intros Hi Hp Hall out.
  assert (nth_error (main a lines) (S i)
          = Some (if nonempty (strip out) then str_of_int n ++ " " ++ out
                  else str_of_int n)) as Hout.
  { rewrite main_lines. simpl. rewrite (map_nth_error _ _ _ Hi), Hp.
    unfold convert_line.
    rewrite neutral_statements_stay
      by (apply (List.Forall_impl _ (fun s H => proj1 H) Hall)).
    fold out. rewrite zero_base_assigns_none; [done|].
    intros s Hs. apply split_join_sub in Hs.
    - rewrite List.Forall_forall in Hall. by apply Hall.
    - intros x Hx. split; [by eapply split_colon_free
                          | by eapply split_colon_statements_stripped]. }
  split; [done|]. split; [by apply tidy_split|].
  intros ->. by rewrite Hout.
Qed.

Lemma neutral_line_output_witness :
  nth_error (main default_args ["10 B=54272"; " 020  PRINT A$ : GOTO 10 "]) 2
  = Some "20 PRINT A$:GOTO 10" /\
  nth_error (main default_args ["10 "]) 1 = Some "10".
Proof.
  split.
  - apply (neutral_line_output default_args
             ["10 B=54272"; " 020  PRINT A$ : GOTO 10 "] 1
             " 020  PRINT A$ : GOTO 10 " 20 "PRINT A$ : GOTO 10"
             eq_refl eq_refl).
    repeat constructor.
  - apply (neutral_line_output default_args ["10 "] 0 "10 " 10 ""
             eq_refl eq_refl); [constructor | reflexivity].
Defined.
